(** * color-palette.js: [adjustOklchLightness]

    A shallow embedding of [src/public/asset/js/color-palette.js] and the
    properties of its single function.  The function reads the text of a CSS
    custom property, matches it against a regular expression, adjusts the
    first captured number and prints the three numbers with [toFixed(4)].

    The embedding follows the JavaScript semantics of the operations the
    function uses:
    - strings are sequences of UTF-16 code units;
    - numbers are IEEE 754 binary64 values, taken from the Standard Library's
      executable specification [SpecFloat] (precision 53, emax 1024);
    - [String.prototype.trim], [String.prototype.match] on a regular
      expression, [parseFloat], [Number.prototype.toFixed], [Math.min] and
      [Math.max] are written out as functions;
    - [console.error] and exceptions are carried by a small writer/error
      monad.

    The file has five parts: the model (strings, effects, numbers, regular
    expressions, the program), the vocabulary of the statements, the lemmas
    (the matcher on the program's expression, trimming, [parseFloat], the
    rounding of binary64 arithmetic, printing), the properties C1 to C10 of
    the function, and further properties X1 to X15. *)

From Stdlib Require Import ZArith NArith List String Ascii Bool Lia DecimalPos.
From Stdlib Require Import Floats.SpecFloat.
Import ListNotations.

Local Open Scope Z_scope.
Local Open Scope list_scope.

(* ================================================================== *)
(** ** Strings *)

Module JsString.

(** A UTF-16 code unit. *)
Abbreviation char16 := N.

Definition jsstring := list char16.

(** String literals of the development: every character of the Rocq
    string is its code unit. *)
Fixpoint js (s : string) : jsstring :=
  match s with
  | EmptyString => []
  | String a s' => N_of_ascii a :: js s'
  end.

Definition char16_eqb (a b : char16) : bool := N.eqb a b.

(** [WhiteSpace] and [LineTerminator] of ECMA-262: the code units that
    [trim] strips, that [\s] matches and that [parseFloat] skips.
    TAB, LF, VT, FF, CR, SP, NBSP, U+1680, U+2000..U+200A, U+2028, U+2029,
    U+202F, U+205F, U+3000, U+FEFF. *)
Definition isWhiteSpace (c : char16) : bool :=
  (existsb (N.eqb c)
     [9; 10; 11; 12; 13; 32; 160; 5760; 8232; 8233; 8239; 8287; 12288; 65279]
   || ((8192 <=? c) && (c <=? 8202)))%N.

(** [\d]: the ten ASCII digits. *)
Definition isDigit (c : char16) : bool := ((48 <=? c) && (c <=? 57))%N.

Fixpoint dropWhile (p : char16 -> bool) (s : jsstring) : jsstring :=
  match s with
  | c :: s' => if p c then dropWhile p s' else s
  | [] => []
  end.

Fixpoint takeWhile (p : char16 -> bool) (s : jsstring) : jsstring :=
  match s with
  | c :: s' => if p c then c :: takeWhile p s' else []
  | [] => []
  end.

Definition trimStart (s : jsstring) : jsstring := dropWhile isWhiteSpace s.

Definition trimEnd (s : jsstring) : jsstring :=
  rev (dropWhile isWhiteSpace (rev s)).

(** [String.prototype.trim]. *)
Definition trim (s : jsstring) : jsstring := trimEnd (trimStart s).

(** [stripPrefix p s]: what follows [p] in [s], when [s] starts with [p]. *)
Fixpoint stripPrefix (p s : jsstring) : option jsstring :=
  match p, s with
  | [], _ => Some s
  | a :: p', b :: s' => if char16_eqb a b then stripPrefix p' s' else None
  | _ :: _, [] => None
  end.

End JsString.
Import JsString.

(* ================================================================== *)
(** ** Effects: exceptions and the console *)

Module Effect.

(** What is thrown: the two kinds of error that the built-in operations of
    the program raise, and a value thrown by code of the caller (a method
    of an object passed as an argument), named by a description. *)
Inductive error := TypeError | RangeError | UserThrown (description : jsstring).

(** How an evaluation completes. *)
Inductive completion (A : Type) :=
| Normal (a : A)
| Throw (e : error).
Arguments Normal {A} a.
Arguments Throw {A} e.

(** A computation: its completion and the lines it wrote with
    [console.error], oldest first. *)
Definition M (A : Type) : Type := (completion A * list jsstring)%type.

Definition ret {A} (a : A) : M A := (Normal a, []).

Definition bind {A B} (m : M A) (f : A -> M B) : M B :=
  match m with
  | (Normal a, out) => let '(r, out') := f a in (r, out ++ out')
  | (Throw e, out) => (Throw e, out)
  end.

Definition lift {A} (c : completion A) : M A := (c, []).

Definition console_error (line : jsstring) : M unit := (Normal tt, [line]).

Definition result {A} (m : M A) : completion A := fst m.
Definition console {A} (m : M A) : list jsstring := snd m.

End Effect.
Import Effect.

Notation "x <- m ;; k" := (bind m (fun x => k))
  (at level 61, m at next level, right associativity).
Notation "m ;;; k" := (bind m (fun _ => k))
  (at level 61, right associativity).

(* ================================================================== *)
(** ** Numbers *)

Module Number.

Definition prec : Z := 53.
Definition emax : Z := 1024.

(** A JavaScript Number: a binary64 value. *)
Definition number := spec_float.

Definition NaN : number := S754_nan.
Definition zero : number := S754_zero false.

(** The arithmetic operators [*], [-] and [/]. *)
Definition mul : number -> number -> number := SFmul prec emax.
Definition sub : number -> number -> number := SFsub prec emax.
Definition div : number -> number -> number := SFdiv prec emax.

(** The relational operator [<] on numbers. *)
Definition ltb : number -> number -> bool := SFltb.

Definition isNaN (x : number) : bool :=
  match x with S754_nan => true | _ => false end.

Definition isFinite (x : number) : bool :=
  match x with S754_zero _ | S754_finite _ _ _ => true | _ => false end.

Definition number_eqb (x y : number) : bool :=
  match x, y with
  | S754_zero a, S754_zero b => Bool.eqb a b
  | S754_infinity a, S754_infinity b => Bool.eqb a b
  | S754_nan, S754_nan => true
  | S754_finite a m e, S754_finite b n f =>
      Bool.eqb a b && Pos.eqb m n && Z.eqb e f
  | _, _ => false
  end.

(** The Number value of the decimal [(-1)^s * m * 10^e10] for a natural
    number [m]: the quotient of two integers, rounded once to nearest, ties
    to even, by the library's division (which takes any two positive
    integer significands). *)
Definition ofDecimal (s : bool) (m : Z) (e10 : Z) : number :=
  match m with
  | Zpos p =>
      div (S754_finite s (p * Z.to_pos (10 ^ Z.max e10 0)) 0)
          (S754_finite false (Z.to_pos (10 ^ Z.max (- e10) 0)) 0)
  | _ => S754_zero s
  end.

(** Number literals of the program: [0], [1], [100]. *)
Definition ofZ (n : Z) : number := ofDecimal (n <? 0) (Z.abs n) 0.

Definition one : number := Eval vm_compute in ofZ 1.
Definition hundred : number := Eval vm_compute in ofZ 100.

(** [Math.min(a, b)] and [Math.max(a, b)] (ECMA-262 21.3.2.25/24 for two
    arguments): NaN if either argument is NaN; -0 is below +0. *)
Definition Math_min (a b : number) : number :=
  if isNaN a || isNaN b then NaN
  else match a, b with
       | S754_zero false, S754_zero true => b
       | _, _ => if ltb b a then b else a
       end.

Definition Math_max (a b : number) : number :=
  if isNaN a || isNaN b then NaN
  else match a, b with
       | S754_zero true, S754_zero false => b
       | _, _ => if ltb a b then b else a
       end.

(** *** Decimal digits *)

Fixpoint uintDigits (u : Decimal.uint) : jsstring :=
  match u with
  | Decimal.Nil => []
  | Decimal.D0 u => 48%N :: uintDigits u
  | Decimal.D1 u => 49%N :: uintDigits u
  | Decimal.D2 u => 50%N :: uintDigits u
  | Decimal.D3 u => 51%N :: uintDigits u
  | Decimal.D4 u => 52%N :: uintDigits u
  | Decimal.D5 u => 53%N :: uintDigits u
  | Decimal.D6 u => 54%N :: uintDigits u
  | Decimal.D7 u => 55%N :: uintDigits u
  | Decimal.D8 u => 56%N :: uintDigits u
  | Decimal.D9 u => 57%N :: uintDigits u
  end.

(** The decimal representation of a natural number, ["0"] for zero. *)
Definition decimalDigits (n : Z) : jsstring :=
  uintDigits (N.to_uint (Z.to_N n)).

(** The value of a sequence of decimal digits. *)
Definition digitsValue (s : jsstring) : Z :=
  fold_left (fun acc c => 10 * acc + (Z.of_N c - 48)) s 0.

Definition zeros (n : Z) : jsstring := repeat 48%N (Z.to_nat n).

(** *** Number::toString (radix 10) *)

(** The least [j], from the given one on, with [D <= N * 10^j]. *)
Fixpoint scaleUp (fuel : nat) (N D j : Z) : Z :=
  match fuel with
  | O => j
  | S fuel' => if D <=? N * 10 ^ j then j else scaleUp fuel' N D (j + 1)
  end.

(** The positive rational [N / D] lies in [10^(n-1), 10^n): this is [n]. *)
Definition decimalExponent (N D : Z) : Z :=
  if D <=? N then Z.of_nat (List.length (decimalDigits (N / D)))
  else 1 - scaleUp 400 N D 1.

(** A [k]-digit integer [s] and an exponent [n] with
    [ofDecimal s (n - k) = x], if there is one; the nearer of the two
    neighbours of [x * 10^(k - n0)] when both read back as [x], the even
    one on a tie. *)
Definition candidate (x : number) (N D n0 k : Z) : option (Z * Z) :=
  let num := N * 10 ^ Z.max (k - n0) 0 in
  let den := D * 10 ^ Z.max (n0 - k) 0 in
  let lo := num / den in
  let hi := lo + 1 in
  let hi' := if hi =? 10 ^ k then (10 ^ (k - 1), n0 + 1) else (hi, n0) in
  match number_eqb (ofDecimal false lo (n0 - k)) x,
        number_eqb (ofDecimal false hi (n0 - k)) x with
  | true, true =>
      let twice := 2 * (num - lo * den) in
      Some (if (twice <? den) || ((twice =? den) && Z.even lo)
            then (lo, n0) else hi')
  | true, false => Some (lo, n0)
  | false, true => Some hi'
  | false, false => None
  end.

(** The least [k] that has a candidate: [(s, k, n)]. *)
Fixpoint shortest (fuel : nat) (x : number) (N D n0 k : Z) : Z * Z * Z :=
  match fuel with
  | O => (0, k, n0)
  | S fuel' =>
      match candidate x N D n0 k with
      | Some (s, n) => (s, k, n)
      | None => shortest fuel' x N D n0 (k + 1)
      end
  end.

Definition toStringPositive (m : positive) (e : Z) : jsstring :=
  let N := Zpos m * 2 ^ Z.max e 0 in
  let D := 2 ^ Z.max (- e) 0 in
  let '(s, k, n) :=
    shortest 17 (S754_finite false m e) N D (decimalExponent N D) 1 in
  let ds := decimalDigits s in
  let expo :=
    js "e" ++ (if n - 1 <? 0 then js "-" else js "+")
           ++ decimalDigits (Z.abs (n - 1)) in
  if (k <=? n) && (n <=? 21) then ds ++ zeros (n - k)
  else if (0 <? n) && (n <=? 21) then
    firstn (Z.to_nat n) ds ++ js "." ++ skipn (Z.to_nat n) ds
  else if (-6 <? n) && (n <=? 0) then js "0." ++ zeros (- n) ++ ds
  else if k =? 1 then ds ++ expo
  else firstn 1 ds ++ js "." ++ skipn 1 ds ++ expo.

Definition Number_toString (x : number) : jsstring :=
  match x with
  | S754_nan => js "NaN"
  | S754_zero _ => js "0"
  | S754_infinity s => (if s then js "-" else []) ++ js "Infinity"
  | S754_finite s m e => (if s then js "-" else []) ++ toStringPositive m e
  end.

(** *** Number.prototype.toFixed *)

(** The integer [n] for which [n / 10^f] is nearest to [m * 2^e], the
    larger one on a tie. *)
Definition fixedInteger (m : positive) (e f : Z) : Z :=
  let N := Zpos m * 2 ^ Z.max e 0 in
  let D := 2 ^ Z.max (- e) 0 in
  (2 * N * 10 ^ f + D) / (2 * D).

(** The digits of [n] with a decimal point before the last [f] of them. *)
Definition fixedDigits (n f : Z) : jsstring :=
  let m := decimalDigits n in
  if f =? 0 then m
  else
    let k := Z.of_nat (List.length m) in
    let m := if k <=? f then zeros (f + 1 - k) ++ m else m in
    let k := if k <=? f then f + 1 else k in
    firstn (Z.to_nat (k - f)) m ++ js "." ++ skipn (Z.to_nat (k - f)) m.

(** The text for a digit count in range. *)
Definition fixedText (x : number) (f : Z) : jsstring :=
  match x with
  | S754_nan | S754_infinity _ => Number_toString x
  | S754_zero _ => fixedDigits 0 f
  | S754_finite s m e =>
      (if s then js "-" else []) ++
      (if 10 ^ 21 * 2 ^ Z.max (- e) 0 <=? Zpos m * 2 ^ Z.max e 0
       then toStringPositive m e
       else fixedDigits (fixedInteger m e f) f)
  end.

(** [x.toFixed(fractionDigits)]: a RangeError unless the digit count is
    between 0 and 100; the text of a NaN, an infinity or a value of
    magnitude [10^21] or more is the one of [Number::toString]. *)
Definition toFixed (x : number) (fractionDigits : Z) : completion jsstring :=
  if (fractionDigits <? 0) || (100 <? fractionDigits) then Throw RangeError
  else Normal (fixedText x fractionDigits).

(** *** parseFloat *)

(** [ExponentPart]: [e] or [E], an optional sign and at least one digit;
    [0] when the text does not start with one. *)
Definition exponentPart (r : jsstring) : Z :=
  match r with
  | c :: r' =>
      if (c =? 101)%N || (c =? 69)%N then
        let '(neg, ds) :=
          match r' with
          | d :: r'' =>
              if (d =? 43)%N then (false, takeWhile isDigit r'')
              else if (d =? 45)%N then (true, takeWhile isDigit r'')
              else (false, takeWhile isDigit r')
          | [] => (false, [])
          end in
        match ds with
        | [] => 0
        | _ => if neg then - digitsValue ds else digitsValue ds
        end
      else 0
  | [] => 0
  end.

(** The longest prefix of [u] that is a [StrUnsignedDecimalLiteral] other
    than [Infinity] (digits, an optional point with digits on at least one
    side, an optional exponent part), as a Number; NaN when there is none. *)
Definition parseUnsigned (sign : bool) (u : jsstring) : number :=
  let ip := takeWhile isDigit u in
  let r1 := dropWhile isDigit u in
  let '(fp, r2) :=
    match r1 with
    | c :: r =>
        if (c =? 46)%N then (takeWhile isDigit r, dropWhile isDigit r)
        else ([], r1)
    | [] => ([], r1)
    end in
  match ip ++ fp with
  | [] => NaN
  | ds => ofDecimal sign (digitsValue ds)
            (exponentPart r2 - Z.of_nat (List.length fp))
  end.

(** [parseFloat] on a string: leading white space is skipped, then the
    longest prefix that is a [StrDecimalLiteral] is read. *)
Definition parseFloat_string (s : jsstring) : number :=
  let t := trimStart s in
  let '(sign, u) :=
    match t with
    | c :: t' =>
        if (c =? 43)%N then (false, t')
        else if (c =? 45)%N then (true, t')
        else (false, t)
    | [] => (false, t)
    end in
  match stripPrefix (js "Infinity") u with
  | Some _ => S754_infinity sign
  | None => parseUnsigned sign u
  end.

(** *** Values passed to [parseFloat] *)

(** The values whose conversion to a string cannot fail and on which the
    statements about numbers are written: [undefined], a number, a string.
    The program itself passes a captured string (or [undefined]) to
    [parseFloat]; the percentage of the caller may be any [argument],
    below. *)
Inductive jsvalue :=
| JUndefined
| JNumber (x : number)
| JString (s : jsstring).

Definition ToString (v : jsvalue) : jsstring :=
  match v with
  | JUndefined => js "undefined"
  | JNumber x => Number_toString x
  | JString s => s
  end.

(** The global [parseFloat] on these values, whose conversion to a string
    cannot fail: the argument is converted to a string first. *)
Definition parseFloat (v : jsvalue) : number := parseFloat_string (ToString v).

(** *** Any argument of [parseFloat] *)

(** Any value a caller can pass: one of the values above; [null], a
    Boolean or a BigInt; a Symbol; or an object, given by what its
    conversion to a string does: the lines its methods write with
    [console.error], and the string they lead to or what is thrown (a
    TypeError when they lead to a Symbol). *)
Inductive argument :=
| Plain (v : jsvalue)
| ANull
| ABoolean (b : bool)
| ABigInt (n : Z)
| ASymbol
| AnObject (conversion : M jsstring).

(** A value of the first kind is used as an argument as it is. *)
Coercion Plain : jsvalue >-> argument.

(** [ToString] (ECMA-262 7.1.17): total on the values above and on [null],
    Booleans and BigInts, a TypeError on a Symbol, the conversion of the
    object on an object. *)
Definition ToString_argument (a : argument) : M jsstring :=
  match a with
  | Plain v => ret (ToString v)
  | ANull => ret (js "null")
  | ABoolean b => ret (if b then js "true" else js "false")
  | ABigInt n => ret ((if n <? 0 then js "-" else []) ++ decimalDigits (Z.abs n))
  | ASymbol => lift (Throw TypeError)
  | AnObject conversion => conversion
  end.

(** The global [parseFloat] on any argument: [? ToString(string)], then the
    reading of the text. *)
Definition parseFloat_argument (a : argument) : M number :=
  inputString <- ToString_argument a ;;
  ret (parseFloat_string inputString).

End Number.
Import Number.

(* ================================================================== *)
(** ** Regular expressions *)

Module RegExp.

(** The fragment of the pattern language that the program's expression is
    written in: single-character atoms (a literal character, a class),
    the greedy quantifiers [*] and [+] on an atom, concatenation and
    capturing groups. *)
Inductive regex :=
| Empty
| Atom (p : char16 -> bool)
| Star (p : char16 -> bool)
| Plus (p : char16 -> bool)
| Cat (r1 r2 : regex)
| Group (r : regex).

(** The characters of a literal, in sequence. *)
Fixpoint Lit (s : jsstring) : regex :=
  match s with
  | [] => Empty
  | c :: s' => Cat (Atom (char16_eqb c)) (Lit s')
  end.

Section Matcher.
Context {R : Type}.

(** Greedy [p*] followed by the continuation [k]: the longest run is
    tried first, then each shorter one. *)
Fixpoint star (p : char16 -> bool) (k : jsstring -> option R)
         (s : jsstring) : option R :=
  match s with
  | c :: s' =>
      if p c then
        match star p k s' with
        | Some r => Some r
        | None => k s
        end
      else k s
  | [] => k s
  end.

(** The backtracking matcher, in continuation-passing style: [run r s
    caps k] matches [r] at the start of [s] and hands the rest of the
    input and the captures so far to [k]; when [k] fails the matcher
    tries its next alternative. *)
Fixpoint run (r : regex) (s : jsstring) (caps : list jsstring)
         (k : jsstring -> list jsstring -> option R) : option R :=
  match r with
  | Empty => k s caps
  | Atom p =>
      match s with
      | c :: s' => if p c then k s' caps else None
      | [] => None
      end
  | Star p => star p (fun s' => k s' caps) s
  | Plus p =>
      match s with
      | c :: s' => if p c then star p (fun s' => k s' caps) s' else None
      | [] => None
      end
  | Cat r1 r2 => run r1 s caps (fun s' caps' => run r2 s' caps' k)
  | Group r1 =>
      run r1 s caps
          (fun s' caps' =>
             k s' (caps' ++ [firstn (List.length s - List.length s') s]))
  end.
End Matcher.

(** A match at the start of [s]: the array of the matched text followed
    by the captures. *)
Definition matchHere (r : regex) (s : jsstring) : option (list jsstring) :=
  run r s []
      (fun s' caps =>
         Some (firstn (List.length s - List.length s') s :: caps)).

(** [RegExpBuiltinExec] without flags: the first position, from the left,
    at which the expression matches. *)
Fixpoint exec (r : regex) (s : jsstring) : option (list jsstring) :=
  match matchHere r s with
  | Some m => Some m
  | None =>
      match s with
      | _ :: s' => exec r s'
      | [] => None
      end
  end.

(** [String.prototype.match] with a non-global regular expression. *)
Definition String_match (s : jsstring) (r : regex) : option (list jsstring) :=
  exec r s.

(** [m[i]] on the match array. *)
Definition item (m : list jsstring) (i : nat) : jsvalue :=
  match nth_error m i with
  | Some s => JString s
  | None => JUndefined
  end.

End RegExp.
Import RegExp.

(* ================================================================== *)
(** ** The program *)

(** The class [[\d.]]. *)
Definition isDigitOrDot (c : char16) : bool := isDigit c || (c =? 46)%N.

(** [/oklch\(\s*([\d.]+)\s+([\d.]+)\s+([\d.]+)\s*\)/] *)
Definition oklchRegex : regex :=
  Cat (Lit (js "oklch("))
 (Cat (Star isWhiteSpace)
 (Cat (Group (Plus isDigitOrDot))
 (Cat (Plus isWhiteSpace)
 (Cat (Group (Plus isDigitOrDot))
 (Cat (Plus isWhiteSpace)
 (Cat (Group (Plus isDigitOrDot))
 (Cat (Star isWhiteSpace)
      (Lit (js ")"))))))))).

(** The text logged when the value does not match. *)
Definition diagnostic (cssVariableName : jsstring) : jsstring :=
  js "Invalid OKLCH format or CSS variable " ++ [34%N] ++ cssVariableName
     ++ [34%N] ++ js " not found.".

(** [adjustOklchLightness(cssVariableName, percentageModification)].
    [getPropertyValue] is the lookup of
    [getComputedStyle(document.documentElement)]; the result is [None] for
    [null].  The percentage is any value: [parseFloat] converts it to a
    string, which can throw, and does so only after the text has matched
    and the three captures have been read. *)
Definition adjustOklchLightness
           (getPropertyValue : jsstring -> jsstring)
           (cssVariableName : jsstring)
           (percentageModification : argument) : M (option jsstring) :=
  let oklchValue := trim (getPropertyValue cssVariableName) in
  let match_ := String_match oklchValue oklchRegex in
  match match_ with
  | None =>
      console_error (diagnostic cssVariableName) ;;;
      ret None
  | Some match_ =>
      let lightness := parseFloat (item match_ 1) in
      let chroma := parseFloat (item match_ 2) in
      let hue := parseFloat (item match_ 3) in
      percentage <- parseFloat_argument percentageModification ;;
      let numericPercentage := div percentage hundred in
      let lightness := sub lightness (mul lightness numericPercentage) in
      let lightness := Math_max zero (Math_min one lightness) in
      l <- lift (toFixed lightness 4) ;;
      c <- lift (toFixed chroma 4) ;;
      h <- lift (toFixed hue 4) ;;
      ret (Some (js "oklch(" ++ l ++ js " " ++ c ++ js " " ++ h ++ js ")"))
  end.

(* ================================================================== *)
(** ** Vocabulary of the statements *)

(** *** Parts of the function *)

(** The adjusted and clamped lightness. *)
Definition adjustLightness (L pv : number) : number :=
  let numericPercentage := div pv hundred in
  let lightness := sub L (mul L numericPercentage) in
  Math_max zero (Math_min one lightness).

(** The clamp [Math.max(0, Math.min(1, x))]. *)
Definition clamp (x : number) : number := Math_max zero (Math_min one x).

(** The text of [x.toFixed(4)]. *)
Definition fixed4 (x : number) : jsstring := fixedText x 4.

(** The returned template. *)
Definition formatOklch (l c h : number) : jsstring :=
  js "oklch(" ++ fixed4 l ++ js " " ++ fixed4 c ++ js " " ++ fixed4 h ++ js ")".

(** *** Texts *)

(** What follows the longest run of a class does not start with a
    character of the class. *)
Definition stops (p : char16 -> bool) (s : jsstring) : Prop :=
  match s with
  | c :: _ => p c = false
  | [] => True
  end.

(** One attempt of the expression at the start of [s], written as a
    left-to-right scan: the literal, white space, three runs of digits and
    points separated by white space, white space, the closing parenthesis. *)
Definition scanHere (s : jsstring) : option (list jsstring) :=
  match stripPrefix (js "oklch(") s with
  | None => None
  | Some s1 =>
      let s2 := dropWhile isWhiteSpace s1 in
      let a := takeWhile isDigitOrDot s2 in
      let s3 := dropWhile isDigitOrDot s2 in
      let w1 := takeWhile isWhiteSpace s3 in
      let s4 := dropWhile isWhiteSpace s3 in
      let b := takeWhile isDigitOrDot s4 in
      let s5 := dropWhile isDigitOrDot s4 in
      let w2 := takeWhile isWhiteSpace s5 in
      let s6 := dropWhile isWhiteSpace s5 in
      let c := takeWhile isDigitOrDot s6 in
      let s7 := dropWhile isDigitOrDot s6 in
      let s8 := dropWhile isWhiteSpace s7 in
      match a, w1, b, w2, c, stripPrefix (js ")") s8 with
      | _ :: _, _ :: _, _ :: _, _ :: _, _ :: _, Some rest =>
          Some [firstn (List.length s - List.length rest) s; a; b; c]
      | _, _, _, _, _, _ => None
      end
  end.

(** A run of white space; a non-empty run of digits and points. *)
Definition spaces (w : jsstring) : Prop := forallb isWhiteSpace w = true.

Definition numberRun (a : jsstring) : Prop :=
  a <> [] /\ forallb isDigitOrDot a = true.

Definition oklchText (w0 a w1 b w2 c w3 : jsstring) : jsstring :=
  js "oklch(" ++ w0 ++ a ++ w1 ++ b ++ w2 ++ c ++ w3 ++ js ")".

(** [t] is [oklch(], white space, [a], white space, [b], white space, [c],
    white space, [)], with white space required between the runs. *)
Definition shaped (t a b c : jsstring) : Prop :=
  exists w0 w1 w2 w3,
    t = oklchText w0 a w1 b w2 c w3 /\
    spaces w0 /\ (spaces w1 /\ w1 <> []) /\ (spaces w2 /\ w2 <> []) /\
    spaces w3 /\ numberRun a /\ numberRun b /\ numberRun c.

(** [s] has a part of that shape somewhere inside. *)
Definition containsOklch (s : jsstring) : Prop :=
  exists pre t post a b c, s = pre ++ t ++ post /\ shaped t a b c.

(** Decimal numbers as the specification describes them: digits with an
    optional decimal point (no sign, no exponent), and the Number each one
    denotes. *)
Definition digits (s : jsstring) : Prop := forallb isDigit s = true.

Inductive decimalNumber : jsstring -> number -> Prop :=
| decimal_integer (ip : jsstring) :
    ip <> [] -> digits ip ->
    decimalNumber ip (ofDecimal false (digitsValue ip) 0)
| decimal_point (ip fp : jsstring) :
    ip ++ fp <> [] -> digits ip -> digits fp ->
    decimalNumber (ip ++ js "." ++ fp)
                  (ofDecimal false (digitsValue (ip ++ fp))
                             (- Z.of_nat (List.length fp))).


(** The form of the specification's P5: the whole trimmed text is
    [oklch(a b c)] with three decimal numbers. *)
Definition specForm (trimmed : jsstring) : Prop :=
  exists a b c L C H,
    shaped trimmed a b c /\
    decimalNumber a L /\ decimalNumber b C /\ decimalNumber c H.



(** The text is digits, a point and exactly four digits. *)
Definition isFixed4 (s : jsstring) : bool :=
  match takeWhile isDigit s, dropWhile isDigit s with
  | _ :: _, d :: fp =>
      (d =? 46)%N && Nat.eqb (List.length fp) 4 && forallb isDigit fp
  | _, _ => false
  end.

Definition notSpace (c : char16) : bool := negb (c =? 32)%N.

Definition notParen (c : char16) : bool := negb (c =? 41)%N.

(** Written from the specification's P1: [oklch(], three numbers separated
    by single spaces, [)], each number with exactly four digits after the
    decimal point. *)
Definition outputShape (out : jsstring) : bool :=
  match stripPrefix (js "oklch(") out with
  | None => false
  | Some r =>
      match dropWhile notSpace r with
      | _ :: r2 =>
          match dropWhile notSpace r2 with
          | _ :: r3 =>
              match dropWhile notParen r3 with
              | [_] =>
                  isFixed4 (takeWhile notSpace r)
                  && isFixed4 (takeWhile notSpace r2)
                  && isFixed4 (takeWhile notParen r3)
              | _ => false
              end
          | [] => false
          end
      | [] => false
      end
  end.

(** *** Numbers *)

(** A sign bit, for the values that have one. *)
Definition signOf (x : number) : option bool :=
  match x with
  | S754_nan => None
  | S754_zero s | S754_infinity s | S754_finite s _ _ => Some s
  end.

(** NaN, or a value without a minus sign: zero, a positive number or
    +Infinity. *)
Definition notNegative (x : number) : Prop :=
  signOf x = None \/ signOf x = Some false.

Definition isZero (x : number) : bool :=
  match x with S754_zero _ => true | _ => false end.

(** Finite and below [10^21] in absolute value: the range on which
    [toFixed] prints in fixed notation. *)
Definition fixedRange (x : number) : bool :=
  match x with
  | S754_zero _ => true
  | S754_finite _ m e =>
      negb (10 ^ 21 * 2 ^ Z.max (- e) 0 <=? Zpos m * 2 ^ Z.max e 0)
  | _ => false
  end.

(** The exponent of the binary64 format for a value of magnitude [e]. *)
Definition fexp64 (e : Z) : Z := Z.max (e - 53) (-1074).

(** The float built from a sign, a natural significand and an exponent. *)
Definition mkFloat (s : bool) (m e : Z) : number :=
  match m with
  | Z0 => S754_zero s
  | Zpos p => if e <=? 971 then S754_finite s p e else S754_infinity s
  | Zneg _ => S754_nan
  end.


(** At most 53 digits and an exponent of the format. *)
Definition wellFormed (x : number) : Prop :=
  match x with
  | S754_finite _ m e => Zdigits2 (Zpos m) <= 53 /\ -1074 <= e <= 971
  | _ => True
  end.

(** *** Texts of numbers *)

(** A character that can continue a decimal literal: a digit, a point or
    the letter of an exponent part; and one that can continue it after the
    point. *)
Definition continuesNumber (c : char16) : bool :=
  isDigitOrDot c || (c =? 101)%N || (c =? 69)%N.

Definition continuesFraction (c : char16) : bool :=
  isDigit c || (c =? 101)%N || (c =? 69)%N.

(** An optional sign. *)
Definition signText (sg : jsstring) : Prop :=
  sg = [] \/ sg = js "+" \/ sg = js "-".

(** The body of the value from [oklch(] on, up to a place where a white
    space or the closing parenthesis is expected: nothing yet, the
    lightness, the lightness and the chroma, or all three numbers. *)
Inductive bodyStart : jsstring -> Prop :=
| start_open (w0 : jsstring) :
    spaces w0 -> bodyStart w0
| start_lightness (w0 a : jsstring) :
    spaces w0 -> numberRun a -> bodyStart (w0 ++ a)
| start_chroma (w0 a w1 b : jsstring) :
    spaces w0 -> numberRun a -> spaces w1 -> w1 <> [] -> numberRun b ->
    bodyStart (w0 ++ a ++ w1 ++ b)
| start_hue (w0 a w1 b w2 c w3 : jsstring) :
    spaces w0 -> numberRun a -> spaces w1 -> w1 <> [] -> numberRun b ->
    spaces w2 -> w2 <> [] -> numberRun c -> spaces w3 ->
    bodyStart (w0 ++ a ++ w1 ++ b ++ w2 ++ c ++ w3).

(* ================================================================== *)
(** * Lemmas *)
(* ================================================================== *)
(** ** Scanning lemmas *)

Section Scanning.
Variable p : char16 -> bool.

Lemma takeWhile_dropWhile (s : jsstring) :
  takeWhile p s ++ dropWhile p s = s.
Proof.
  induction s as [|c s IH]; simpl; [reflexivity|].
  destruct (p c); simpl; [now rewrite IH | reflexivity].
Qed.

Lemma takeWhile_all (s : jsstring) : forallb p (takeWhile p s) = true.
Proof.
  induction s as [|c s IH]; simpl; [reflexivity|].
  destruct (p c) eqn:E; simpl; [now rewrite E | reflexivity].
Qed.

Lemma dropWhile_stops (s : jsstring) : stops p (dropWhile p s).
Proof.
  induction s as [|c s IH]; simpl; [exact I|].
  destruct (p c) eqn:E; [exact IH | exact E].
Qed.

Lemma dropWhile_app (w r : jsstring) :
  forallb p w = true -> stops p r -> dropWhile p (w ++ r) = r.
Proof.
  induction w as [|c w IH]; simpl; intros Hw Hr.
  - destruct r as [|d r]; simpl in *; [reflexivity | now rewrite Hr].
  - apply andb_prop in Hw as [Hc Hw]. rewrite Hc. now apply IH.
Qed.

Lemma takeWhile_app (w r : jsstring) :
  forallb p w = true -> stops p r -> takeWhile p (w ++ r) = w.
Proof.
  induction w as [|c w IH]; simpl; intros Hw Hr.
  - destruct r as [|d r]; simpl in *; [reflexivity | now rewrite Hr].
  - apply andb_prop in Hw as [Hc Hw]. rewrite Hc. f_equal. now apply IH.
Qed.

Lemma dropWhile_length (s : jsstring) :
  (List.length (dropWhile p s) <= List.length s)%nat.
Proof.
  induction s as [|c s IH]; simpl; [lia|].
  destruct (p c); simpl; lia.
Qed.

(** The text consumed up to the rest of a scan is the run itself. *)
Lemma firstn_dropWhile (s : jsstring) :
  firstn (List.length s - List.length (dropWhile p s)) s = takeWhile p s.
Proof.
  rewrite <- (takeWhile_dropWhile s) at 1 3.
  rewrite length_app.
  replace (List.length (takeWhile p s) + List.length (dropWhile p s)
           - List.length (dropWhile p s))%nat
    with (List.length (takeWhile p s) + 0)%nat by lia.
  rewrite firstn_app_2. simpl. now rewrite app_nil_r.
Qed.

(** A scan that stops before a given character keeps a suffix that still
    contains everything from that character on. *)
Lemma dropWhile_keeps (pre : jsstring) (c : char16) (t : jsstring) :
  p c = false ->
  exists pre', dropWhile p (pre ++ c :: t) = pre' ++ c :: t.
Proof.
  intros Hc. induction pre as [|d pre IH]; simpl.
  - rewrite Hc. now exists [].
  - destruct (p d); [exact IH | now exists (d :: pre)].
Qed.

End Scanning.

Lemma firstn_suffix {A} (pre s : list A) :
  firstn (List.length (pre ++ s) - List.length s) (pre ++ s) = pre.
Proof.
  rewrite length_app.
  replace (List.length pre + List.length s - List.length s)%nat
    with (List.length pre + 0)%nat by lia.
  rewrite firstn_app_2. simpl. apply app_nil_r.
Qed.

Lemma stripPrefix_app (l s : jsstring) : stripPrefix l (l ++ s) = Some s.
Proof.
  induction l as [|c l IH]; simpl; [reflexivity|].
  unfold char16_eqb. now rewrite N.eqb_refl.
Qed.

Lemma stripPrefix_inv (l s r : jsstring) :
  stripPrefix l s = Some r -> s = l ++ r.
Proof.
  revert s. induction l as [|c l IH]; simpl; intros s H.
  - now inversion H.
  - destruct s as [|d s]; [discriminate|].
    unfold char16_eqb in H. destruct (N.eqb_spec c d); [|discriminate].
    subst d. f_equal. now apply IH.
Qed.

(** ** The character classes of the expression do not overlap *)

Lemma space_outside (c : char16) :
  isWhiteSpace c = true -> (c < 46 \/ 57 < c)%N.
Proof.
  unfold isWhiteSpace. cbn [existsb]. intros H.
  apply orb_prop in H as [H|H].
  - repeat (apply orb_prop in H as [H|H];
            [apply N.eqb_eq in H; subst; lia|]).
    discriminate.
  - apply andb_prop in H as [H _]. apply N.leb_le in H. lia.
Qed.

Lemma space_not_number (c : char16) :
  isWhiteSpace c = true -> isDigitOrDot c = false.
Proof.
  intros H. apply space_outside in H.
  unfold isDigitOrDot, isDigit.
  destruct (N.leb_spec 48 c), (N.leb_spec c 57), (N.eqb_spec c 46);
    simpl; try reflexivity; lia.
Qed.

Lemma number_not_space (c : char16) :
  isDigitOrDot c = true -> isWhiteSpace c = false.
Proof.
  intros H. destruct (isWhiteSpace c) eqn:E; [|reflexivity].
  apply space_not_number in E. congruence.
Qed.

Lemma number_bounds (c : char16) :
  isDigitOrDot c = true -> (46 <= c <= 57)%N.
Proof.
  unfold isDigitOrDot, isDigit. intros H.
  apply orb_prop in H as [H|H].
  - apply andb_prop in H as [H1 H2].
    apply N.leb_le in H1. apply N.leb_le in H2. lia.
  - apply N.eqb_eq in H. lia.
Qed.

Lemma space_not_paren (c : char16) :
  isWhiteSpace c = true -> char16_eqb 41%N c = false.
Proof.
  intros H. unfold char16_eqb. destruct (N.eqb_spec 41%N c); [|reflexivity].
  subst c. discriminate H.
Qed.

Lemma digit_is_number (c : char16) : isDigit c = true -> isDigitOrDot c = true.
Proof. unfold isDigitOrDot. now intros ->. Qed.

(* ================================================================== *)
(** ** The matcher on the program's expression *)

Section MatcherLemmas.
Context {R : Type}.
Implicit Types (k : jsstring -> list jsstring -> option R).

Lemma run_Lit (l s : jsstring) caps k :
  run (Lit l) s caps k =
  match stripPrefix l s with
  | Some s' => k s' caps
  | None => None
  end.
Proof.
  revert s. induction l as [|c l IH]; intros s; simpl; [reflexivity|].
  destruct s as [|d s]; [reflexivity|].
  destruct (char16_eqb c d); [apply IH | reflexivity].
Qed.

(** When the continuation cannot start with a character of the class,
    backtracking into a greedy run never succeeds: the run is the longest
    one. *)
Lemma star_longest (p : char16 -> bool) (k1 : jsstring -> option R) s :
  (forall c t, p c = true -> k1 (c :: t) = None) ->
  star p k1 s = k1 (dropWhile p s).
Proof.
  intros Hk. induction s as [|c s IH]; simpl; [reflexivity|].
  destruct (p c) eqn:E; [|reflexivity].
  rewrite IH. destruct (k1 (dropWhile p s)); [reflexivity|].
  now apply Hk.
Qed.

Lemma run_Star_longest (p : char16 -> bool) s caps k :
  (forall c t, p c = true -> k (c :: t) caps = None) ->
  run (Star p) s caps k = k (dropWhile p s) caps.
Proof. intros Hk. simpl. now rewrite star_longest. Qed.

Lemma run_Plus_longest (p : char16 -> bool) s caps k :
  (forall c t, p c = true -> k (c :: t) caps = None) ->
  run (Plus p) s caps k =
  match takeWhile p s with
  | [] => None
  | _ :: _ => k (dropWhile p s) caps
  end.
Proof.
  intros Hk. destruct s as [|c s]; simpl; [reflexivity|].
  destruct (p c); [|reflexivity]. now rewrite star_longest.
Qed.

Lemma run_Cat (r1 r2 : regex) s caps k :
  run (Cat r1 r2) s caps k =
  run r1 s caps (fun s' caps' => run r2 s' caps' k).
Proof. reflexivity. Qed.

Lemma run_Group (r : regex) s caps k :
  run (Group r) s caps k =
  run r s caps
      (fun s' caps' =>
         k s' (caps' ++ [firstn (List.length s - List.length s') s])).
Proof. reflexivity. Qed.

Lemma run_Group_Plus (p : char16 -> bool) s caps k :
  (forall c t caps', p c = true -> k (c :: t) caps' = None) ->
  run (Group (Plus p)) s caps k =
  match takeWhile p s with
  | [] => None
  | _ :: _ => k (dropWhile p s) (caps ++ [takeWhile p s])
  end.
Proof.
  intros Hk. rewrite run_Group, run_Plus_longest.
  - now rewrite firstn_dropWhile.
  - intros c t Hc. now apply Hk.
Qed.

(** An expression that starts with a number run fails on white space, one
    that starts with a white-space run fails on a number character, and
    the closing part fails on a number character. *)
Lemma number_first_rejects (r : regex) c t caps k :
  isWhiteSpace c = true ->
  run (Cat (Group (Plus isDigitOrDot)) r) (c :: t) caps k = None.
Proof. intros H. cbn [run]. now rewrite (space_not_number c H). Qed.

Lemma space_first_rejects (r : regex) c t caps k :
  isDigitOrDot c = true ->
  run (Cat (Plus isWhiteSpace) r) (c :: t) caps k = None.
Proof. intros H. cbn [run]. now rewrite (number_not_space c H). Qed.

Lemma closing_rejects c t caps k :
  isDigitOrDot c = true ->
  run (Cat (Star isWhiteSpace) (Lit (js ")"))) (c :: t) caps k = None.
Proof.
  intros H. cbn [run star]. rewrite (number_not_space c H).
  cbn [js Lit run]. unfold char16_eqb.
  apply number_bounds in H.
  destruct (N.eqb_spec (N_of_ascii ")") c) as [E|E]; [|reflexivity].
  simpl in E. lia.
Qed.

Lemma paren_rejects c t caps k :
  isWhiteSpace c = true -> run (Lit (js ")")) (c :: t) caps k = None.
Proof.
  intros H. cbn [js Lit run]. apply space_not_paren in H.
  simpl N_of_ascii. now rewrite H.
Qed.

End MatcherLemmas.

(** The backtracking matcher and the scan agree on every input. *)
Lemma matchHere_scan (s : jsstring) : matchHere oklchRegex s = scanHere s.
Proof.
  unfold matchHere, scanHere, oklchRegex.
  rewrite run_Cat, run_Lit.
  destruct (stripPrefix (js "oklch(") s) as [s1|]; [|reflexivity].
  rewrite run_Cat, run_Star_longest
    by (intros; now apply number_first_rejects).
  set (s2 := dropWhile isWhiteSpace s1).
  rewrite run_Cat, run_Group_Plus
    by (intros; now apply space_first_rejects).
  destruct (takeWhile isDigitOrDot s2) as [|? ?]; [reflexivity|].
  set (s3 := dropWhile isDigitOrDot s2).
  rewrite run_Cat, run_Plus_longest
    by (intros; now apply number_first_rejects).
  destruct (takeWhile isWhiteSpace s3) as [|? ?]; [reflexivity|].
  set (s4 := dropWhile isWhiteSpace s3).
  rewrite run_Cat, run_Group_Plus
    by (intros; now apply space_first_rejects).
  destruct (takeWhile isDigitOrDot s4) as [|? ?]; [reflexivity|].
  set (s5 := dropWhile isDigitOrDot s4).
  rewrite run_Cat, run_Plus_longest
    by (intros; now apply number_first_rejects).
  destruct (takeWhile isWhiteSpace s5) as [|? ?]; [reflexivity|].
  set (s6 := dropWhile isWhiteSpace s5).
  rewrite run_Cat, run_Group_Plus
    by (intros; now apply closing_rejects).
  destruct (takeWhile isDigitOrDot s6) as [|? ?]; [reflexivity|].
  set (s7 := dropWhile isDigitOrDot s6).
  rewrite run_Cat, run_Star_longest
    by (intros; now apply paren_rejects).
  rewrite run_Lit.
  destruct (stripPrefix (js ")") (dropWhile isWhiteSpace s7)); reflexivity.
Qed.

(* ================================================================== *)
(** ** The texts the expression matches *)

Lemma stops_number_run (a r : jsstring) :
  numberRun a -> stops isWhiteSpace (a ++ r).
Proof.
  intros [Hne Ha]. destruct a as [|a0 a]; [contradiction|].
  simpl in *. apply andb_prop in Ha as [Ha _]. now apply number_not_space.
Qed.

Lemma stops_spaces (w r : jsstring) :
  spaces w -> w <> [] -> stops isDigitOrDot (w ++ r).
Proof.
  intros Hw Hne. destruct w as [|w0 w]; [contradiction|].
  unfold spaces in Hw. simpl in *. apply andb_prop in Hw as [Hw _].
  now apply space_not_number.
Qed.

Lemma scanHere_complete (t a b c post : jsstring) :
  shaped t a b c -> scanHere (t ++ post) = Some [t; a; b; c].
Proof.
  intros (w0 & w1 & w2 & w3 & -> & H0 & [H1 N1] & [H2 N2] & H3 & Ha & Hb & Hc).
  assert (Pa := proj2 Ha). assert (Pb := proj2 Hb). assert (Pc := proj2 Hc).
  unfold scanHere, oklchText.
  repeat rewrite <- app_assoc. rewrite stripPrefix_app.
  rewrite (dropWhile_app _ w0) by (auto using stops_number_run).
  rewrite (takeWhile_app _ a), (dropWhile_app _ a)
    by (auto using stops_spaces).
  rewrite (takeWhile_app _ w1), (dropWhile_app _ w1)
    by (auto using stops_number_run).
  rewrite (takeWhile_app _ b), (dropWhile_app _ b)
    by (auto using stops_spaces).
  rewrite (takeWhile_app _ w2), (dropWhile_app _ w2)
    by (auto using stops_number_run).
  assert (Hstop : stops isDigitOrDot (w3 ++ js ")" ++ post)).
  { destruct w3 as [|d w3]; [reflexivity|].
    unfold spaces in H3. simpl in *. apply andb_prop in H3 as [H3 _].
    now apply space_not_number. }
  rewrite (takeWhile_app _ c), (dropWhile_app _ c) by assumption.
  rewrite (dropWhile_app _ w3) by (assumption || reflexivity).
  rewrite stripPrefix_app.
  destruct a as [|? ?]; [now destruct Ha|].
  destruct w1 as [|? ?]; [contradiction|].
  destruct b as [|? ?]; [now destruct Hb|].
  destruct w2 as [|? ?]; [contradiction|].
  destruct c as [|? ?]; [now destruct Hc|].
  do 2 f_equal.
  repeat rewrite app_assoc. apply firstn_suffix.
Qed.

Lemma scanHere_sound (s : jsstring) (m : list jsstring) :
  scanHere s = Some m ->
  exists t a b c post, s = t ++ post /\ shaped t a b c /\ m = [t; a; b; c].
Proof.
  unfold scanHere.
  destruct (stripPrefix (js "oklch(") s) as [s1|] eqn:E1; [|discriminate].
  apply stripPrefix_inv in E1.
  set (s2 := dropWhile isWhiteSpace s1).
  set (s3 := dropWhile isDigitOrDot s2).
  set (s4 := dropWhile isWhiteSpace s3).
  set (s5 := dropWhile isDigitOrDot s4).
  set (s6 := dropWhile isWhiteSpace s5).
  set (s7 := dropWhile isDigitOrDot s6).
  set (s8 := dropWhile isWhiteSpace s7).
  destruct (takeWhile isDigitOrDot s2) as [|a0 a] eqn:Ea; [discriminate|].
  destruct (takeWhile isWhiteSpace s3) as [|x0 w1] eqn:Ew1; [discriminate|].
  destruct (takeWhile isDigitOrDot s4) as [|b0 b] eqn:Eb; [discriminate|].
  destruct (takeWhile isWhiteSpace s5) as [|y0 w2] eqn:Ew2; [discriminate|].
  destruct (takeWhile isDigitOrDot s6) as [|c0 c] eqn:Ec; [discriminate|].
  destruct (stripPrefix (js ")") s8) as [rest|] eqn:E8; [|discriminate].
  apply stripPrefix_inv in E8.
  intros H. inversion H as [Hm]. clear H.
  assert (Hs : s = oklchText (takeWhile isWhiteSpace s1) (a0 :: a) (x0 :: w1)
                             (b0 :: b) (y0 :: w2) (c0 :: c)
                             (takeWhile isWhiteSpace s7) ++ rest).
  { unfold oklchText. repeat rewrite <- app_assoc.
    rewrite <- E8. fold s8.
    rewrite <- Ec, <- Ew2, <- Eb, <- Ew1, <- Ea.
    unfold s8. rewrite takeWhile_dropWhile.
    unfold s7. rewrite takeWhile_dropWhile.
    unfold s6. rewrite takeWhile_dropWhile.
    unfold s5. rewrite takeWhile_dropWhile.
    unfold s4. rewrite takeWhile_dropWhile.
    unfold s3. rewrite takeWhile_dropWhile.
    unfold s2. rewrite takeWhile_dropWhile.
    exact E1. }
  eexists _, (a0 :: a), (b0 :: b), (c0 :: c), rest.
  split; [exact Hs|]. split.
  - exists (takeWhile isWhiteSpace s1), (x0 :: w1), (y0 :: w2),
      (takeWhile isWhiteSpace s7).
    split; [reflexivity|].
    unfold spaces, numberRun.
    rewrite <- Ea, <- Ew1, <- Eb, <- Ew2, <- Ec.
    repeat rewrite takeWhile_all.
    rewrite Ea, Ew1, Eb, Ew2, Ec.
    repeat split; try reflexivity; discriminate.
  - rewrite Hs at 1 2. now rewrite firstn_suffix.
Qed.

(** The search: the leftmost position at which the scan succeeds. *)
Lemma exec_scan (s : jsstring) :
  exec oklchRegex s =
  match scanHere s with
  | Some m => Some m
  | None => match s with _ :: s' => exec oklchRegex s' | [] => None end
  end.
Proof. destruct s; cbn [exec]; now rewrite matchHere_scan. Qed.

Lemma exec_here (t a b c post : jsstring) :
  shaped t a b c -> exec oklchRegex (t ++ post) = Some [t; a; b; c].
Proof. intros H. rewrite exec_scan. now rewrite (scanHere_complete _ _ _ _ _ H). Qed.

Lemma exec_complete (s : jsstring) :
  containsOklch s -> exists m, exec oklchRegex s = Some m.
Proof.
  intros (pre & t & post & a & b & c & -> & H).
  induction pre as [|d pre IH].
  - simpl. rewrite (exec_here _ _ _ _ _ H). eauto.
  - rewrite exec_scan. destruct (scanHere ((d :: pre) ++ t ++ post)); eauto.
Qed.

Lemma exec_sound (s : jsstring) (m : list jsstring) :
  exec oklchRegex s = Some m ->
  exists pre t post a b c,
    s = pre ++ t ++ post /\ shaped t a b c /\ m = [t; a; b; c].
Proof.
  induction s as [|d s IH]; rewrite exec_scan.
  - destruct (scanHere []) eqn:E; [|discriminate].
    intros H. inversion H. subst.
    apply scanHere_sound in E as (t & a & b & c & post & E & Hs & Hm).
    exists [], t, post, a, b, c. auto.
  - destruct (scanHere (d :: s)) eqn:E.
    + intros H. inversion H. subst.
      apply scanHere_sound in E as (t & a & b & c & post & E & Hs & Hm).
      exists [], t, post, a, b, c. auto.
    + intros H. apply IH in H as (pre & t & post & a & b & c & E' & Hs & Hm).
      exists (d :: pre), t, post, a, b, c. subst s. auto.
Qed.

Lemma exec_none_iff (s : jsstring) :
  exec oklchRegex s = None <-> ~ containsOklch s.
Proof.
  split.
  - intros E H. apply exec_complete in H as [m H]. congruence.
  - intros H. destruct (exec oklchRegex s) as [m|] eqn:E; [|reflexivity].
    exfalso. apply H.
    apply exec_sound in E as (pre & t & post & a & b & c & E & Hs & _).
    now exists pre, t, post, a, b, c.
Qed.

(* ================================================================== *)
(** ** Trimming *)

Lemma forallb_rev {A} (p : A -> bool) (l : list A) :
  forallb p (rev l) = forallb p l.
Proof.
  induction l as [|x l IH]; simpl; [reflexivity|].
  rewrite forallb_app, IH. simpl. rewrite andb_true_r. apply andb_comm.
Qed.


(** Trimming keeps every part that starts and ends with other characters. *)
Lemma trim_keeps (pre post u : jsstring) (x y : char16) :
  isWhiteSpace x = false -> isWhiteSpace y = false ->
  exists pre' post',
    trim (pre ++ (x :: u ++ [y]) ++ post) = pre' ++ (x :: u ++ [y]) ++ post'.
Proof.
  intros Hx Hy. unfold trim, trimStart, trimEnd.
  destruct (dropWhile_keeps isWhiteSpace pre x ((u ++ [y]) ++ post) Hx)
    as [pre' E].
  change ((x :: u ++ [y]) ++ post) with (x :: (u ++ [y]) ++ post).
  rewrite E.
  replace (pre' ++ x :: (u ++ [y]) ++ post)
    with ((pre' ++ x :: u) ++ y :: post)
    by (repeat (rewrite <- app_assoc; simpl); reflexivity).
  rewrite rev_app_distr. simpl rev at 1. rewrite <- app_assoc. simpl.
  destruct (dropWhile_keeps isWhiteSpace (rev post) y (rev (pre' ++ x :: u)) Hy)
    as [post' E'].
  rewrite E'. exists pre', (rev post').
  rewrite rev_app_distr. simpl. rewrite rev_involutive.
  repeat (rewrite <- app_assoc; simpl). reflexivity.
Qed.

(** A shaped text starts with [o] and ends with [)]. *)
Lemma shaped_ends (t a b c : jsstring) :
  shaped t a b c -> exists u, t = 111%N :: u ++ [41%N].
Proof.
  intros (w0 & w1 & w2 & w3 & -> & _). unfold oklchText.
  exists (js "klch(" ++ w0 ++ a ++ w1 ++ b ++ w2 ++ c ++ w3).
  simpl. repeat rewrite <- app_assoc. reflexivity.
Qed.


Lemma trim_contains (s : jsstring) : containsOklch s -> containsOklch (trim s).
Proof.
  intros (pre & t & post & a & b & c & -> & H).
  destruct (shaped_ends _ _ _ _ H) as [u E]. subst t.
  destruct (trim_keeps pre post u 111%N 41%N eq_refl eq_refl)
    as (pre' & post' & E).
  rewrite E. now exists pre', (111%N :: u ++ [41%N]), post', a, b, c.
Qed.

(* ================================================================== *)
(** ** The two paths of the function *)

Lemma toFixed_4 (x : number) : toFixed x 4 = Normal (fixed4 x).
Proof. reflexivity. Qed.

Lemma adjust_null look name (p : argument) :
  String_match (trim (look name)) oklchRegex = None ->
  adjustOklchLightness look name p = (Normal None, [diagnostic name]).
Proof. intros H. unfold adjustOklchLightness. now rewrite H. Qed.

Lemma adjust_match look name (p : jsvalue) t a b c :
  String_match (trim (look name)) oklchRegex = Some [t; a; b; c] ->
  adjustOklchLightness look name p =
  (Normal (Some (formatOklch
                   (adjustLightness (parseFloat (JString a)) (parseFloat p))
                   (parseFloat (JString b)) (parseFloat (JString c)))), []).
Proof. intros H. unfold adjustOklchLightness. now rewrite H. Qed.

(** Every match array has the matched text and three captures. *)
Lemma match_array (s : jsstring) (m : list jsstring) :
  String_match s oklchRegex = Some m ->
  exists t a b c,
    m = [t; a; b; c] /\ numberRun a /\ numberRun b /\ numberRun c.
Proof.
  intros H. apply exec_sound in H as (pre & t & post & a & b & c & _ & Hs & ->).
  destruct Hs as (w0 & w1 & w2 & w3 & _ & _ & _ & _ & _ & Ha & Hb & Hc).
  now exists t, a, b, c.
Qed.

(* ================================================================== *)
(** ** [parseFloat] on the captured runs *)

Lemma binary_round_aux_sign (s : bool) (m e : Z) (l : location) :
  signOf (binary_round_aux prec emax s m e l) = None \/
  signOf (binary_round_aux prec emax s m e l) = Some s.
Proof.
  unfold binary_round_aux.
  destruct (shr_fexp prec emax m e l) as [mrs' e'].
  destruct (shr_fexp prec emax _ e' loc_Exact) as [mrs'' e''].
  destruct (shr_m mrs''); [now right | | now left].
  destruct (Z.leb _ _); now right.
Qed.

Lemma ofDecimal_sign (s : bool) (m e10 : Z) :
  signOf (ofDecimal s m e10) = None \/ signOf (ofDecimal s m e10) = Some s.
Proof.
  unfold ofDecimal. destruct m; simpl; auto.
  unfold div, SFdiv.
  destruct (SFdiv_core_binary prec emax _ _ _ _) as [[mz ez] lz].
  replace (xorb s false) with s by (now destruct s).
  apply binary_round_aux_sign.
Qed.

Lemma parseUnsigned_sign (s : bool) (u : jsstring) :
  signOf (parseUnsigned s u) = None \/ signOf (parseUnsigned s u) = Some s.
Proof.
  unfold parseUnsigned.
  destruct (match dropWhile isDigit u with
            | [] => ([], dropWhile isDigit u)
            | c :: r =>
                if (c =? 46)%N
                then (takeWhile isDigit r, dropWhile isDigit r)
                else ([], dropWhile isDigit u)
            end) as [fp r2].
  destruct (takeWhile isDigit u ++ fp); [now left|].
  apply ofDecimal_sign.
Qed.

(** A captured run has no leading white space, no sign and is not
    [Infinity]: [parseFloat] reads it as an unsigned decimal literal. *)
Lemma parseFloat_run (a : jsstring) :
  numberRun a -> parseFloat (JString a) = parseUnsigned false a.
Proof.
  intros [Hne Ha]. destruct a as [|c a]; [contradiction|].
  simpl in Ha. apply andb_prop in Ha as [Hc _].
  unfold parseFloat, ToString, parseFloat_string, trimStart.
  cbn [dropWhile]. rewrite (number_not_space c Hc).
  apply number_bounds in Hc.
  destruct (N.eqb_spec c 43); [lia|].
  destruct (N.eqb_spec c 45); [lia|].
  cbn [js stripPrefix]. unfold char16_eqb.
  destruct (N.eqb_spec (N_of_ascii "I") c) as [E|E]; [simpl in E; lia|].
  reflexivity.
Qed.

(** The numbers of a parsed sample carry no minus sign. *)
Lemma parseFloat_run_sign (a : jsstring) :
  numberRun a ->
  signOf (parseFloat (JString a)) = None \/
  signOf (parseFloat (JString a)) = Some false.
Proof. intros H. rewrite (parseFloat_run a H). apply parseUnsigned_sign. Qed.

Lemma takeWhile_id (p : char16 -> bool) (s : jsstring) :
  forallb p s = true -> takeWhile p s = s.
Proof.
  intros H. rewrite <- (app_nil_r s) at 1. now apply takeWhile_app.
Qed.

Lemma dropWhile_id (p : char16 -> bool) (s : jsstring) :
  forallb p s = true -> dropWhile p s = [].
Proof.
  intros H. rewrite <- (app_nil_r s) at 1. now apply dropWhile_app.
Qed.

Lemma digits_number (s : jsstring) :
  digits s -> forallb isDigitOrDot s = true.
Proof.
  unfold digits. induction s as [|c s IH]; simpl; [reflexivity|].
  intros H. apply andb_prop in H as [Hc Hs].
  now rewrite (digit_is_number c Hc), IH.
Qed.

Lemma decimalNumber_run (a : jsstring) (x : number) :
  decimalNumber a x -> numberRun a.
Proof.
  intros [ip Hne Hip | ip fp Hne Hip Hfp]; split.
  - assumption.
  - now apply digits_number.
  - destruct ip; discriminate.
  - rewrite !forallb_app, (digits_number ip Hip), (digits_number fp Hfp).
    reflexivity.
Qed.

(** [parseFloat] reads the whole of a decimal number and yields the Number
    it denotes. *)
Lemma parseFloat_decimal (a : jsstring) (x : number) :
  decimalNumber a x -> parseFloat (JString a) = x.
Proof.
  intros H. rewrite (parseFloat_run a (decimalNumber_run a x H)).
  destruct H as [ip Hne Hip | ip fp Hne Hip Hfp]; unfold parseUnsigned.
  - rewrite (takeWhile_id _ ip Hip), (dropWhile_id _ ip Hip).
    rewrite app_nil_r. destruct ip; [contradiction|]. reflexivity.
  - rewrite (takeWhile_app _ ip), (dropWhile_app _ ip)
      by (assumption || reflexivity).
    cbn [js app]. change (N_of_ascii "." =? 46)%N with true. cbn iota.
    rewrite (takeWhile_id _ fp Hfp), (dropWhile_id _ fp Hfp).
    destruct (ip ++ fp) eqn:E; [contradiction|].
    cbn [exponentPart]. reflexivity.
Qed.

(* ================================================================== *)
(** ** Binary64 rounding *)

(** ** Binary digits *)

Lemma digits2_pos_bounds (p : positive) :
  2 ^ (Zpos (digits2_pos p) - 1) <= Zpos p < 2 ^ Zpos (digits2_pos p).
Proof.
  induction p as [p IH|p IH|]; cbn [digits2_pos];
    rewrite ?Pos2Z.inj_succ.
  - replace (Z.succ (Zpos (digits2_pos p)) - 1) with (Z.succ (Zpos (digits2_pos p) - 1)) by lia.
    rewrite !Z.pow_succ_r by lia. lia.
  - replace (Z.succ (Zpos (digits2_pos p)) - 1) with (Z.succ (Zpos (digits2_pos p) - 1)) by lia.
    rewrite !Z.pow_succ_r by lia. lia.
  - simpl. lia.
Qed.

Lemma Zdigits2_nonneg (m : Z) : 0 <= Zdigits2 m.
Proof. destruct m; simpl; lia. Qed.

Lemma Zdigits2_bounds (m : Z) :
  0 < m -> 2 ^ (Zdigits2 m - 1) <= m < 2 ^ Zdigits2 m.
Proof. destruct m; try lia. intros _. apply digits2_pos_bounds. Qed.

Lemma Zdigits2_pos (m : Z) : 0 < m -> 0 < Zdigits2 m.
Proof. destruct m; simpl; lia. Qed.

(** Fewer than [2^k]: at most [k] digits; at least [2^k]: more than [k]. *)
Lemma Zdigits2_le (m k : Z) : 0 <= k -> 0 <= m < 2 ^ k -> Zdigits2 m <= k.
Proof.
  intros Hk [H0 H]. destruct (Z.eq_dec m 0) as [->|N]; [simpl; lia|].
  assert (B := Zdigits2_bounds m ltac:(lia)).
  destruct (Z_le_gt_dec (Zdigits2 m) k) as [L|G]; [exact L|].
  assert (2 ^ k <= 2 ^ (Zdigits2 m - 1)) by (apply Z.pow_le_mono_r; lia).
  lia.
Qed.

Lemma Zdigits2_gt (m k : Z) : 0 <= k -> 2 ^ k <= m -> k < Zdigits2 m.
Proof.
  intros Hk H.
  assert (0 < 2 ^ k) by (apply Z.pow_pos_nonneg; lia).
  assert (B := Zdigits2_bounds m ltac:(lia)).
  destruct (Z_lt_le_dec k (Zdigits2 m)) as [L|G]; [exact L|].
  assert (2 ^ Zdigits2 m <= 2 ^ k) by (apply Z.pow_le_mono_r; lia).
  lia.
Qed.

Lemma Zdigits2_mono (a b : Z) : 0 <= a <= b -> Zdigits2 a <= Zdigits2 b.
Proof.
  intros [Ha Hab]. destruct (Z.eq_dec b 0) as [->|N].
  - replace a with 0 by lia. lia.
  - apply Zdigits2_le; [apply Zdigits2_nonneg|].
    assert (B := Zdigits2_bounds b ltac:(lia)). lia.
Qed.

Lemma Zdigits2_unique (m d : Z) :
  0 < d -> 2 ^ (d - 1) <= m < 2 ^ d -> Zdigits2 m = d.
Proof.
  intros Hd [H1 H2].
  assert (0 < 2 ^ (d - 1)) by (apply Z.pow_pos_nonneg; lia).
  assert (Zdigits2 m <= d) by (apply Zdigits2_le; lia).
  assert (d - 1 < Zdigits2 m) by (apply Zdigits2_gt; lia).
  lia.
Qed.

Lemma Zdigits2_mul_pow (m n : Z) :
  0 < m -> 0 <= n -> Zdigits2 (m * 2 ^ n) = Zdigits2 m + n.
Proof.
  intros Hm Hn. assert (B := Zdigits2_bounds m Hm).
  assert (P := Zdigits2_pos m Hm).
  apply Zdigits2_unique; [lia|].
  replace (Zdigits2 m + n - 1) with ((Zdigits2 m - 1) + n) by lia.
  rewrite !Z.pow_add_r by lia.
  assert (0 < 2 ^ n) by (apply Z.pow_pos_nonneg; lia).
  nia.
Qed.

Lemma Zdigits2_div_pow (m n : Z) :
  0 <= m -> 0 <= n -> Zdigits2 (m / 2 ^ n) = Z.max 0 (Zdigits2 m - n).
Proof.
  intros Hm Hn.
  assert (P2 : 0 < 2 ^ n) by (apply Z.pow_pos_nonneg; lia).
  destruct (Z.eq_dec m 0) as [->|N].
  { rewrite Z.div_0_l by lia. simpl. lia. }
  assert (B := Zdigits2_bounds m ltac:(lia)).
  assert (P := Zdigits2_pos m ltac:(lia)).
  destruct (Z_lt_le_dec n (Zdigits2 m)) as [L|G].
  - rewrite Z.max_r by lia. apply Zdigits2_unique; [lia|].
    split.
    + apply Z.div_le_lower_bound; [lia|].
      rewrite <- Z.pow_add_r by lia.
      replace (n + (Zdigits2 m - n - 1)) with (Zdigits2 m - 1) by lia. lia.
    + apply Z.div_lt_upper_bound; [lia|].
      rewrite <- Z.pow_add_r by lia.
      replace (n + (Zdigits2 m - n)) with (Zdigits2 m) by lia. lia.
  - rewrite Z.max_l by lia.
    rewrite Z.div_small; [reflexivity|].
    assert (2 ^ Zdigits2 m <= 2 ^ n) by (apply Z.pow_le_mono_r; lia). lia.
Qed.

Lemma Zdigits2_succ (m : Z) : 0 <= m -> Zdigits2 (m + 1) <= Zdigits2 m + 1.
Proof.
  intros Hm. destruct (Z.eq_dec m 0) as [->|N]; [simpl; lia|].
  assert (B := Zdigits2_bounds m ltac:(lia)).
  assert (P := Zdigits2_pos m ltac:(lia)).
  apply Zdigits2_le; [lia|].
  rewrite Z.pow_add_r by lia. simpl (2 ^ 1). lia.
Qed.

(** ** Shifting right *)

Lemma shr_1_m (mrs : shr_record) :
  0 <= shr_m mrs -> shr_m (shr_1 mrs) = shr_m mrs / 2.
Proof.
  destruct mrs as [m r s]. cbn [shr_m]. intros Hm.
  destruct m as [|p|p]; [reflexivity| |lia].
  destruct p as [p|p|]; cbn [shr_1 shr_m].
  - apply (Z.div_unique _ _ _ 1); lia.
  - apply (Z.div_unique _ _ _ 0); lia.
  - reflexivity.
Qed.

Lemma iter_pos_shr (n : positive) (mrs : shr_record) :
  0 <= shr_m mrs ->
  shr_m (iter_pos shr_1 n mrs) = shr_m mrs / 2 ^ Zpos n.
Proof.
  revert mrs. induction n as [n IH|n IH|]; intros mrs Hm; cbn [iter_pos].
  - assert (H1 : 0 <= shr_m (shr_1 mrs))
      by (rewrite shr_1_m by lia; apply Z.div_pos; lia).
    assert (P : 0 < 2 ^ Zpos n) by (apply Z.pow_pos_nonneg; lia).
    assert (H2 : 0 <= shr_m (iter_pos shr_1 n (shr_1 mrs)))
      by (rewrite IH by lia; apply Z.div_pos; lia).
    rewrite IH, IH, shr_1_m by lia.
    rewrite !Z.div_div by lia. f_equal.
    rewrite Pos2Z.inj_xI, Z.pow_add_r, Z.pow_mul_r by lia.
    change (2 ^ 2) with 4. change (2 ^ 1) with 2.
    replace (4 ^ Zpos n) with (2 ^ Zpos n * 2 ^ Zpos n); [lia|].
    rewrite <- Z.pow_add_r by lia. replace (Zpos n + Zpos n) with (2 * Zpos n) by lia.
    now rewrite Z.pow_mul_r by lia.
  - assert (P : 0 < 2 ^ Zpos n) by (apply Z.pow_pos_nonneg; lia).
    assert (H2 : 0 <= shr_m (iter_pos shr_1 n mrs))
      by (rewrite IH by lia; apply Z.div_pos; lia).
    rewrite IH, IH by lia.
    rewrite !Z.div_div by lia. f_equal.
    rewrite Pos2Z.inj_xO. rewrite <- Z.pow_add_r by lia. f_equal. lia.
  - rewrite shr_1_m by lia. reflexivity.
Qed.

Lemma shr_spec (mrs : shr_record) (e n : Z) :
  0 <= shr_m mrs ->
  shr_m (fst (shr mrs e n)) = shr_m mrs / 2 ^ Z.max 0 n /\
  snd (shr mrs e n) = e + Z.max 0 n.
Proof.
  intros Hm. destruct n as [|p|p]; cbn [shr fst snd].
  - rewrite Z.max_l by lia. simpl. rewrite Z.div_1_r. lia.
  - rewrite Z.max_r by lia. now rewrite iter_pos_shr.
  - rewrite Z.max_l by lia. simpl. rewrite Z.div_1_r. lia.
Qed.

Lemma shr_record_of_loc_m (m : Z) (l : location) :
  shr_m (shr_record_of_loc m l) = m.
Proof. destruct l as [|[ | | ]]; reflexivity. Qed.

Lemma round_nearest_even_cases (m : Z) (l : location) :
  round_nearest_even m l = m \/ round_nearest_even m l = m + 1.
Proof.
  destruct l as [|[ | | ]]; simpl; auto. destruct (Z.even m); auto.
Qed.

(** ** The rounding step *)

Lemma fexp_64 (e : Z) : fexp prec emax e = fexp64 e.
Proof. reflexivity. Qed.

(** [binary_round_aux] on a natural significand: a shift to the exponent of
    the format, a step up or not, and a second shift. *)
Lemma binary_round_aux_spec (s : bool) (m e : Z) (l : location) :
  0 <= m ->
  exists n1 m2 n2,
    n1 = Z.max 0 (fexp64 (Zdigits2 m + e) - e) /\
    (m2 = m / 2 ^ n1 \/ m2 = m / 2 ^ n1 + 1) /\
    n2 = Z.max 0 (fexp64 (Zdigits2 m2 + (e + n1)) - (e + n1)) /\
    binary_round_aux prec emax s m e l = mkFloat s (m2 / 2 ^ n2) (e + n1 + n2).
Proof.
  intros Hm. unfold binary_round_aux, shr_fexp.
  change (fexp prec emax) with fexp64.
  set (n1 := fexp64 (Zdigits2 m + e) - e).
  destruct (shr_spec (shr_record_of_loc m l) e n1) as [M1 E1];
    [rewrite shr_record_of_loc_m; lia|].
  rewrite shr_record_of_loc_m in M1.
  destruct (shr (shr_record_of_loc m l) e n1) as [mrs' e'].
  cbn [fst snd] in M1, E1.
  set (m2 := round_nearest_even (shr_m mrs') (loc_of_shr_record mrs')).
  assert (P1 : 0 < 2 ^ Z.max 0 n1) by (apply Z.pow_pos_nonneg; lia).
  assert (H1 : 0 <= shr_m mrs') by (rewrite M1; apply Z.div_pos; lia).
  assert (C2 : m2 = shr_m mrs' \/ m2 = shr_m mrs' + 1)
    by apply round_nearest_even_cases.
  set (n2 := fexp64 (Zdigits2 m2 + e') - e').
  destruct (shr_spec (shr_record_of_loc m2 loc_Exact) e' n2) as [M2 E2];
    [rewrite shr_record_of_loc_m; lia|].
  rewrite shr_record_of_loc_m in M2.
  destruct (shr (shr_record_of_loc m2 loc_Exact) e' n2) as [mrs'' e''].
  cbn [fst snd] in M2, E2.
  exists (Z.max 0 n1), m2, (Z.max 0 n2).
  split; [reflexivity|]. split; [rewrite <- M1; exact C2|].
  split; [unfold n2; now rewrite E1|].
  rewrite M2, E2, E1. reflexivity.
Qed.

Lemma fexp64_mono (a b : Z) : a <= b -> fexp64 a <= fexp64 b.
Proof. unfold fexp64. lia. Qed.

Lemma fexp64_ge (a : Z) : -1074 <= fexp64 a.
Proof. unfold fexp64. lia. Qed.

Lemma pow2_pos (n : Z) : 0 <= n -> 0 < 2 ^ n.
Proof. intros. apply Z.pow_pos_nonneg; lia. Qed.

Lemma pow2_split (a b : Z) : 0 <= a -> 0 <= b -> 2 ^ (a + b) = 2 ^ a * 2 ^ b.
Proof. intros. now rewrite Z.pow_add_r. Qed.

Lemma mkFloat_not_nan (s : bool) (m e : Z) : 0 <= m -> isNaN (mkFloat s m e) = false.
Proof.
  intros H. destruct m; [reflexivity | | lia].
  simpl. now destruct (e <=? 971).
Qed.

Lemma binary_round_aux_wf (s : bool) (m e : Z) (l : location) :
  0 <= m ->
  isNaN (binary_round_aux prec emax s m e l) = false /\
  wellFormed (binary_round_aux prec emax s m e l).
Proof.
  intros Hm.
  destruct (binary_round_aux_spec s m e l Hm)
    as (n1 & m2 & n2 & E1 & C2 & E2 & ->).
  assert (P1 : 0 < 2 ^ n1) by (apply pow2_pos; lia).
  assert (P2 : 0 < 2 ^ n2) by (apply pow2_pos; lia).
  assert (H1 : 0 <= m / 2 ^ n1) by (apply Z.div_pos; lia).
  assert (H2 : 0 <= m2) by lia.
  assert (H3 : 0 <= m2 / 2 ^ n2) by (apply Z.div_pos; lia).
  split; [now apply mkFloat_not_nan|].
  assert (D := Zdigits2_div_pow m2 n2 H2 ltac:(lia)).
  destruct (m2 / 2 ^ n2) as [|p|p] eqn:E3; simpl; try exact I.
  destruct (Z.leb_spec (e + n1 + n2) 971); simpl; [|exact I].
  assert (G := fexp64_ge (Zdigits2 m2 + (e + n1))).
  unfold fexp64 in *.
  change (Zdigits2 (Z.pos p)) with (Z.pos (digits2_pos p)) in D.
  lia.
Qed.

(** Under the precondition of the rounding step (the exponent is not above
    the one of the format) the result is a valid binary64 value. *)
Lemma binary_round_aux_valid (s : bool) (m e : Z) (l : location) :
  0 <= m -> e <= fexp64 (Zdigits2 m + e) ->
  valid_binary prec emax (binary_round_aux prec emax s m e l) = true.
Proof.
  intros Hm Hpre.
  destruct (binary_round_aux_spec s m e l Hm)
    as (n1 & m2 & n2 & E1 & C2 & E2 & ->).
  assert (P1 : 0 < 2 ^ n1) by (apply pow2_pos; lia).
  assert (P2 : 0 < 2 ^ n2) by (apply pow2_pos; lia).
  assert (H1 : 0 <= m / 2 ^ n1) by (apply Z.div_pos; lia).
  assert (H2 : 0 <= m2) by lia.
  assert (D1 := Zdigits2_div_pow m n1 Hm ltac:(lia)).
  assert (D2 := Zdigits2_div_pow m2 n2 H2 ltac:(lia)).
  destruct (m2 / 2 ^ n2) as [|p|p] eqn:E3; simpl; try reflexivity.
  destruct (Z.leb_spec (e + n1 + n2) 971) as [B|B]; simpl; [|reflexivity].
  unfold bounded, canonical_mantissa.
  change (fexp prec emax) with fexp64. change (emax - prec) with 971.
  apply andb_true_intro. split; [|now apply Z.leb_le].
  apply Z.eqb_eq.
  change (Zdigits2 (Z.pos p)) with (Z.pos (digits2_pos p)) in D2.
  (* the exponent after the first shift is the one of the format for m2 *)
  assert (F : e + n1 <= fexp64 (Zdigits2 m2 + (e + n1))).
  { destruct (Z.eq_dec (m / 2 ^ n1) 0) as [Z1|N1].
    - (* everything was shifted out *)
      assert (m2 = 1) by (destruct C2; [rewrite Z1 in *; subst; simpl in E3; discriminate | lia]).
      subst m2.
      assert (Zdigits2 m <= n1).
      { rewrite Z1 in D1. simpl in D1. lia. }
      unfold fexp64 in *. simpl Zdigits2. lia.
    - assert (0 < Zdigits2 (m / 2 ^ n1)) by (apply Zdigits2_pos; lia).
      assert (Zdigits2 (m / 2 ^ n1) <= Zdigits2 m2)
        by (apply Zdigits2_mono; lia).
      unfold fexp64 in *. lia. }
  unfold fexp64 in *. lia.
Qed.

(** The rounding step against a value of the format above the input:
    the result is below it, in the order of exponents and significands. *)
Lemma binary_round_aux_upper (s : bool) (m e : Z) (l : location) (U eU : Z) :
  0 <= m -> 0 < U -> Zdigits2 U <= 53 -> -1074 <= eU -> e <= eU ->
  m < U * 2 ^ (eU - e) ->
  exists m3 e3,
    binary_round_aux prec emax s m e l = mkFloat s m3 e3 /\
    0 <= m3 /\ (e3 < eU \/ (e3 = eU /\ m3 <= U)).
Proof.
  intros Hm HU DU HeU Hee Hlt.
  destruct (binary_round_aux_spec s m e l Hm)
    as (n1 & m2 & n2 & E1 & C2 & E2 & ->).
  assert (P1 : 0 < 2 ^ n1) by (apply pow2_pos; lia).
  assert (P2 : 0 < 2 ^ n2) by (apply pow2_pos; lia).
  assert (H1 : 0 <= m / 2 ^ n1) by (apply Z.div_pos; lia).
  assert (H2 : 0 <= m2) by lia.
  assert (H3 : 0 <= m2 / 2 ^ n2) by (apply Z.div_pos; lia).
  exists (m2 / 2 ^ n2), (e + n1 + n2). split; [reflexivity|]. split; [exact H3|].
  (* digits of the input against those of the bound *)
  assert (DW : Zdigits2 (U * 2 ^ (eU - e)) = Zdigits2 U + (eU - e))
    by (apply Zdigits2_mul_pow; lia).
  assert (Dm : Zdigits2 m <= Zdigits2 U + (eU - e))
    by (rewrite <- DW; apply Zdigits2_mono; lia).
  assert (N1 : e + n1 <= eU) by (unfold fexp64 in *; lia).
  (* the bound in units of the shifted exponent *)
  set (K := U * 2 ^ (eU - (e + n1))).
  assert (EK : U * 2 ^ (eU - e) = K * 2 ^ n1).
  { unfold K. rewrite <- Z.mul_assoc, <- pow2_split by lia. f_equal. f_equal. lia. }
  assert (M1 : m / 2 ^ n1 < K).
  { apply Z.div_lt_upper_bound; [lia|]. rewrite Z.mul_comm. lia. }
  assert (M2 : m2 <= K) by lia.
  assert (DK : Zdigits2 K = Zdigits2 U + (eU - (e + n1)))
    by (apply Zdigits2_mul_pow; lia).
  assert (D2 : Zdigits2 m2 <= Zdigits2 K) by (apply Zdigits2_mono; lia).
  assert (N2 : e + n1 + n2 <= eU) by (unfold fexp64 in *; lia).
  destruct (Z.eq_dec (e + n1 + n2) eU) as [Eq|Ne]; [right|left; lia].
  split; [exact Eq|].
  assert (K2 : K = U * 2 ^ n2).
  { unfold K. do 2 f_equal. lia. }
  apply Z.div_le_upper_bound; [lia|]. rewrite Z.mul_comm. lia.
Qed.

(** The rounding step against a valid value of the format below the input:
    the result is above it, in the order of exponents and significands. *)
Lemma binary_round_aux_lower (s : bool) (m e : Z) (l : location) (V eV : Z) :
  0 < V -> fexp64 (Zdigits2 V + eV) = eV ->
  e <= fexp64 (Zdigits2 m + e) -> e <= eV ->
  V * 2 ^ (eV - e) <= m ->
  exists m3 e3,
    binary_round_aux prec emax s m e l = mkFloat s m3 e3 /\
    0 < m3 /\ (eV < e3 \/ (e3 = eV /\ V <= m3)).
Proof.
  intros HV CV Hpre Hee Hle.
  assert (PV : 0 < 2 ^ (eV - e)) by (apply pow2_pos; lia).
  assert (Hm : 0 < m) by nia.
  destruct (binary_round_aux_spec s m e l ltac:(lia))
    as (n1 & m2 & n2 & E1 & C2 & E2 & ->).
  assert (P1 : 0 < 2 ^ n1) by (apply pow2_pos; lia).
  assert (P2 : 0 < 2 ^ n2) by (apply pow2_pos; lia).
  assert (H1 : 0 <= m / 2 ^ n1) by (apply Z.div_pos; lia).
  assert (H2 : 0 <= m2) by lia.
  exists (m2 / 2 ^ n2), (e + n1 + n2). split; [reflexivity|].
  assert (DW : Zdigits2 (V * 2 ^ (eV - e)) = Zdigits2 V + (eV - e))
    by (apply Zdigits2_mul_pow; lia).
  assert (Dm : Zdigits2 V + (eV - e) <= Zdigits2 m)
    by (rewrite <- DW; apply Zdigits2_mono; lia).
  assert (GV := fexp64_ge (Zdigits2 V + eV)).
  assert (N1 : eV <= e + n1) by (unfold fexp64 in *; lia).
  assert (F1 : e + n1 = fexp64 (Zdigits2 m + e)) by lia.
  (* the shifted significand is at least that of the bound, shifted *)
  assert (M1 : V * 2 ^ (eV - e) / 2 ^ n1 <= m / 2 ^ n1)
    by (apply Z.div_le_mono; lia).
  assert (B := Zdigits2_bounds m Hm).
  assert (Q1 : 0 < m / 2 ^ n1).
  { apply Z.div_str_pos. split; [lia|].
    destruct (Z_le_gt_dec (Zdigits2 m + e - 53) (-1074)) as [S|S].
    - (* the subnormal range: the bound alone has enough *)
      assert (n1 <= eV - e) by (unfold fexp64 in *; lia).
      assert (2 ^ n1 <= 2 ^ (eV - e)) by (apply Z.pow_le_mono_r; lia).
      nia.
    - assert (n1 <= Zdigits2 m - 1) by (unfold fexp64 in *; lia).
      assert (2 ^ n1 <= 2 ^ (Zdigits2 m - 1)) by (apply Z.pow_le_mono_r; lia).
      lia. }
  assert (D1 := Zdigits2_div_pow m n1 ltac:(lia) ltac:(lia)).
  assert (Q1' := Zdigits2_pos _ Q1).
  assert (D12 : Zdigits2 (m / 2 ^ n1) <= Zdigits2 m2)
    by (apply Zdigits2_mono; lia).
  assert (F2 : e + n1 <= fexp64 (Zdigits2 m2 + (e + n1)))
    by (unfold fexp64 in *; lia).
  assert (Q2 : 0 < m2) by lia.
  assert (B2 := Zdigits2_bounds m2 Q2).
  assert (Q3 : 0 < m2 / 2 ^ n2).
  { apply Z.div_str_pos. split; [lia|].
    assert (n2 <= Zdigits2 m2 - 1) by (unfold fexp64 in *; lia).
    assert (2 ^ n2 <= 2 ^ (Zdigits2 m2 - 1)) by (apply Z.pow_le_mono_r; lia).
    lia. }
  split; [exact Q3|].
  destruct (Z.eq_dec (e + n1 + n2) eV) as [Eq|Ne]; [right|left; lia].
  split; [exact Eq|].
  assert (Z2 : n2 = 0) by lia. assert (n1 = eV - e) by lia.
  rewrite Z2, Z.pow_0_r, Z.div_1_r.
  assert (V <= m / 2 ^ n1); [|lia].
  apply Z.div_le_lower_bound; [lia|]. rewrite Z.mul_comm.
  replace n1 with (eV - e) by lia. lia.
Qed.

(** ** Division *)

Lemma SFdiv_core_pre (m1 m2 : positive) (e1 e2 : Z) :
  let '(q, e', _) := SFdiv_core_binary prec emax (Zpos m1) e1 (Zpos m2) e2 in
  0 <= q /\ e' <= fexp64 (Zdigits2 q + e').
Proof.
  unfold SFdiv_core_binary. change (fexp prec emax) with fexp64.
  set (d1 := Zdigits2 (Zpos m1)). set (d2 := Zdigits2 (Zpos m2)).
  set (X := d1 + e1 - (d2 + e2)).
  set (e' := Z.min (fexp64 X) (e1 - e2)).
  set (s := e1 - e2 - e').
  assert (Hs : 0 <= s) by (unfold s, e'; lia).
  set (m' := match s with
             | 0 => Zpos m1
             | Zpos _ => Z.shiftl (Zpos m1) s
             | Zneg _ => 0
             end).
  assert (Em : m' = Zpos m1 * 2 ^ s).
  { unfold m'. destruct s as [|p|p]; [simpl; lia| |lia].
    now rewrite Z.shiftl_mul_pow2 by lia. }
  assert (Q : fst (Z.div_eucl m' (Zpos m2)) = m' / Zpos m2) by reflexivity.
  destruct (Z.div_eucl m' (Zpos m2)) as [q r]. cbn [fst] in Q. subst q.
  assert (Ps : 0 < 2 ^ s) by (apply pow2_pos; lia).
  assert (Hq : 0 <= m' / Zpos m2) by (apply Z.div_pos; lia).
  split; [exact Hq|].
  assert (G := fexp64_ge (Zdigits2 (m' / Zpos m2) + e')).
  destruct (Z_le_gt_dec e' (-1074)) as [Small|Big]; [lia|].
  (* the quotient has at least 53 digits *)
  assert (HX : e' <= X - 53) by (unfold e', fexp64 in *; lia).
  assert (B1 := Zdigits2_bounds (Zpos m1) ltac:(lia)). fold d1 in B1.
  assert (B2 := Zdigits2_bounds (Zpos m2) ltac:(lia)). fold d2 in B2.
  assert (P1 := Zdigits2_pos (Zpos m1) ltac:(lia)). fold d1 in P1.
  assert (P2 := Zdigits2_pos (Zpos m2) ltac:(lia)). fold d2 in P2.
  set (k := d1 - 1 + s - d2).
  assert (Hk : 52 <= k) by (unfold k, s, X in *; lia).
  assert (L : 2 ^ k <= m' / Zpos m2).
  { apply Z.div_le_lower_bound; [lia|].
    assert (E : 2 ^ (d1 - 1) * 2 ^ s = 2 ^ k * 2 ^ d2).
    { rewrite <- !pow2_split by lia. f_equal. unfold k. lia. }
    assert (0 < 2 ^ k) by (apply pow2_pos; lia).
    nia. }
  assert (D := Zdigits2_gt (m' / Zpos m2) k ltac:(lia) L).
  apply Z.le_trans with (fexp64 X); [unfold e'; lia|].
  apply fexp64_mono. unfold k, s, X in *. lia.
Qed.

Lemma div_finite_valid (sx sy : bool) (mx my : positive) (ex ey : Z) :
  valid_binary prec emax
    (div (S754_finite sx mx ex) (S754_finite sy my ey)) = true.
Proof.
  unfold div, SFdiv.
  assert (H := SFdiv_core_pre mx my ex ey).
  destruct (SFdiv_core_binary prec emax (Zpos mx) ex (Zpos my) ey)
    as [[q e'] l].
  destruct H as [Hq Hpre]. now apply binary_round_aux_valid.
Qed.

Lemma ofDecimal_valid (s : bool) (m e10 : Z) :
  valid_binary prec emax (ofDecimal s m e10) = true.
Proof.
  unfold ofDecimal. destruct m; try reflexivity. apply div_finite_valid.
Qed.

Lemma parseUnsigned_valid (s : bool) (u : jsstring) :
  valid_binary prec emax (parseUnsigned s u) = true.
Proof.
  unfold parseUnsigned.
  destruct (match dropWhile isDigit u with
            | [] => ([], dropWhile isDigit u)
            | c :: r =>
                if (c =? 46)%N
                then (takeWhile isDigit r, dropWhile isDigit r)
                else ([], dropWhile isDigit u)
            end) as [fp r2].
  destruct (takeWhile isDigit u ++ fp); [reflexivity|].
  apply ofDecimal_valid.
Qed.

(** Every result of [parseFloat] is a valid binary64 value. *)
Lemma parseFloat_valid (v : jsvalue) :
  valid_binary prec emax (parseFloat v) = true.
Proof.
  unfold parseFloat, parseFloat_string.
  destruct (match trimStart (ToString v) with
            | [] => (false, trimStart (ToString v))
            | c :: t' =>
                if (c =? 43)%N then (false, t')
                else if (c =? 45)%N then (true, t')
                else (false, trimStart (ToString v))
            end) as [sign u].
  destruct (stripPrefix (js "Infinity") u); [reflexivity|].
  apply parseUnsigned_valid.
Qed.

(** A valid value is well formed. *)
Lemma valid_wellFormed (x : number) :
  valid_binary prec emax x = true -> wellFormed x.
Proof.
  destruct x as [| | |s m e]; simpl; auto.
  unfold bounded, canonical_mantissa.
  change (fexp prec emax) with fexp64. change (emax - prec) with 971.
  intros H. apply andb_prop in H as [H1 H2].
  apply Z.eqb_eq in H1. apply Z.leb_le in H2.
  unfold fexp64 in H1. lia.
Qed.

Lemma valid_canonical (s : bool) (m : positive) (e : Z) :
  valid_binary prec emax (S754_finite s m e) = true ->
  fexp64 (Zdigits2 (Zpos m) + e) = e /\ e <= 971.
Proof.
  simpl. unfold bounded, canonical_mantissa.
  change (fexp prec emax) with fexp64. change (emax - prec) with 971.
  intros H. apply andb_prop in H as [H1 H2].
  apply Z.eqb_eq in H1. apply Z.leb_le in H2. auto.
Qed.

(** ** No overflow *)

Lemma binary_round_aux_no_overflow (s : bool) (m e : Z) (l : location) :
  0 <= m -> e <= 971 -> Zdigits2 m + e <= 1023 ->
  exists m3 e3,
    binary_round_aux prec emax s m e l = mkFloat s m3 e3 /\
    0 <= m3 /\ e3 <= 971.
Proof.
  intros Hm He Hd.
  destruct (binary_round_aux_spec s m e l Hm)
    as (n1 & m2 & n2 & E1 & C2 & E2 & ->).
  assert (P1 : 0 < 2 ^ n1) by (apply pow2_pos; lia).
  assert (P2 : 0 < 2 ^ n2) by (apply pow2_pos; lia).
  assert (H1 : 0 <= m / 2 ^ n1) by (apply Z.div_pos; lia).
  assert (H2 : 0 <= m2) by lia.
  assert (H3 : 0 <= m2 / 2 ^ n2) by (apply Z.div_pos; lia).
  exists (m2 / 2 ^ n2), (e + n1 + n2). split; [reflexivity|]. split; [exact H3|].
  assert (D1 := Zdigits2_div_pow m n1 Hm ltac:(lia)).
  assert (S1 := Zdigits2_succ (m / 2 ^ n1) H1).
  assert (D2 : Zdigits2 m2 <= Zdigits2 (m / 2 ^ n1) + 1).
  { destruct C2 as [->| ->]; [lia | exact S1]. }
  unfold fexp64 in *. lia.
Qed.

(** The literal [100]. *)
Lemma hundred_eq : hundred = S754_finite false 7036874417766400 (-46).
Proof. reflexivity. Qed.

(** Dividing a finite value by 100 gives zero or a finite value of the same
    sign. *)
Lemma div_hundred_finite (s : bool) (m : positive) (e : Z) :
  wellFormed (S754_finite s m e) ->
  exists m3 e3, div (S754_finite s m e) hundred = mkFloat s m3 e3 /\
                0 <= m3 /\ e3 <= 971.
Proof.
  intros [Dm [He1 He2]]. rewrite hundred_eq. unfold div, SFdiv.
  replace (xorb s false) with s by (now destruct s).
  assert (Pre := SFdiv_core_pre m 7036874417766400 e (-46)).
  unfold SFdiv_core_binary in *. change (fexp prec emax) with fexp64 in *.
  change (Zdigits2 (Zpos 7036874417766400)) with 53 in *.
  set (d1 := Zdigits2 (Zpos m)) in *.
  set (X := d1 + e - (53 + -46)) in *.
  set (e' := Z.min (fexp64 X) (e - -46)) in *.
  set (sh := e - -46 - e') in *.
  assert (Hs : 0 <= sh) by (unfold sh, e'; lia).
  set (m' := match sh with
             | 0 => Zpos m
             | Zpos _ => Z.shiftl (Zpos m) sh
             | Zneg _ => 0
             end) in *.
  assert (Em : m' = Zpos m * 2 ^ sh).
  { unfold m'. destruct sh as [|p|p]; [simpl; lia| |lia].
    now rewrite Z.shiftl_mul_pow2 by lia. }
  assert (Q : fst (Z.div_eucl m' 7036874417766400) = m' / 7036874417766400)
    by reflexivity.
  destruct (Z.div_eucl m' 7036874417766400) as [q r]. cbn [fst] in Q.
  destruct Pre as [Hq _].
  apply binary_round_aux_no_overflow; [exact Hq | unfold e', fexp64, X; lia |].
  (* the quotient is below 2^(d1 + sh - 52) *)
  assert (Ps : 0 < 2 ^ sh) by (apply pow2_pos; lia).
  assert (B1 := Zdigits2_bounds (Zpos m) ltac:(lia)). fold d1 in B1.
  assert (P1 := Zdigits2_pos (Zpos m) ltac:(lia)). fold d1 in P1.
  destruct (Z_lt_le_dec (d1 + sh - 52) 0) as [Neg|Pos].
  - (* the quotient is zero *)
    assert (2 ^ (d1 + sh) <= 2 ^ 52) by (apply Z.pow_le_mono_r; lia).
    assert (m' < 2 ^ (d1 + sh)) by (rewrite pow2_split by lia; nia).
    assert (q = 0).
    { subst q. apply Z.div_small. change (2 ^ 52) with 4503599627370496 in *. lia. }
    subst q. rewrite H1. simpl Zdigits2. unfold e', fexp64, X. lia.
  - assert (q < 2 ^ (d1 + sh - 52)).
    { subst q. apply Z.div_lt_upper_bound; [lia|].
      assert (2 ^ (d1 + sh) = 2 ^ 52 * 2 ^ (d1 + sh - 52)).
      { rewrite <- pow2_split by lia. f_equal. lia. }
      assert (0 < 2 ^ (d1 + sh - 52)) by (apply pow2_pos; lia).
      assert (m' < 2 ^ (d1 + sh)) by (rewrite pow2_split by lia; nia).
      change (2 ^ 52) with 4503599627370496 in *. nia. }
    assert (Zdigits2 q <= d1 + sh - 52) by (apply Zdigits2_le; lia).
    unfold sh in *. lia.
Qed.

(** ** Alignment and subtraction *)

Lemma pos_iter_xO (m d : positive) :
  Zpos (Pos.iter xO m d) = Zpos m * 2 ^ Zpos d.
Proof.
  induction d as [|d IH] using Pos.peano_ind.
  - simpl. lia.
  - rewrite Pos.iter_succ, Pos2Z.inj_xO, IH, Pos2Z.inj_succ, Z.pow_succ_r by lia.
    lia.
Qed.

Lemma shl_align_spec (mx : positive) (ex ex' : Z) :
  snd (shl_align mx ex ex') = Z.min ex ex' /\
  Zpos (fst (shl_align mx ex ex')) = Zpos mx * 2 ^ (ex - Z.min ex ex').
Proof.
  unfold shl_align. destruct (ex' - ex) as [|d|d] eqn:E; cbn [fst snd].
  - rewrite Z.min_l by lia. rewrite Z.sub_diag. simpl. lia.
  - rewrite Z.min_l by lia. rewrite Z.sub_diag. simpl. lia.
  - rewrite Z.min_r by lia. rewrite pos_iter_xO. split; [reflexivity|].
    do 2 f_equal. lia.
Qed.

(** [binary_round] is the rounding step on an aligned significand, for
    which the precondition of the step holds. *)
Lemma binary_round_spec (s : bool) (mx : positive) (ex : Z) :
  exists mz ez,
    binary_round prec emax s mx ex
    = binary_round_aux prec emax s (Zpos mz) ez loc_Exact /\
    ez <= ex /\ Zpos mz = Zpos mx * 2 ^ (ex - ez) /\
    ez <= fexp64 (Zdigits2 (Zpos mz) + ez).
Proof.
  unfold binary_round. change (fexp prec emax) with fexp64.
  destruct (shl_align_spec mx ex (fexp64 (Zpos (digits2_pos mx) + ex)))
    as [E1 E2].
  destruct (shl_align mx ex (fexp64 (Zpos (digits2_pos mx) + ex))) as [mz ez].
  cbn [fst snd] in E1, E2. exists mz, ez.
  split; [reflexivity|]. split; [lia|]. split; [rewrite E1; exact E2|].
  rewrite <- E1 in E2. rewrite E2.
  rewrite Zdigits2_mul_pow by lia.
  change (Zdigits2 (Zpos mx)) with (Zpos (digits2_pos mx)).
  replace (Zpos (digits2_pos mx) + (ex - ez) + ez)
    with (Zpos (digits2_pos mx) + ex) by lia.
  lia.
Qed.

(** The comparison [<=] of the language on two positive finite values: the
    order of exponents, then of significands. *)
Lemma leb_finite (m1 m2 : positive) (e1 e2 : Z) :
  SFleb (S754_finite false m1 e1) (S754_finite false m2 e2) = true <->
  e1 < e2 \/ (e1 = e2 /\ Zpos m1 <= Zpos m2).
Proof.
  unfold SFleb, SFcompare.
  destruct (Z.compare_spec e1 e2) as [E|E|E].
  - subst. rewrite Pos.compare_cont_spec. simpl.
    destruct (Pos.compare_spec m1 m2); split; intros G; try reflexivity;
      try discriminate; try lia.
  - split; [left; lia | reflexivity].
  - split; [discriminate | lia].
Qed.

Lemma ltb_finite (m1 m2 : positive) (e1 e2 : Z) :
  SFltb (S754_finite false m1 e1) (S754_finite false m2 e2) = true <->
  e1 < e2 \/ (e1 = e2 /\ Zpos m1 < Zpos m2).
Proof.
  unfold SFltb, SFcompare.
  destruct (Z.compare_spec e1 e2) as [E|E|E].
  - subst. rewrite Pos.compare_cont_spec. simpl.
    destruct (Pos.compare_spec m1 m2); split; intros G; try reflexivity;
      try discriminate; try lia.
  - split; [left; lia | reflexivity].
  - split; [discriminate | lia].
Qed.

(** Subtracting a positive finite value from a positive finite value of the
    format gives a value that is not above it. *)
Lemma sub_positive_le (mL my : positive) (eL ey : Z) :
  wellFormed (S754_finite false mL eL) ->
  isNaN (sub (S754_finite false mL eL) (S754_finite false my ey)) = false /\
  SFleb (sub (S754_finite false mL eL) (S754_finite false my ey))
        (S754_finite false mL eL) = true.
Proof.
  intros [DL [EL1 EL2]]. unfold sub, SFsub. cbn [cond_Zopp].
  set (ez := Z.min eL ey).
  destruct (shl_align_spec mL eL ez) as [_ AL].
  destruct (shl_align_spec my ey ez) as [_ Ay].
  replace (Z.min eL ez) with ez in AL by (unfold ez; lia).
  replace (Z.min ey ez) with ez in Ay by (unfold ez; lia).
  rewrite AL, Ay.
  assert (PL : 0 < 2 ^ (eL - ez)) by (apply pow2_pos; unfold ez; lia).
  assert (Py : 0 < 2 ^ (ey - ez)) by (apply pow2_pos; unfold ez; lia).
  set (M := Zpos mL * 2 ^ (eL - ez) - Zpos my * 2 ^ (ey - ez)).
  assert (HM : M < Zpos mL * 2 ^ (eL - ez)) by (unfold M; nia).
  unfold binary_normalize. destruct M as [|mm|mm] eqn:EM.
  - split; reflexivity.
  - destruct (binary_round_spec false mm ez) as (mz & ez' & -> & Le & Emz & _).
    destruct (binary_round_aux_upper false (Zpos mz) ez' loc_Exact (Zpos mL) eL)
      as (m3 & e3 & -> & H3 & Ord); try lia.
    { rewrite Emz.
      replace (eL - ez') with ((eL - ez) + (ez - ez')) by lia.
      rewrite pow2_split by (unfold ez in *; lia).
      assert (0 < 2 ^ (ez - ez')) by (apply pow2_pos; lia). nia. }
    split; [now apply mkFloat_not_nan|].
    destruct m3 as [|p3|p3]; [reflexivity| |lia].
    simpl. destruct (Z.leb_spec e3 971); [|lia].
    apply leb_finite. lia.
  - destruct (binary_round_spec true mm ez) as (mz & ez' & -> & _).
    destruct (binary_round_aux_wf true (Zpos mz) ez' loc_Exact ltac:(lia))
      as [NN _].
    split; [exact NN|].
    destruct (binary_round_aux_sign true (Zpos mz) ez' loc_Exact) as [S|S];
      destruct (binary_round_aux prec emax true (Zpos mz) ez' loc_Exact);
      simpl in *; try discriminate; inversion S; reflexivity.
Qed.

(** Subtracting a negative finite value from a valid positive finite value
    gives a value that is not below it. *)
Lemma sub_negative_ge (mL my : positive) (eL ey : Z) :
  valid_binary prec emax (S754_finite false mL eL) = true ->
  isNaN (sub (S754_finite false mL eL) (S754_finite true my ey)) = false /\
  SFleb (S754_finite false mL eL)
        (sub (S754_finite false mL eL) (S754_finite true my ey)) = true.
Proof.
  intros V. apply valid_canonical in V as [CL EL].
  unfold sub, SFsub. cbn [cond_Zopp].
  set (ez := Z.min eL ey).
  destruct (shl_align_spec mL eL ez) as [_ AL].
  destruct (shl_align_spec my ey ez) as [_ Ay].
  replace (Z.min eL ez) with ez in AL by (unfold ez; lia).
  replace (Z.min ey ez) with ez in Ay by (unfold ez; lia).
  rewrite AL, Ay.
  assert (PL : 0 < 2 ^ (eL - ez)) by (apply pow2_pos; unfold ez; lia).
  assert (Py : 0 < 2 ^ (ey - ez)) by (apply pow2_pos; unfold ez; lia).
  set (M := Zpos mL * 2 ^ (eL - ez) - - (Zpos my * 2 ^ (ey - ez))).
  assert (HM : Zpos mL * 2 ^ (eL - ez) < M) by (unfold M; nia).
  unfold binary_normalize. destruct M as [|mm|mm] eqn:EM; [nia| |nia].
  destruct (binary_round_spec false mm ez) as (mz & ez' & -> & Le & Emz & Pre).
  destruct (binary_round_aux_lower false (Zpos mz) ez' loc_Exact (Zpos mL) eL)
    as (m3 & e3 & -> & H3 & Ord); try lia.
  { rewrite Emz.
    replace (eL - ez') with ((eL - ez) + (ez - ez')) by lia.
    rewrite pow2_split by (unfold ez in *; lia).
    assert (0 < 2 ^ (ez - ez')) by (apply pow2_pos; lia). nia. }
  split; [apply mkFloat_not_nan; lia|].
  destruct m3 as [|p3|p3]; [lia| |lia].
  simpl. destruct (Z.leb_spec e3 971); [|reflexivity].
  apply leb_finite. lia.
Qed.

(** ** Results of the operators *)

Lemma mkFloat_cases (s : bool) (m e : Z) :
  0 <= m ->
  mkFloat s m e = S754_zero s \/
  (exists p, mkFloat s m e = S754_finite s p e /\ e <= 971 /\ m = Zpos p) \/
  mkFloat s m e = S754_infinity s.
Proof.
  intros H. destruct m as [|p|p]; [now left| |lia].
  simpl. destruct (Z.leb_spec e 971); [|now right; right].
  right; left. now exists p.
Qed.

(** The rounding step gives a zero, a finite value or an infinity of the
    given sign. *)
Lemma binary_round_aux_cases (s : bool) (m e : Z) (l : location) :
  0 <= m ->
  binary_round_aux prec emax s m e l = S754_zero s \/
  (exists p e', binary_round_aux prec emax s m e l = S754_finite s p e') \/
  binary_round_aux prec emax s m e l = S754_infinity s.
Proof.
  intros Hm. destruct (binary_round_aux_wf s m e l Hm) as [NN _].
  destruct (binary_round_aux_sign s m e l) as [S|S];
    destruct (binary_round_aux prec emax s m e l) as [s'|s'| |s' p e'];
    simpl in *; try discriminate; inversion S; subst; eauto.
Qed.

Lemma mul_finite_cases (sx sy : bool) (mx my : positive) (ex ey : Z) :
  let r := mul (S754_finite sx mx ex) (S754_finite sy my ey) in
  r = S754_zero (xorb sx sy) \/
  (exists p e, r = S754_finite (xorb sx sy) p e) \/
  r = S754_infinity (xorb sx sy).
Proof. apply binary_round_aux_cases. lia. Qed.

Lemma binary_round_wf (s : bool) (m : positive) (e : Z) :
  isNaN (binary_round prec emax s m e) = false /\
  wellFormed (binary_round prec emax s m e).
Proof.
  destruct (binary_round_spec s m e) as (mz & ez & -> & _).
  apply binary_round_aux_wf. lia.
Qed.

Lemma binary_normalize_wf (m e : Z) (sz : bool) :
  isNaN (binary_normalize prec emax m e sz) = false /\
  wellFormed (binary_normalize prec emax m e sz).
Proof.
  destruct m; simpl; [split; [reflexivity|exact I] | apply binary_round_wf..].
Qed.

Lemma mul_wellFormed (a b : number) : wellFormed (mul a b).
Proof.
  destruct a, b; simpl; try exact I.
  apply binary_round_aux_wf. lia.
Qed.

Lemma sub_wellFormed (a b : number) :
  wellFormed a -> wellFormed b -> wellFormed (sub a b).
Proof.
  destruct a as [sa|sa| |sa ma ea], b as [sb|sb| |sb mb eb]; simpl;
    try (intros; exact I); try (intros; assumption).
  - destruct sa, sb; intros; exact I.
  - destruct sa, sb; intros; exact I.
  - intros _ _. apply binary_normalize_wf.
Qed.

Lemma sub_not_nan (a b : number) :
  isFinite a = true -> isNaN b = false -> isNaN (sub a b) = false.
Proof.
  destruct a as [sa|sa| |sa ma ea], b as [sb|sb| |sb mb eb]; simpl;
    try discriminate; try reflexivity.
  - destruct sa, sb; reflexivity.
  - intros _ _. apply binary_normalize_wf.
Qed.

Lemma mul_not_nan (a b : number) :
  isFinite a = true -> isFinite b = true -> isNaN (mul a b) = false.
Proof.
  destruct a as [sa|sa| |sa ma ea], b as [sb|sb| |sb mb eb]; simpl;
    try discriminate; try reflexivity.
  intros _ _. apply binary_round_aux_wf. lia.
Qed.

Lemma div_hundred_isFinite (pv : number) :
  isFinite pv = true -> wellFormed pv ->
  isFinite (div pv hundred) = true /\
  (signOf (div pv hundred) = signOf pv).
Proof.
  destruct pv as [s|s| |s m e]; try discriminate; intros _ W.
  - simpl. now destruct s.
  - destruct (div_hundred_finite s m e W) as (m3 & e3 & -> & H3 & H971).
    destruct m3 as [|p|p]; [now split| |lia].
    simpl. destruct (Z.leb_spec e3 971); [now split|lia].
Qed.

(** The adjusted lightness before the clamp is a number whenever the
    lightness and the percentage are finite. *)
Lemma adjusted_not_nan (L pv : number) :
  isFinite L = true -> isNaN pv = false -> wellFormed pv ->
  (isZero L = true -> isFinite pv = true) ->
  isNaN (sub L (mul L (div pv hundred))) = false.
Proof.
  intros HL Np Wp Hz.
  destruct (isFinite pv) eqn:Hp.
  - destruct (div_hundred_isFinite pv Hp Wp) as [Hf _].
    apply sub_not_nan; [exact HL|]. now apply mul_not_nan.
  - destruct pv as [sp|sp| |sp mp ep]; try discriminate.
    destruct L as [sL|sL| |sL mL eL]; try discriminate.
    + now specialize (Hz eq_refl).
    + reflexivity.
Qed.

(** ** The clamp *)

Lemma one_eq : one = S754_finite false 4503599627370496 (-52).
Proof. reflexivity. Qed.

Lemma Math_min_one (x : number) :
  isNaN x = false -> Math_min one x = if ltb x one then x else one.
Proof. intros H. destruct x; try reflexivity. discriminate H. Qed.

Lemma Math_max_zero (y : number) :
  isNaN y = false -> Math_max zero y = if ltb zero y then y else zero.
Proof. intros H. destruct y as [[|]| | |]; try reflexivity. discriminate H. Qed.

Lemma clamp_eq (x : number) :
  isNaN x = false ->
  clamp x = if ltb x one
            then (if ltb zero x then x else zero)
            else one.
Proof.
  intros H. unfold clamp. rewrite (Math_min_one x H).
  destruct (ltb x one).
  - now apply Math_max_zero.
  - reflexivity.
Qed.

Lemma clamp_cases (x : number) :
  isNaN x = false ->
  clamp x = zero \/ clamp x = one \/
  (exists m e, x = S754_finite false m e /\ clamp x = x /\
               SFltb x one = true).
Proof.
  intros H. rewrite (clamp_eq x H).
  destruct (ltb x one) eqn:E1; [|now right; left].
  destruct (ltb zero x) eqn:E2; [|now left].
  right; right.
  destruct x as [s|s| |s m e]; try destruct s; try discriminate.
  now exists m, e.
Qed.



Lemma leb_refl_finite (m : positive) (e : Z) :
  SFleb (S754_finite false m e) (S754_finite false m e) = true.
Proof. apply leb_finite. lia. Qed.

(** ** The sign convention on numbers *)


(** A negative percentage: the value before the clamp is a number not
    below the lightness. *)
Lemma adjusted_ge (mL : positive) (eL : Z) (pv : number) :
  valid_binary prec emax (S754_finite false mL eL) = true -> wellFormed pv ->
  ltb pv zero = true ->
  let L := S754_finite false mL eL in
  isNaN (sub L (mul L (div pv hundred))) = false /\
  SFleb L (sub L (mul L (div pv hundred))) = true.
Proof.
  intros VL Wp Hp L.
  destruct pv as [s|s| |s m e]; try destruct s; try discriminate.
  - split; reflexivity.
  - destruct (div_hundred_finite true m e Wp) as (m3 & e3 & -> & H3 & H971).
    destruct (mkFloat_cases true m3 e3 H3) as [-> | [(p & -> & _) | ->]].
    + split; [reflexivity | apply leb_refl_finite].
    + unfold L.
      destruct (mul_finite_cases false true mL p eL e3)
        as [-> | [(q & e' & ->) | ->]]; cbn [xorb].
      * split; [reflexivity | apply leb_refl_finite].
      * now apply sub_negative_ge.
      * split; reflexivity.
    + split; reflexivity.
Qed.

(** ** Printing with four decimals *)

Lemma uintDigits_digits (u : Decimal.uint) : forallb isDigit (uintDigits u) = true.
Proof. induction u; simpl; auto. Qed.

Lemma uintDigits_nonnil (u : Decimal.uint) : u <> Decimal.Nil -> uintDigits u <> [].
Proof. destruct u; simpl; congruence. Qed.

Lemma decimalDigits_digits (n : Z) : forallb isDigit (decimalDigits n) = true.
Proof. apply uintDigits_digits. Qed.

Lemma decimalDigits_nonnil (n : Z) : decimalDigits n <> [].
Proof.
  unfold decimalDigits. apply uintDigits_nonnil.
  destruct (Z.to_N n); simpl; [discriminate|].
  apply Unsigned.to_uint_nonnil.
Qed.

Lemma zeros_digits (n : Z) : forallb isDigit (zeros n) = true.
Proof. unfold zeros. induction (Z.to_nat n); simpl; auto. Qed.

Lemma zeros_length (n : Z) : List.length (zeros n) = Z.to_nat n.
Proof. unfold zeros. apply repeat_length. Qed.

Lemma forallb_firstn {A} (p : A -> bool) (n : nat) (l : list A) :
  forallb p l = true -> forallb p (firstn n l) = true.
Proof.
  revert n. induction l as [|x l IH]; intros [|n]; simpl; auto.
  intros H. apply andb_prop in H as [-> H]. simpl. auto.
Qed.

Lemma forallb_skipn {A} (p : A -> bool) (n : nat) (l : list A) :
  forallb p l = true -> forallb p (skipn n l) = true.
Proof.
  revert n. induction l as [|x l IH]; intros [|n]; simpl; auto.
  intros H. apply andb_prop in H as [_ H]. auto.
Qed.

Lemma split_isFixed4 (m : jsstring) :
  forallb isDigit m = true -> (5 <= List.length m)%nat ->
  isFixed4 (firstn (List.length m - 4) m ++ js "." ++ skipn (List.length m - 4) m)
  = true.
Proof.
  intros Hd Hl. unfold isFixed4.
  rewrite takeWhile_app, dropWhile_app
    by (try apply forallb_firstn; try reflexivity; assumption).
  destruct (firstn (List.length m - 4) m) eqn:E.
  { apply (f_equal (@List.length _)) in E. rewrite length_firstn in E.
    simpl in E. lia. }
  cbn [js app]. change (N_of_ascii "." =? 46)%N with true. cbn [andb].
  rewrite length_skipn.
  replace (List.length m - (List.length m - 4))%nat with 4%nat by lia.
  simpl Nat.eqb. cbn [andb]. now apply forallb_skipn.
Qed.

Lemma fixedDigits_isFixed4 (n : Z) : isFixed4 (fixedDigits n 4) = true.
Proof.
  unfold fixedDigits. change (4 =? 0) with false. cbn iota.
  set (m := decimalDigits n).
  assert (Hm : forallb isDigit m = true) by apply decimalDigits_digits.
  assert (Nm : m <> []) by apply decimalDigits_nonnil.
  assert (Lm : (1 <= List.length m)%nat)
    by (destruct m; [contradiction | simpl; lia]).
  destruct (Z.leb_spec (Z.of_nat (List.length m)) 4) as [S|B].
  - set (m' := zeros (4 + 1 - Z.of_nat (List.length m)) ++ m).
    assert (L' : List.length m' = 5%nat).
    { unfold m'. rewrite length_app, zeros_length. lia. }
    replace (Z.to_nat (4 + 1 - 4)) with (List.length m' - 4)%nat by lia.
    apply split_isFixed4; [|lia].
    unfold m'. now rewrite forallb_app, zeros_digits.
  - replace (Z.to_nat (Z.of_nat (List.length m) - 4))
      with (List.length m - 4)%nat by lia.
    apply split_isFixed4; [assumption | lia].
Qed.

Lemma fixed4_isFixed4 (x : number) :
  fixedRange x = true -> signOf x = Some false -> isFixed4 (fixed4 x) = true.
Proof.
  destruct x as [s|s| |s m e]; try discriminate; intros R S.
  - apply (fixedDigits_isFixed4 0).
  - inversion S. subst s. unfold fixedRange in R. apply negb_true_iff in R.
    unfold fixed4, fixedText. rewrite R. cbn [app]. apply fixedDigits_isFixed4.
Qed.

(** A value that compares below one prints as at most [1.0000]. *)
Lemma below_one_fixed (m : positive) (e : Z) :
  Zdigits2 (Zpos m) <= 53 ->
  SFltb (S754_finite false m e) one = true ->
  fixedRange (S754_finite false m e) = true /\
  fixed4 (S754_finite false m e) = fixedDigits (fixedInteger m e 4) 4 /\
  0 <= fixedInteger m e 4 <= 10000.
Proof.
  intros D H. rewrite one_eq in H. apply ltb_finite in H.
  assert (B := Zdigits2_bounds (Zpos m) ltac:(lia)).
  assert (M53 : Zpos m < 2 ^ 53).
  { assert (2 ^ Zdigits2 (Zpos m) <= 2 ^ 53) by (apply Z.pow_le_mono_r; lia). lia. }
  assert (He : e <= -52) by lia.
  assert (PD : 2 ^ 52 <= 2 ^ (- e)) by (apply Z.pow_le_mono_r; lia).
  assert (MD : Zpos m <= 2 ^ (- e)).
  { destruct H as [H|[-> H]]; [|simpl; lia].
    assert (2 ^ 53 <= 2 ^ (- e)) by (apply Z.pow_le_mono_r; lia). lia. }
  assert (R : (10 ^ 21 * 2 ^ Z.max (- e) 0 <=? Zpos m * 2 ^ Z.max e 0) = false).
  { apply Z.leb_gt. rewrite (Z.max_l (- e)), (Z.max_r e) by lia.
    change (2 ^ 53) with 9007199254740992 in *.
    change (2 ^ 52) with 4503599627370496 in *.
    change (10 ^ 21) with 1000000000000000000000. simpl (2 ^ 0). lia. }
  split; [unfold fixedRange; now rewrite R|].
  split; [unfold fixed4, fixedText; now rewrite R|].
  unfold fixedInteger. rewrite (Z.max_l (- e)), (Z.max_r e) by lia.
  change (2 ^ 0) with 1. change (10 ^ 4) with 10000.
  change (2 ^ 52) with 4503599627370496 in *.
  split.
  - apply Z.div_pos; lia.
  - assert (P : 0 < 2 * 2 ^ (- e)) by lia.
    assert (U : 2 * (Zpos m * 1) * 10000 + 2 ^ (- e)
                < 2 * 2 ^ (- e) * (10000 + 1)) by lia.
    assert (Q := Z.div_lt_upper_bound _ _ _ P U). lia.
Qed.

Lemma forallb_weaken {A} (p q : A -> bool) (l : list A) :
  (forall x, p x = true -> q x = true) ->
  forallb p l = true -> forallb q l = true.
Proof.
  intros I. induction l as [|x l IH]; simpl; [reflexivity|].
  intros H. apply andb_prop in H as [Hx Hl]. now rewrite (I x Hx), IH.
Qed.

Lemma isFixed4_chars (s : jsstring) :
  isFixed4 s = true -> forallb isDigitOrDot s = true.
Proof.
  unfold isFixed4. intros H.
  rewrite <- (takeWhile_dropWhile isDigit s), forallb_app.
  assert (T := takeWhile_all isDigit s).
  rewrite (forallb_weaken _ _ _ digit_is_number T). cbn [andb].
  destruct (takeWhile isDigit s); [discriminate|].
  destruct (dropWhile isDigit s) as [|d fp]; [discriminate|].
  apply andb_prop in H as [H F]. apply andb_prop in H as [D _].
  cbn [forallb]. unfold isDigitOrDot at 1. rewrite D, orb_true_r. cbn [andb].
  exact (forallb_weaken _ _ _ digit_is_number F).
Qed.

Lemma number_notSpace (c : char16) : isDigitOrDot c = true -> notSpace c = true.
Proof.
  intros H. apply number_bounds in H. unfold notSpace.
  destruct (N.eqb_spec c 32); [lia | reflexivity].
Qed.

Lemma number_notParen (c : char16) : isDigitOrDot c = true -> notParen c = true.
Proof.
  intros H. apply number_bounds in H. unfold notParen.
  destruct (N.eqb_spec c 41); [lia | reflexivity].
Qed.

Lemma outputShape_intro (l c h : jsstring) :
  isFixed4 l = true -> isFixed4 c = true -> isFixed4 h = true ->
  outputShape (js "oklch(" ++ l ++ js " " ++ c ++ js " " ++ h ++ js ")") = true.
Proof.
  intros Hl Hc Hh. unfold outputShape. rewrite stripPrefix_app.
  assert (Sl := forallb_weaken _ _ _ number_notSpace (isFixed4_chars l Hl)).
  assert (Sc := forallb_weaken _ _ _ number_notSpace (isFixed4_chars c Hc)).
  assert (Sh := forallb_weaken _ _ _ number_notParen (isFixed4_chars h Hh)).
  rewrite (takeWhile_app _ l), (dropWhile_app _ l) by (assumption || reflexivity).
  cbn [js app].
  rewrite (takeWhile_app _ c), (dropWhile_app _ c) by (assumption || reflexivity).
  rewrite (takeWhile_app _ h), (dropWhile_app _ h) by (assumption || reflexivity).
  now rewrite Hl, Hc, Hh.
Qed.

Lemma clamp_nan (x : number) : isNaN (clamp x) = false -> isNaN x = false.
Proof. destruct x; try reflexivity. intros H. exact H. Qed.

Lemma adjustLightness_clamp (L pv : number) :
  adjustLightness L pv = clamp (sub L (mul L (div pv hundred))).
Proof. reflexivity. Qed.

Lemma parseFloat_wellFormed (v : jsvalue) : wellFormed (parseFloat v).
Proof. apply valid_wellFormed, parseFloat_valid. Qed.

(** What the clamp prints: [0.0000], [1.0000] or the digits of a value
    between them. *)
Lemma clamp_prints (x : number) :
  isNaN x = false -> wellFormed x ->
  exists n, 0 <= n <= 10000 /\ fixed4 (clamp x) = fixedDigits n 4.
Proof.
  intros N W. destruct (clamp_cases x N) as [-> | [-> | (m & e & -> & -> & H)]].
  - exists 0. split; [lia | reflexivity].
  - exists 10000. split; [lia | reflexivity].
  - destruct W as [D _].
    destruct (below_one_fixed m e D H) as (_ & -> & B).
    now exists (fixedInteger m e 4).
Qed.

(** ** Validity of the intermediate numbers *)

Lemma div_valid (a b : number) : valid_binary prec emax (div a b) = true.
Proof.
  destruct a, b; try reflexivity. apply div_finite_valid.
Qed.

Lemma mul_valid (a b : number) :
  valid_binary prec emax a = true -> valid_binary prec emax b = true ->
  valid_binary prec emax (mul a b) = true.
Proof.
  destruct a as [sa|sa| |sa ma ea], b as [sb|sb| |sb mb eb];
    try reflexivity.
  intros Va Vb.
  apply valid_canonical in Va as [Ca _]. apply valid_canonical in Vb as [Cb _].
  apply binary_round_aux_valid; [lia|].
  assert (Ba := Zdigits2_bounds (Zpos ma) ltac:(lia)).
  assert (Bb := Zdigits2_bounds (Zpos mb) ltac:(lia)).
  assert (Pa := Zdigits2_pos (Zpos ma) ltac:(lia)).
  assert (Pb := Zdigits2_pos (Zpos mb) ltac:(lia)).
  assert (D : Zdigits2 (Zpos ma) + Zdigits2 (Zpos mb) - 2
              < Zdigits2 (Zpos (ma * mb))).
  { apply Zdigits2_gt; [lia|].
    replace (Zdigits2 (Zpos ma) + Zdigits2 (Zpos mb) - 2)
      with ((Zdigits2 (Zpos ma) - 1) + (Zdigits2 (Zpos mb) - 1)) by lia.
    rewrite pow2_split by lia. rewrite Pos2Z.inj_mul.
    apply Z.mul_le_mono_nonneg; try lia; apply Z.lt_le_incl, pow2_pos; lia. }
  unfold fexp64 in *. lia.
Qed.





(** On valid positive values the comparison [<=] of the language is the
    order of the values [m * 2^e]. *)
Lemma leb_value (m1 m2 : positive) (e1 e2 : Z) :
  valid_binary prec emax (S754_finite false m1 e1) = true ->
  valid_binary prec emax (S754_finite false m2 e2) = true ->
  (SFleb (S754_finite false m1 e1) (S754_finite false m2 e2) = true <->
   Zpos m1 * 2 ^ (e1 - Z.min e1 e2) <= Zpos m2 * 2 ^ (e2 - Z.min e1 e2)).
Proof.
  intros V1 V2.
  apply valid_canonical in V1 as [C1 _]. apply valid_canonical in V2 as [C2 _].
  assert (B1 := Zdigits2_bounds (Zpos m1) ltac:(lia)).
  assert (B2 := Zdigits2_bounds (Zpos m2) ltac:(lia)).
  assert (P1 := Zdigits2_pos (Zpos m1) ltac:(lia)).
  assert (P2 := Zdigits2_pos (Zpos m2) ltac:(lia)).
  rewrite leb_finite.
  destruct (Z.lt_trichotomy e1 e2) as [Lt|[Eq|Gt]].
  - rewrite Z.min_l, Z.sub_diag, Z.pow_0_r by lia.
    assert (D2 : Zdigits2 (Zpos m2) = 53) by (unfold fexp64 in *; lia).
    assert (D1 : Zdigits2 (Zpos m1) <= 53) by (unfold fexp64 in *; lia).
    assert (2 ^ 1 <= 2 ^ (e2 - e1)) by (apply Z.pow_le_mono_r; lia).
    assert (2 ^ Zdigits2 (Zpos m1) <= 2 ^ 53) by (apply Z.pow_le_mono_r; lia).
    rewrite D2 in B2. change (2 ^ (53 - 1)) with 4503599627370496 in B2.
    change (2 ^ 53) with 9007199254740992 in *. change (2 ^ 1) with 2 in *.
    split; [intros _; nia | intros _; left; lia].
  - subst e2. rewrite Z.min_l, Z.sub_diag, Z.pow_0_r by lia. lia.
  - rewrite Z.min_r, Z.sub_diag, Z.pow_0_r by lia.
    assert (D1 : Zdigits2 (Zpos m1) = 53) by (unfold fexp64 in *; lia).
    assert (D2 : Zdigits2 (Zpos m2) <= 53) by (unfold fexp64 in *; lia).
    assert (2 ^ 1 <= 2 ^ (e1 - e2)) by (apply Z.pow_le_mono_r; lia).
    assert (2 ^ Zdigits2 (Zpos m2) <= 2 ^ 53) by (apply Z.pow_le_mono_r; lia).
    rewrite D1 in B1. change (2 ^ (53 - 1)) with 4503599627370496 in B1.
    change (2 ^ 53) with 9007199254740992 in *. change (2 ^ 1) with 2 in *.
    split; [lia | intros H'; nia].
Qed.

(** ** Percentages beyond the range *)

(** The division of two finite values: the quotient of the significands,
    shifted to have enough digits, then rounded. *)
Lemma div_spec (sx sy : bool) (mx my : positive) (ex ey : Z) :
  exists q e' l,
    div (S754_finite sx mx ex) (S754_finite sy my ey)
    = binary_round_aux prec emax (xorb sx sy) q e' l /\
    e' = Z.min (fexp64 (Zdigits2 (Zpos mx) + ex - (Zdigits2 (Zpos my) + ey)))
               (ex - ey) /\
    q = Zpos mx * 2 ^ (ex - ey - e') / Zpos my /\
    0 <= q /\ e' <= fexp64 (Zdigits2 q + e').
Proof.
  unfold div, SFdiv.
  assert (Pre := SFdiv_core_pre mx my ex ey).
  unfold SFdiv_core_binary in *. change (fexp prec emax) with fexp64 in *.
  set (X := Zdigits2 (Zpos mx) + ex - (Zdigits2 (Zpos my) + ey)) in *.
  set (e' := Z.min (fexp64 X) (ex - ey)) in *.
  set (sh := ex - ey - e') in *.
  assert (Hs : 0 <= sh) by (unfold sh, e'; lia).
  set (m' := match sh with
             | 0 => Zpos mx
             | Zpos _ => Z.shiftl (Zpos mx) sh
             | Zneg _ => 0
             end) in *.
  assert (Em : m' = Zpos mx * 2 ^ sh).
  { unfold m'. destruct sh as [|p|p]; [simpl; lia| |lia].
    now rewrite Z.shiftl_mul_pow2 by lia. }
  assert (Q : fst (Z.div_eucl m' (Zpos my)) = m' / Zpos my) by reflexivity.
  destruct (Z.div_eucl m' (Zpos my)) as [q r]. cbn [fst] in Q.
  destruct Pre as [Hq Hpre].
  do 3 eexists.
  split; [reflexivity|]. split; [reflexivity|].
  split; [now rewrite Q, Em|]. split; assumption.
Qed.

(** A clamp of a value that is at least one is one. *)
Lemma clamp_ge_one (x : number) :
  isNaN x = false -> SFleb one x = true -> clamp x = one.
Proof.
  intros N H. rewrite clamp_eq by exact N. rewrite one_eq in *.
  destruct x as [s|s| |s m e]; try discriminate.
  - destruct s; [discriminate|reflexivity].
  - destruct s; [discriminate|].
    apply leb_finite in H.
    destruct (ltb (S754_finite false m e)
                  (S754_finite false 4503599627370496 (-52))) eqn:E;
      [|reflexivity].
    apply ltb_finite in E. lia.
Qed.

(** A clamp of zero or of a value with a minus sign is zero. *)
Lemma clamp_negative (x : number) :
  isNaN x = false -> isZero x = true \/ signOf x = Some true ->
  clamp x = zero.
Proof.
  intros N H. rewrite clamp_eq by exact N.
  destruct x as [s|s| |s m e]; try discriminate.
  - now destruct s.
  - destruct H as [H|H]; [discriminate|]. now inversion H.
  - destruct H as [H|H]; [discriminate|]. now inversion H.
Qed.

Lemma leb_trans_finite (m1 m2 : positive) (e1 e2 : Z) (x : number) :
  SFleb (S754_finite false m1 e1) (S754_finite false m2 e2) = true ->
  SFleb (S754_finite false m2 e2) x = true ->
  SFleb (S754_finite false m1 e1) x = true.
Proof.
  intros H1 H2. destruct x as [s|s| |s m e]; try discriminate.
  - destruct s; [discriminate|reflexivity].
  - destruct s; [discriminate|].
    apply leb_finite in H1, H2. apply leb_finite. lia.
Qed.

(** A lightness of at least one with a percentage of at most zero is
    clamped to one. *)
Lemma adjustLightness_white (L pv : number) :
  valid_binary prec emax L = true -> wellFormed pv ->
  isFinite L = true -> SFleb one L = true -> SFleb pv zero = true ->
  adjustLightness L pv = one.
Proof.
  intros VL Wp HF H1 Hp. rewrite adjustLightness_clamp.
  destruct L as [s|s| |s mL eL]; try discriminate.
  destruct s; [discriminate|].
  - assert (C : isZero pv = true \/ ltb pv zero = true).
    { destruct pv as [sp|sp| |sp mp ep]; try discriminate; auto;
        destruct sp; try discriminate; auto. }
    rewrite one_eq in H1.
    destruct C as [C|C].
    + destruct pv as [sp| | |]; try discriminate.
      replace (sub (S754_finite false mL eL)
                   (mul (S754_finite false mL eL) (div (S754_zero sp) hundred)))
        with (S754_finite false mL eL) by (now destruct sp).
      apply clamp_ge_one; [reflexivity|now rewrite one_eq].
    + destruct (adjusted_ge mL eL pv VL Wp C) as [N G].
      apply clamp_ge_one; [exact N|]. rewrite one_eq.
      now apply leb_trans_finite with (m2 := mL) (e2 := eL).
Qed.

(** A lightness of zero with a finite percentage stays zero. *)
Lemma adjustLightness_black (s : bool) (pv : number) :
  isFinite pv = true -> wellFormed pv ->
  adjustLightness (S754_zero s) pv = zero.
Proof.
  intros HF W. rewrite adjustLightness_clamp.
  destruct (div_hundred_isFinite pv HF W) as [F _].
  destruct (div pv hundred) as [sf|sf| |sf mf ef]; try discriminate;
    destruct s, sf; reflexivity.
Qed.

(** A rounded positive significand that does not overflow is a finite
    value. *)
Lemma mkFloat_positive (s : bool) (m e : Z) :
  0 < m ->
  mkFloat s m e = S754_infinity s \/
  exists p, mkFloat s m e = S754_finite s p e /\ m = Zpos p.
Proof.
  intros H. destruct m as [|p|p]; try lia. simpl.
  destruct (e <=? 971); [right; now exists p | now left].
Qed.

(** A percentage of at least 100 gives a fraction of at least 1. *)
Lemma div_hundred_ge_one (mp : positive) (ep : Z) :
  valid_binary prec emax (S754_finite false mp ep) = true ->
  SFleb hundred (S754_finite false mp ep) = true ->
  exists mf ef,
    div (S754_finite false mp ep) hundred = S754_finite false mf ef /\
    SFleb one (S754_finite false mf ef) = true.
Proof.
  intros V H.
  destruct (div_hundred_finite false mp ep (valid_wellFormed _ V))
    as (m0 & e0 & E0 & P0 & B0).
  apply valid_canonical in V as [C _].
  rewrite hundred_eq in *. apply leb_finite in H.
  assert (D : Zdigits2 (Zpos mp) = 53) by (unfold fexp64 in C; lia).
  assert (B := Zdigits2_bounds (Zpos mp) ltac:(lia)). rewrite D in B.
  change (2 ^ (53 - 1)) with 4503599627370496 in B.
  change (2 ^ 53) with 9007199254740992 in B.
  destruct (div_spec false false mp 7036874417766400 ep (-46))
    as (q & e' & l & E & Ee & Eq & Hq & Pre).
  cbn [xorb] in E. rewrite D in Ee.
  change (Zdigits2 (Zpos 7036874417766400)) with 53 in Ee.
  assert (Ee' : e' = ep - 7) by (unfold fexp64 in Ee; lia).
  replace (ep - -46 - e') with 53 in Eq by lia.
  change (2 ^ 53) with 9007199254740992 in Eq.
  assert (R : exists m3 e3,
             binary_round_aux prec emax false q e' l = mkFloat false m3 e3 /\
             0 < m3 /\ (-52 < e3 \/ (e3 = -52 /\ 4503599627370496 <= m3))).
  { destruct (Z.eq_dec ep (-46)) as [E46|N46].
    - destruct (binary_round_aux_lower false q e' l 4503599627370496 (-52))
        as (m3 & e3 & R & H3 & Ord); try lia; try reflexivity.
      + replace (-52 - e') with 1 by lia. change (2 ^ 1) with 2.
        rewrite Eq. apply Z.div_le_lower_bound; lia.
      + exists m3, e3. auto.
    - destruct (binary_round_aux_lower false q e' l 4503599627370496 e')
        as (m3 & e3 & R & H3 & Ord); try lia.
      + change (Zdigits2 4503599627370496) with 53. unfold fexp64. lia.
      + rewrite Z.sub_diag, Z.pow_0_r.
        rewrite Eq. apply Z.div_le_lower_bound; lia.
      + exists m3, e3. split; [exact R|]. split; [exact H3|]. lia. }
  destruct R as (m3 & e3 & R & H3 & Ord).
  rewrite E, R in *.
  destruct (mkFloat_positive false m3 e3 H3) as [I|(p & F & Ep)].
  - rewrite I in E0. exfalso.
    destruct m0 as [|p0|p0]; simpl in E0; try discriminate.
    destruct (Z.leb_spec e0 971); [discriminate|lia].
  - rewrite F. exists p, e3. split; [reflexivity|].
    rewrite one_eq. apply leb_finite. lia.
Qed.

(** A valid positive value times a fraction of at least 1 is not below
    the value. *)
Lemma mul_ge (mL mf : positive) (eL ef : Z) :
  valid_binary prec emax (S754_finite false mL eL) = true ->
  valid_binary prec emax (S754_finite false mf ef) = true ->
  SFleb one (S754_finite false mf ef) = true ->
  mul (S754_finite false mL eL) (S754_finite false mf ef)
  = S754_infinity false \/
  exists my ey,
    mul (S754_finite false mL eL) (S754_finite false mf ef)
    = S754_finite false my ey /\
    SFleb (S754_finite false mL eL) (S754_finite false my ey) = true.
Proof.
  intros VL Vf H1.
  apply valid_canonical in VL as [CL _]. apply valid_canonical in Vf as [Cf _].
  rewrite one_eq in H1. apply leb_finite in H1.
  assert (Df : Zdigits2 (Zpos mf) = 53) by (unfold fexp64 in Cf; lia).
  assert (Bf := Zdigits2_bounds (Zpos mf) ltac:(lia)). rewrite Df in Bf.
  change (2 ^ (53 - 1)) with 4503599627370496 in Bf.
  assert (BL := Zdigits2_bounds (Zpos mL) ltac:(lia)).
  assert (PL := Zdigits2_pos (Zpos mL) ltac:(lia)).
  change (mul (S754_finite false mL eL) (S754_finite false mf ef))
    with (binary_round_aux prec emax false (Zpos (mL * mf)) (eL + ef) loc_Exact).
  assert (Pre : eL + ef <= fexp64 (Zdigits2 (Zpos (mL * mf)) + (eL + ef))).
  { assert (D : Zdigits2 (Zpos mL) + 53 - 2 < Zdigits2 (Zpos (mL * mf))).
    { apply Zdigits2_gt; [lia|].
      replace (Zdigits2 (Zpos mL) + 53 - 2)
        with ((Zdigits2 (Zpos mL) - 1) + 52) by lia.
      rewrite pow2_split by lia. rewrite Pos2Z.inj_mul.
      change (2 ^ 52) with 4503599627370496.
      apply Z.mul_le_mono_nonneg; try lia. }
    unfold fexp64 in *. lia. }
  assert (R : exists m3 e3,
             binary_round_aux prec emax false (Zpos (mL * mf)) (eL + ef)
                              loc_Exact = mkFloat false m3 e3 /\
             0 < m3 /\ (eL < e3 \/ (e3 = eL /\ Zpos mL <= m3))).
  { destruct (Z_le_gt_dec ef 0) as [Le|Gt].
    - apply binary_round_aux_lower; try lia.
      replace (eL - (eL + ef)) with (- ef) by lia.
      assert (2 ^ (- ef) <= 2 ^ 52) by (apply Z.pow_le_mono_r; lia).
      change (2 ^ 52) with 4503599627370496 in *.
      rewrite Pos2Z.inj_mul. apply Z.mul_le_mono_nonneg_l; lia.
    - destruct (binary_round_aux_lower false (Zpos (mL * mf)) (eL + ef)
                  loc_Exact 4503599627370496 (eL + ef))
        as (m3 & e3 & R & H3 & Ord); try lia.
      + change (Zdigits2 4503599627370496) with 53. unfold fexp64 in *. lia.
      + rewrite Z.sub_diag, Z.pow_0_r, Pos2Z.inj_mul. nia.
      + exists m3, e3. split; [exact R|]. split; [exact H3|]. lia. }
  destruct R as (m3 & e3 & -> & H3 & Ord).
  destruct (mkFloat_positive false m3 e3 H3) as [I|(p & F & Ep)];
    [now left | right].
  exists p, e3. split; [exact F|]. apply leb_finite. lia.
Qed.

(** Subtracting a valid value that is not below: zero or a value with a
    minus sign. *)
Lemma sub_ge_negative (mL my : positive) (eL ey : Z) :
  valid_binary prec emax (S754_finite false mL eL) = true ->
  valid_binary prec emax (S754_finite false my ey) = true ->
  SFleb (S754_finite false mL eL) (S754_finite false my ey) = true ->
  let x := sub (S754_finite false mL eL) (S754_finite false my ey) in
  isNaN x = false /\ (isZero x = true \/ signOf x = Some true).
Proof.
  intros VL Vy H. apply (leb_value _ _ _ _ VL Vy) in H.
  unfold sub, SFsub. cbn [cond_Zopp].
  set (ez := Z.min eL ey) in *.
  destruct (shl_align_spec mL eL ez) as [_ AL].
  destruct (shl_align_spec my ey ez) as [_ Ay].
  replace (Z.min eL ez) with ez in AL by (unfold ez; lia).
  replace (Z.min ey ez) with ez in Ay by (unfold ez; lia).
  rewrite AL, Ay.
  set (M := Zpos mL * 2 ^ (eL - ez) - Zpos my * 2 ^ (ey - ez)).
  assert (HM : M <= 0) by (unfold M; lia).
  unfold binary_normalize. destruct M as [|mm|mm] eqn:EM; [|lia|].
  - split; [reflexivity | now left].
  - destruct (binary_round_spec true mm ez) as (mz & ez' & -> & _).
    destruct (binary_round_aux_wf true (Zpos mz) ez' loc_Exact ltac:(lia))
      as [NN _].
    split; [exact NN|].
    destruct (binary_round_aux_sign true (Zpos mz) ez' loc_Exact) as [S|S];
      destruct (binary_round_aux prec emax true (Zpos mz) ez' loc_Exact);
      simpl in *; try discriminate; auto.
Qed.

(** A percentage of at least 100 takes every finite lightness to zero. *)
Lemma adjustLightness_floor (L pv : number) :
  valid_binary prec emax L = true -> valid_binary prec emax pv = true ->
  isFinite L = true -> notNegative L ->
  SFleb hundred pv = true ->
  (isZero L = true -> isFinite pv = true) ->
  adjustLightness L pv = zero.
Proof.
  intros VL Vp HF HS Hp Hz.
  destruct L as [s|s| |s mL eL]; try discriminate.
  - apply adjustLightness_black; [now apply Hz | now apply valid_wellFormed].
  - destruct HS as [HS|HS]; [discriminate|]. inversion HS. subst s.
    destruct pv as [sp|sp| |sp mp ep]; try discriminate;
      destruct sp; try discriminate.
    + reflexivity.
    + rewrite adjustLightness_clamp.
      destruct (div_hundred_ge_one mp ep Vp Hp) as (mf & ef & Ef & H1).
      assert (Vf : valid_binary prec emax (S754_finite false mf ef) = true)
        by (rewrite <- Ef; apply div_valid).
      rewrite Ef.
      assert (Vy := mul_valid _ _ VL Vf).
      destruct (mul_ge mL mf eL ef VL Vf H1) as [I|(my & ey & Ey & G)].
      * rewrite I. reflexivity.
      * rewrite Ey in *.
        destruct (sub_ge_negative mL my eL ey VL Vy G) as [N S].
        now apply clamp_negative.
Qed.

(** ** The rounding error of a decimal *)

(** The rounding step moves the significand by less than two units of the
    result, and the exponent of the result is bounded by the magnitude of
    the input. *)
Lemma binary_round_aux_near (s : bool) (m e : Z) (l : location) :
  0 <= m ->
  exists m3 k,
    0 <= k /\ 0 <= m3 /\
    binary_round_aux prec emax s m e l = mkFloat s m3 (e + k) /\
    m - 2 * 2 ^ k < m3 * 2 ^ k <= m + 2 ^ k /\
    e + k <= Z.max e (fexp64 (Zdigits2 m + e + 1)).
Proof.
  intros Hm.
  destruct (binary_round_aux_spec s m e l Hm)
    as (n1 & m2 & n2 & E1 & C2 & E2 & ->).
  assert (N1 : 0 <= n1) by lia. assert (N2 : 0 <= n2) by lia.
  assert (P1 : 0 < 2 ^ n1) by (apply pow2_pos; lia).
  assert (P2 : 0 < 2 ^ n2) by (apply pow2_pos; lia).
  assert (H1 : 0 <= m / 2 ^ n1) by (apply Z.div_pos; lia).
  assert (H2 : 0 <= m2) by lia.
  assert (H3 : 0 <= m2 / 2 ^ n2) by (apply Z.div_pos; lia).
  exists (m2 / 2 ^ n2), (n1 + n2).
  split; [lia|]. split; [exact H3|].
  split; [f_equal; lia|].
  assert (D1 := Z.div_mod m (2 ^ n1) ltac:(lia)).
  assert (R1 := Z.mod_pos_bound m (2 ^ n1) P1).
  assert (D2 := Z.div_mod m2 (2 ^ n2) ltac:(lia)).
  assert (R2 := Z.mod_pos_bound m2 (2 ^ n2) P2).
  set (m1 := m / 2 ^ n1) in *. set (m3 := m2 / 2 ^ n2) in *.
  set (r1 := m mod 2 ^ n1) in *. set (r2 := m2 mod 2 ^ n2) in *.
  split.
  - rewrite pow2_split by lia.
    set (A := 2 ^ n1) in *. set (B := 2 ^ n2) in *.
    assert (E3 : m3 * (A * B) = (m2 - r2) * A) by nia.
    rewrite E3. split; nia.
  - assert (G := fexp64_ge (Zdigits2 m + e)).
    assert (Dm1 : Zdigits2 m1 = Z.max 0 (Zdigits2 m - n1))
      by (apply Zdigits2_div_pow; lia).
    assert (S1 := Zdigits2_succ m1 H1).
    assert (Dm2 : Zdigits2 m2 <= Zdigits2 m1 + 1).
    { destruct C2 as [->| ->]; [lia | exact S1]. }
    assert (Q := Zdigits2_nonneg m).
    unfold fexp64 in *. lia.
Qed.

(** The Number of a decimal with four fraction digits, below [10^10],
    prints back as that decimal. *)
Lemma ofDecimal_fixedInteger (p : positive) :
  Zpos p <= 10 ^ 14 ->
  exists m3 e3,
    ofDecimal false (Zpos p) (-4) = S754_finite false m3 e3 /\
    e3 <= -16 /\
    (2 * Zpos p - 1) * 2 ^ (- e3) <= 2 * 10000 * Zpos m3
      < (2 * Zpos p + 1) * 2 ^ (- e3).
Proof.
  intros Hn.
  change (10 ^ 14) with 100000000000000 in Hn.
  unfold ofDecimal.
  change (Z.to_pos (10 ^ Z.max (-4) 0)) with 1%positive.
  change (Z.to_pos (10 ^ Z.max (- -4) 0)) with 10000%positive.
  rewrite Pos.mul_1_r.
  destruct (div_spec false false p 10000 0 0)
    as (q & e' & l & -> & Ee & Eq & Hq & Pre).
  cbn [xorb]. set (n := Zpos p) in *.
  change (Zdigits2 (Zpos 10000)) with 14 in Ee.
  rewrite !Z.add_0_r, Z.sub_diag in Ee.
  assert (Dn : Zdigits2 n <= 47).
  { apply Zdigits2_le; [lia|]. change (2 ^ 47) with 140737488355328. lia. }
  assert (Pn := Zdigits2_pos n ltac:(lia)).
  assert (He' : e' <= -20) by (unfold fexp64 in Ee; lia).
  set (sh := - e').
  replace (0 - 0 - e') with sh in Eq by (unfold sh; lia).
  assert (Hs : 20 <= sh) by (unfold sh; lia).
  assert (Ps : 0 < 2 ^ sh) by (apply pow2_pos; lia).
  (* the quotient *)
  assert (DQ := Z.div_mod (n * 2 ^ sh) 10000 ltac:(lia)).
  assert (RQ := Z.mod_pos_bound (n * 2 ^ sh) 10000 ltac:(lia)).
  rewrite <- Eq in DQ.
  assert (Q1 : 10000 * q <= n * 2 ^ sh < 10000 * (q + 1)) by lia.
  (* its digits *)
  assert (Dq : Zdigits2 q <= 34 + sh).
  { apply Zdigits2_le; [lia|]. split; [exact Hq|].
    rewrite pow2_split by lia. change (2 ^ 34) with 17179869184. nia. }
  destruct (binary_round_aux_near false q e' l Hq)
    as (m3 & k & Hk & H3 & -> & [Lo Hi] & Ex).
  assert (E3 : e' + k <= -18) by (unfold fexp64 in Ex; lia).
  set (e3 := e' + k) in *.
  assert (Pk : 0 < 2 ^ k) by (apply pow2_pos; lia).
  assert (Split : 2 ^ sh = 2 ^ (- e3) * 2 ^ k).
  { rewrite <- pow2_split by (unfold e3, sh in *; lia).
    f_equal. unfold e3, sh. lia. }
  assert (PD : 2 ^ 18 <= 2 ^ (- e3)) by (apply Z.pow_le_mono_r; lia).
  change (2 ^ 18) with 262144 in PD.
  set (D := 2 ^ (- e3)) in *. set (T := 2 ^ k) in *.
  rewrite Split in Q1.
  assert (Up : 2 * 10000 * m3 < (2 * n + 1) * D).
  { apply Z.mul_lt_mono_pos_r with T; [exact Pk|]. nia. }
  assert (Dn' : (2 * n - 1) * D <= 2 * 10000 * m3).
  { apply Z.mul_le_mono_pos_r with T; [exact Pk|]. nia. }
  assert (M3 : 0 < m3) by nia.
  destruct m3 as [|p3|p3]; try lia.
  exists p3, e3. split.
  - simpl. destruct (Z.leb_spec e3 971); [reflexivity|lia].
  - split; [lia|]. split; assumption.
Qed.

(** ** Strict changes of the lightness *)














(** ** The clamp to [0, 1] *)







(** ** Any percentage argument *)

(** The function on a text that matches, for any argument: the conversion
    of the percentage, then the text. *)
Lemma adjust_match_argument look name (a : argument) t x b c :
  String_match (trim (look name)) oklchRegex = Some [t; x; b; c] ->
  adjustOklchLightness look name a =
  (s <- ToString_argument a ;;
   ret (Some (formatOklch
                (adjustLightness (parseFloat (JString x))
                                 (parseFloat (JString s)))
                (parseFloat (JString b)) (parseFloat (JString c))))).
Proof.
  intros H. unfold adjustOklchLightness, parseFloat_argument. rewrite H.
  destruct (ToString_argument a) as [[s|e] out]; [|reflexivity].
  unfold bind, ret, lift. cbv beta iota.
  rewrite !toFixed_4. cbv beta iota. now rewrite !app_nil_r.
Qed.

(* ================================================================== *)
(** * Properties of the function *)

(** ** The scenarios of the specification *)

Example scenario_1 :
  adjustOklchLightness (fun _ => js "oklch(0.7 0.15 250)") (js "--c")
                       (JNumber (ofZ 10))
  = (Normal (Some (js "oklch(0.6300 0.1500 250.0000)")), []).
Proof. vm_compute. reflexivity. Qed.

Example scenario_2 :
  adjustOklchLightness (fun _ => js "  oklch(0.5 0.1 30)  ") (js "--c")
                       (JNumber (ofZ (-20)))
  = (Normal (Some (js "oklch(0.6000 0.1000 30.0000)")), []).
Proof. vm_compute. reflexivity. Qed.

Example scenario_3 :
  adjustOklchLightness (fun _ => js "rgb(255,0,0)") (js "--c")
                       (JNumber (ofZ 10))
  = (Normal None, [diagnostic (js "--c")]).
Proof. vm_compute. reflexivity. Qed.

Example scenario_4 :
  adjustOklchLightness (fun _ => js "oklch(0.9 0.2 10)") (js "--c")
                       (JNumber (ofZ 1000))
  = (Normal (Some (js "oklch(0.0000 0.2000 10.0000)")), []).
Proof. vm_compute. reflexivity. Qed.

Example scenario_5 :
  adjustOklchLightness (fun _ => js "oklch(0.1 0.05 5)") (js "--c")
                       (JString (js "-500"))
  = (Normal (Some (js "oklch(0.6000 0.0500 5.0000)")), []).
Proof. vm_compute. reflexivity. Qed.

(** The decimal [0.1] is the binary64 value [0x3FB999999999999A]; [1e23]
    rounds down; a tie goes to the even significand. *)
Example decimal_tenth :
  parseFloat (JString (js "0.1")) = S754_finite false 7205759403792794 (-56).
Proof. vm_compute. reflexivity. Qed.

Example decimal_1e23 :
  Number_toString (parseFloat (JString (js "100000000000000000000000")))
  = js "1e+23"
  /\ parseFloat (JString (js "1e23")) = S754_finite false 5960464477539062 24.
Proof. vm_compute. split; reflexivity. Qed.

Example decimal_tie :
  parseFloat (JString (js "9007199254740993"))
  = parseFloat (JString (js "9007199254740992")).
Proof. vm_compute. reflexivity. Qed.

(* ------------------------------------------------------------------ *)
(** ** C1: the result on a well-formed text *)






(* ------------------------------------------------------------------ *)
(** ** C2: the clamp bounds *)

(** C2, as stated, fails: with lightness 0 and the percentage [Infinity],
    which is numeric and not NaN, the product [0 * Infinity] is NaN and the
    lightness component of the output is the text [NaN]. *)
Lemma C2_counterexample :
  parseFloat (JString (js "0")) = zero /\
  isNaN (parseFloat (JNumber (S754_infinity false))) = false /\
  adjustOklchLightness (fun _ => js "oklch(0 0.1 30)") (js "--c")
                       (JNumber (S754_infinity false))
  = (Normal (Some (js "oklch(NaN 0.1000 30.0000)")), []).
Proof. vm_compute. repeat split. Qed.

(** C2, amended.  For every parsed sample with a finite lightness and every
    percentage that coerces to a number (not NaN), finite when the lightness
    is zero, the lightness component of the output is the four-decimal text
    of [n / 10000] for an integer [n] with [0 <= n <= 10000]: it denotes a
    number within [0, 1]. *)
Theorem C2_clamp_bounds :
  forall (look : jsstring -> jsstring) (name : jsstring) (p : jsvalue)
         (m : list jsstring),
    String_match (trim (look name)) oklchRegex = Some m ->
    isFinite (parseFloat (item m 1)) = true ->
    isNaN (parseFloat p) = false ->
    (isZero (parseFloat (item m 1)) = true -> isFinite (parseFloat p) = true) ->
    exists (n : Z) (cs hs : jsstring),
      0 <= n <= 10000 /\
      toFixed (parseFloat (item m 2)) 4 = Normal cs /\
      toFixed (parseFloat (item m 3)) 4 = Normal hs /\
      adjustOklchLightness look name p =
      (Normal (Some (js "oklch(" ++ fixedDigits n 4 ++ js " " ++ cs ++ js " "
                        ++ hs ++ js ")")), []).
Proof.
  intros look name p m E HL Hp Hz.
  destruct (match_array _ _ E) as (t & a & b & c & -> & _).
  cbn [item nth_error] in *.
  rewrite (adjust_match _ _ p _ _ _ _ E), adjustLightness_clamp.
  set (x := sub _ _).
  assert (N : isNaN x = false)
    by (apply adjusted_not_nan; auto using parseFloat_wellFormed).
  assert (W : wellFormed x)
    by (apply sub_wellFormed; auto using parseFloat_wellFormed, mul_wellFormed).
  destruct (clamp_prints x N W) as (n & B & F).
  exists n, (fixed4 (parseFloat (JString b))), (fixed4 (parseFloat (JString c))).
  split; [exact B|]. split; [reflexivity|]. split; [reflexivity|].
  unfold formatOklch. now rewrite F.
Qed.

Lemma C2_clamp_bounds_witness :
  exists (n : Z) (cs hs : jsstring),
    0 <= n <= 10000 /\
    toFixed (parseFloat (item (map js ["oklch(0.9 0.2 10)"; "0.9"; "0.2"; "10"]%string) 2)) 4
      = Normal cs /\
    toFixed (parseFloat (item (map js ["oklch(0.9 0.2 10)"; "0.9"; "0.2"; "10"]%string) 3)) 4
      = Normal hs /\
    adjustOklchLightness (fun _ => js "oklch(0.9 0.2 10)") (js "--c")
                         (JNumber (ofZ 1000)) =
    (Normal (Some (js "oklch(" ++ fixedDigits n 4 ++ js " " ++ cs ++ js " "
                      ++ hs ++ js ")")), []).
Proof.
  apply (C2_clamp_bounds (fun _ => js "oklch(0.9 0.2 10)") (js "--c")
                         (JNumber (ofZ 1000))).
  - vm_compute. reflexivity.
  - vm_compute. reflexivity.
  - vm_compute. reflexivity.
  - vm_compute. discriminate.
Defined.

(* ------------------------------------------------------------------ *)
(** ** C3: when the result is [null] *)

(** C3, as stated, fails: ["not-oklch(0.5 0.1 30)"] is not of the form (the
    function name is wrong), yet the result is a string and not [null]. *)
Lemma C3_counterexample :
  ~ specForm (trim (js "not-oklch(0.5 0.1 30)")) /\
  adjustOklchLightness (fun _ => js "not-oklch(0.5 0.1 30)") (js "--c")
                       (JNumber (ofZ 10))
  = (Normal (Some (js "oklch(0.4500 0.1000 30.0000)")), []).
Proof.
  split.
  - intros (a & b & c & L & C & H & Hs & _).
    apply shaped_ends in Hs as [u Hu]. vm_compute in Hu. discriminate Hu.
  - vm_compute. reflexivity.
Qed.

(** C3, amended.  The function returns [null] exactly when the trimmed text
    has no part of the shape [oklch( run run run )] anywhere inside it, a
    run being one or more digits and points; in that case it logs the
    diagnostic. *)
Theorem C3_null_iff_no_match :
  forall (look : jsstring -> jsstring) (name : jsstring) (p : jsvalue),
    (result (adjustOklchLightness look name p) = Normal None
     <-> ~ containsOklch (trim (look name)))
    /\
    (~ containsOklch (trim (look name)) ->
     adjustOklchLightness look name p = (Normal None, [diagnostic name])).
Proof.
  intros look name p.
  assert (N : ~ containsOklch (trim (look name)) ->
              adjustOklchLightness look name p = (Normal None, [diagnostic name])).
  { intros H. apply exec_none_iff in H. now apply adjust_null. }
  split; [split|exact N].
  - intros R H. apply exec_complete in H as [m E].
    destruct (match_array _ _ E) as (t & a & b & c & -> & _).
    rewrite (adjust_match _ _ p _ _ _ _ E) in R. discriminate R.
  - intros H. now rewrite (N H).
Qed.

Lemma no_oklch_in_rgb : ~ containsOklch (trim (js "rgb(255,0,0)")).
Proof. apply exec_none_iff. vm_compute. reflexivity. Qed.

Lemma C3_null_iff_no_match_witness :
  ~ containsOklch (trim (js "rgb(255,0,0)")) /\
  adjustOklchLightness (fun _ => js "rgb(255,0,0)") (js "--c") (JNumber (ofZ 10))
  = (Normal None, [diagnostic (js "--c")]).
Proof.
  split; [exact no_oklch_in_rgb|].
  apply (proj2 (C3_null_iff_no_match (fun _ => js "rgb(255,0,0)") (js "--c")
                                     (JNumber (ofZ 10)))).
  exact no_oklch_in_rgb.
Defined.

(* ------------------------------------------------------------------ *)
(** ** C4: the sign convention *)




(* ------------------------------------------------------------------ *)
(** ** C5: percentage zero, and the other two components *)

(** C5, as stated, fails: ["oklch(2 0.1 30)"] parses, and with percentage 0
    its lightness 2, which prints as [2.0000], comes out as [1.0000]. *)
Lemma C5_counterexample :
  isZero (parseFloat (JNumber (ofZ 0))) = true /\
  toFixed (parseFloat (JString (js "2"))) 4 = Normal (js "2.0000") /\
  adjustOklchLightness (fun _ => js "oklch(2 0.1 30)") (js "--c")
                       (JNumber (ofZ 0))
  = (Normal (Some (js "oklch(1.0000 0.1000 30.0000)")), []).
Proof. vm_compute. repeat split. Qed.

Lemma adjustLightness_zero (L pv : number) :
  isZero pv = true -> isFinite L = true -> notNegative L ->
  SFleb L one = true -> adjustLightness L pv = L.
Proof.
  intros Hz HF HS H1.
  destruct pv as [sp| | |]; try discriminate.
  destruct L as [s|s| |s m e]; try discriminate;
    (destruct HS as [HS|HS]; [discriminate|]); inversion HS; subst s.
  - now destruct sp.
  - rewrite adjustLightness_clamp.
    replace (sub (S754_finite false m e)
                 (mul (S754_finite false m e) (div (S754_zero sp) hundred)))
      with (S754_finite false m e) by (now destruct sp).
    rewrite clamp_eq by reflexivity.
    rewrite one_eq in *.
    destruct (ltb (S754_finite false m e)
                  (S754_finite false 4503599627370496 (-52))) eqn:E.
    + reflexivity.
    + apply leb_finite in H1.
      destruct H1 as [H1|[-> H1]].
      * assert (T : ltb (S754_finite false m e)
                        (S754_finite false 4503599627370496 (-52)) = true)
          by (apply ltb_finite; lia).
        congruence.
      * destruct (Z_lt_le_dec (Zpos m) 4503599627370496) as [B|B].
        -- assert (T : ltb (S754_finite false m (-52))
                          (S754_finite false 4503599627370496 (-52)) = true)
             by (apply ltb_finite; lia).
           congruence.
        -- f_equal. lia.
Qed.

(** C5, amended.  For every parsed sample and every percentage the chroma
    and hue components of the output are the [toFixed(4)] texts of the
    parsed chroma and hue; and when the percentage is 0 and the parsed
    lightness is finite and at most 1, the lightness component is the
    [toFixed(4)] text of the parsed lightness. *)
Theorem C5_zero_and_passthrough :
  forall (look : jsstring -> jsstring) (name : jsstring) (p : jsvalue)
         (m : list jsstring),
    String_match (trim (look name)) oklchRegex = Some m ->
    exists ls cs hs : jsstring,
      toFixed (parseFloat (item m 2)) 4 = Normal cs /\
      toFixed (parseFloat (item m 3)) 4 = Normal hs /\
      adjustOklchLightness look name p =
      (Normal (Some (js "oklch(" ++ ls ++ js " " ++ cs ++ js " " ++ hs
                        ++ js ")")), []) /\
      (isZero (parseFloat p) = true ->
       isFinite (parseFloat (item m 1)) = true ->
       SFleb (parseFloat (item m 1)) one = true ->
       toFixed (parseFloat (item m 1)) 4 = Normal ls).
Proof.
  intros look name p m E.
  destruct (match_array _ _ E) as (t & a & b & c & -> & Ha & _).
  cbn [item nth_error] in *.
  rewrite (adjust_match _ _ p _ _ _ _ E).
  exists (fixed4 (adjustLightness (parseFloat (JString a)) (parseFloat p))),
    (fixed4 (parseFloat (JString b))), (fixed4 (parseFloat (JString c))).
  split; [reflexivity|]. split; [reflexivity|]. split; [reflexivity|].
  intros Hz HF H1. rewrite toFixed_4. f_equal. f_equal. symmetry.
  apply adjustLightness_zero; auto. now apply parseFloat_run_sign.
Qed.

Lemma C5_zero_and_passthrough_witness :
  exists ls cs hs : jsstring,
    toFixed (parseFloat (item (map js ["oklch(0.7 0.15 250)"; "0.7"; "0.15"; "250"]%string) 2)) 4
      = Normal cs /\
    toFixed (parseFloat (item (map js ["oklch(0.7 0.15 250)"; "0.7"; "0.15"; "250"]%string) 3)) 4
      = Normal hs /\
    adjustOklchLightness (fun _ => js "oklch(0.7 0.15 250)") (js "--c")
                         (JNumber (ofZ 0)) =
    (Normal (Some (js "oklch(" ++ ls ++ js " " ++ cs ++ js " " ++ hs
                      ++ js ")")), []) /\
    toFixed (parseFloat (item (map js ["oklch(0.7 0.15 250)"; "0.7"; "0.15"; "250"]%string) 1)) 4
      = Normal ls.
Proof.
  destruct (C5_zero_and_passthrough
              (fun _ => js "oklch(0.7 0.15 250)") (js "--c") (JNumber (ofZ 0))
              (map js ["oklch(0.7 0.15 250)"; "0.7"; "0.15"; "250"]%string))
    as (ls & cs & hs & Hc & Hh & Ho & Hl).
  - vm_compute. reflexivity.
  - exists ls, cs, hs. repeat split; try assumption.
    apply Hl; vm_compute; reflexivity.
Defined.

(* ------------------------------------------------------------------ *)
(** ** C6: the shape of the output *)

(** C6, as stated, fails: a chroma of [10^21] is a valid sample, and
    [toFixed] prints it in exponent notation. *)
Lemma C6_counterexample :
  ltb (parseFloat (JString (js "0.5"))) one = true /\
  adjustOklchLightness
    (fun _ => js "oklch(0.5 1000000000000000000000 30)") (js "--c")
    (JNumber (ofZ 10))
  = (Normal (Some (js "oklch(0.4500 1e+21 30.0000)")), []) /\
  outputShape (js "oklch(0.4500 1e+21 30.0000)") = false.
Proof. vm_compute. repeat split. Qed.

(** C6, amended.  Whenever the text matches, the adjusted lightness is not
    NaN and the parsed chroma and hue are finite and below [10^21], the
    function returns a string of the shape
    [oklch(<number> <number> <number>)] in which each number has
    exactly four digits after the decimal point. *)
Theorem C6_output_shape :
  forall (look : jsstring -> jsstring) (name : jsstring) (p : jsvalue)
         (m : list jsstring),
    String_match (trim (look name)) oklchRegex = Some m ->
    isNaN (adjustLightness (parseFloat (item m 1)) (parseFloat p)) = false ->
    fixedRange (parseFloat (item m 2)) = true ->
    fixedRange (parseFloat (item m 3)) = true ->
    exists out : jsstring,
      adjustOklchLightness look name p = (Normal (Some out), []) /\
      outputShape out = true.
Proof.
  intros look name p m E HN HC HH.
  destruct (match_array _ _ E) as (t & a & b & c & -> & Ha & Hb & Hc).
  cbn [item nth_error] in *.
  rewrite (adjust_match _ _ p _ _ _ _ E).
  eexists. split; [reflexivity|].
  unfold formatOklch. apply outputShape_intro.
  - rewrite adjustLightness_clamp in *.
    set (x := sub _ _) in *.
    assert (N : isNaN x = false) by now apply clamp_nan.
    assert (W : wellFormed x)
      by (apply sub_wellFormed; auto using parseFloat_wellFormed, mul_wellFormed).
    destruct (clamp_prints x N W) as (n & _ & ->).
    apply fixedDigits_isFixed4.
  - apply fixed4_isFixed4; [exact HC|].
    destruct (parseFloat_run_sign b Hb) as [S|S]; [|exact S].
    destruct (parseFloat (JString b)); discriminate.
  - apply fixed4_isFixed4; [exact HH|].
    destruct (parseFloat_run_sign c Hc) as [S|S]; [|exact S].
    destruct (parseFloat (JString c)); discriminate.
Qed.

Lemma C6_output_shape_witness :
  exists out : jsstring,
    adjustOklchLightness (fun _ => js "oklch(0.1 0.05 5)") (js "--c")
                         (JNumber (ofZ (-500)))
    = (Normal (Some out), []) /\
    outputShape out = true.
Proof.
  apply (C6_output_shape (fun _ => js "oklch(0.1 0.05 5)") (js "--c")
                         (JNumber (ofZ (-500)))
                         (map js ["oklch(0.1 0.05 5)"; "0.1"; "0.05"; "5"]%string)).
  - vm_compute. reflexivity.
  - vm_compute. reflexivity.
  - vm_compute. reflexivity.
  - vm_compute. reflexivity.
Defined.

(* ------------------------------------------------------------------ *)
(** ** C7: no exception *)

(** C7, as stated, fails: the percentage argument may be any value, and
    when the text matches, [parseFloat] converts it to a string, which for
    a Symbol throws a TypeError. *)
Lemma C7_counterexample :
  adjustOklchLightness (fun _ => js "oklch(0.5 0.1 30)") (js "--c") ASymbol
  = (Throw TypeError, []).
Proof. vm_compute. reflexivity. Qed.

(** C7, amended.  The call completes normally, with a string or [null],
    for every percentage that is [undefined], a number or a string, and
    more generally for every argument whose conversion to a string
    completes normally ([null], Booleans and BigInts always do); for any
    argument at all, a text that does not match gives [null] and the
    diagnostic, the percentage not being converted; and when the text
    matches and the conversion of the percentage throws, the call throws
    the same. *)
Theorem C7_never_throws :
  (forall (look : jsstring -> jsstring) (name : jsstring) (p : jsvalue),
   exists r : option jsstring,
     result (adjustOklchLightness look name p) = Normal r) /\
  (forall (look : jsstring -> jsstring) (name : jsstring) (a : argument)
          (s : jsstring) (out : list jsstring),
      ToString_argument a = (Normal s, out) ->
      exists r : option jsstring,
        result (adjustOklchLightness look name a) = Normal r) /\
  (forall (look : jsstring -> jsstring) (name : jsstring) (a : argument),
      match a with
      | ASymbol | AnObject _ => True
      | _ => exists r : option jsstring,
               result (adjustOklchLightness look name a) = Normal r
      end) /\
  (forall (look : jsstring -> jsstring) (name : jsstring) (a : argument),
      String_match (trim (look name)) oklchRegex = None ->
      adjustOklchLightness look name a = (Normal None, [diagnostic name])) /\
  (forall (look : jsstring -> jsstring) (name : jsstring) (a : argument)
          (m : list jsstring) (e : error) (out : list jsstring),
      String_match (trim (look name)) oklchRegex = Some m ->
      ToString_argument a = (Throw e, out) ->
      adjustOklchLightness look name a = (Throw e, out)).
Proof.
  assert (G : forall look name (a : argument) s out,
             ToString_argument a = (Normal s, out) ->
             exists r : option jsstring,
               result (adjustOklchLightness look name a) = Normal r).
  { intros look name a s out Hs.
    destruct (String_match (trim (look name)) oklchRegex) as [m|] eqn:E.
    - destruct (match_array _ _ E) as (t & x & b & c & -> & _).
      rewrite (adjust_match_argument _ _ a _ _ _ _ E), Hs. now eexists.
    - rewrite (adjust_null _ _ a E). now eexists. }
  split; [|split; [exact G|split; [|split]]].
  - intros look name p. now apply (G look name p (ToString p) []).
  - intros look name a. destruct a; try exact I; eapply G; reflexivity.
  - intros look name a E. now apply adjust_null.
  - intros look name a m e out E He.
    destruct (match_array _ _ E) as (t & x & b & c & -> & _).
    now rewrite (adjust_match_argument _ _ a _ _ _ _ E), He.
Qed.

Lemma C7_never_throws_witness :
  (exists r : option jsstring,
     result (adjustOklchLightness (fun _ => js "oklch(0.5 0.1 30)")
                                  (js "--c") (ABigInt 10)) = Normal r) /\
  adjustOklchLightness (fun _ => js "rgb(255,0,0)") (js "--c") ASymbol
  = (Normal None, [diagnostic (js "--c")]) /\
  adjustOklchLightness (fun _ => js "oklch(0.5 0.1 30)") (js "--c")
                       (AnObject (Throw (UserThrown (js "no")), [js "called"]))
  = (Throw (UserThrown (js "no")), [js "called"]).
Proof.
  destruct C7_never_throws as (_ & H2 & _ & H4 & H5).
  split; [|split].
  - apply (H2 _ _ (ABigInt 10) (js "10") []). reflexivity.
  - apply H4. vm_compute. reflexivity.
  - apply (H5 _ _ _ (map js ["oklch(0.5 0.1 30)"; "0.5"; "0.1"; "30"]%string)).
    + vm_compute. reflexivity.
    + reflexivity.
Defined.

(* ------------------------------------------------------------------ *)
(** ** C8: a percentage that is not a number *)

Lemma mul_nan (x : number) : mul x NaN = NaN.
Proof. now destruct x. Qed.

Lemma sub_nan (x : number) : sub x NaN = NaN.
Proof. now destruct x. Qed.

Lemma adjustLightness_nan (L pv : number) :
  isNaN pv = true -> adjustLightness L pv = NaN.
Proof.
  destruct pv; try discriminate. intros _.
  unfold adjustLightness.
  change (div S754_nan hundred) with NaN.
  now rewrite mul_nan, sub_nan.
Qed.

(** C8.  When the text matches and the percentage argument coerces to NaN,
    the function does not fail: it returns a string whose lightness
    component is the text [NaN], with chroma and hue printed by
    [toFixed(4)] as usual. *)
Theorem C8_nan_percentage :
  forall (look : jsstring -> jsstring) (name : jsstring) (p : jsvalue)
         (m : list jsstring),
    String_match (trim (look name)) oklchRegex = Some m ->
    isNaN (parseFloat p) = true ->
    exists cs hs : jsstring,
      toFixed (parseFloat (item m 2)) 4 = Normal cs /\
      toFixed (parseFloat (item m 3)) 4 = Normal hs /\
      adjustOklchLightness look name p =
      (Normal (Some (js "oklch(" ++ js "NaN" ++ js " " ++ cs ++ js " " ++ hs
                        ++ js ")")), []).
Proof.
  intros look name p m E Hp.
  destruct (match_array _ _ E) as (t & a & b & c & -> & _).
  rewrite (adjust_match _ _ p _ _ _ _ E).
  rewrite (adjustLightness_nan _ _ Hp).
  exists (fixed4 (parseFloat (JString b))), (fixed4 (parseFloat (JString c))).
  repeat split.
Qed.

Lemma C8_nan_percentage_witness :
  exists cs hs : jsstring,
    toFixed (parseFloat (item (map js ["oklch(0.5 0.1 30)"; "0.5"; "0.1"; "30"]%string) 2)) 4
      = Normal cs /\
    toFixed (parseFloat (item (map js ["oklch(0.5 0.1 30)"; "0.5"; "0.1"; "30"]%string) 3)) 4
      = Normal hs /\
    adjustOklchLightness (fun _ => js "oklch(0.5 0.1 30)") (js "--c")
                         (JString (js "ten"))
    = (Normal (Some (js "oklch(" ++ js "NaN" ++ js " " ++ cs ++ js " " ++ hs
                        ++ js ")")), []).
Proof.
  apply (C8_nan_percentage (fun _ => js "oklch(0.5 0.1 30)") (js "--c")
                           (JString (js "ten"))).
  - vm_compute. reflexivity.
  - vm_compute. reflexivity.
Defined.

(* ------------------------------------------------------------------ *)
(** ** C9: the parsed sample and the data model *)

(** C9, as stated, fails: ["oklch(2 0.1 720)"] yields a parsed sample with
    lightness 2 (above 1) and hue 720 (not below 360), and the function
    returns a string for it. *)
Lemma C9_counterexample :
  String_match (trim (js "oklch(2 0.1 720)")) oklchRegex
  = Some (map js ["oklch(2 0.1 720)"; "2"; "0.1"; "720"]%string) /\
  ltb one (parseFloat (JString (js "2"))) = true /\
  ltb (parseFloat (JString (js "720"))) (ofZ 360) = false /\
  adjustOklchLightness (fun _ => js "oklch(2 0.1 720)") (js "--c")
                       (JNumber (ofZ 0))
  = (Normal (Some (js "oklch(1.0000 0.1000 720.0000)")), []).
Proof. vm_compute. repeat split. Qed.

(** C9, amended.  Every successfully parsed sample has three components
    that are each NaN or not negative (the expression admits no sign); no
    upper bound is enforced on any of them. *)
Theorem C9_sample_not_negative :
  forall (s : jsstring) (m : list jsstring),
    String_match s oklchRegex = Some m ->
    notNegative (parseFloat (item m 1)) /\
    notNegative (parseFloat (item m 2)) /\
    notNegative (parseFloat (item m 3)).
Proof.
  intros s m E.
  destruct (match_array _ _ E) as (t & a & b & c & -> & Ha & Hb & Hc).
  cbn [item nth_error]. unfold notNegative.
  auto using parseFloat_run_sign.
Qed.

Lemma C9_sample_not_negative_witness :
  notNegative (parseFloat (item (map js ["oklch(2 0.1 720)"; "2"; "0.1"; "720"]%string) 1)) /\
  notNegative (parseFloat (item (map js ["oklch(2 0.1 720)"; "2"; "0.1"; "720"]%string) 2)) /\
  notNegative (parseFloat (item (map js ["oklch(2 0.1 720)"; "2"; "0.1"; "720"]%string) 3)).
Proof.
  apply (C9_sample_not_negative (js "oklch(2 0.1 720)")).
  vm_compute. reflexivity.
Defined.

(* ------------------------------------------------------------------ *)
(** ** C10: the expression is not anchored *)

(** C10.  When the looked-up string contains, anywhere inside it, a part of
    the shape [oklch( run run run )], the function returns a string, not
    [null], whatever surrounds that part: the expression is not anchored. *)
Theorem C10_unanchored :
  forall (look : jsstring -> jsstring) (name : jsstring) (p : jsvalue),
    containsOklch (look name) ->
    exists out : jsstring,
      adjustOklchLightness look name p = (Normal (Some out), []).
Proof.
  intros look name p H.
  apply trim_contains, exec_complete in H as [m E].
  destruct (match_array _ _ E) as (t & a & b & c & -> & _).
  rewrite (adjust_match _ _ p _ _ _ _ E). eauto.
Qed.

Lemma contains_not_oklch : containsOklch (js "not-oklch(0.5 0.1 30)").
Proof.
  exists (js "not-"), (js "oklch(0.5 0.1 30)"), [], (js "0.5"), (js "0.1"),
    (js "30").
  split; [reflexivity|].
  exists [], (js " "), (js " "), [].
  repeat split; try reflexivity; discriminate.
Qed.

Lemma C10_unanchored_witness :
  containsOklch (js "not-oklch(0.5 0.1 30)") /\
  exists out : jsstring,
    adjustOklchLightness (fun _ => js "not-oklch(0.5 0.1 30)") (js "--c")
                         (JNumber hundred)
    = (Normal (Some out), []).
Proof.
  split; [exact contains_not_oklch|].
  apply (C10_unanchored (fun _ => js "not-oklch(0.5 0.1 30)") (js "--c")
                        (JNumber hundred)).
  exact contains_not_oklch.
Defined.

(* ================================================================== *)
(** * Further properties of the function *)
(* ================================================================== *)

(** ** White space around the text *)

Lemma dropWhile_skip (p : char16 -> bool) (l x : jsstring) :
  forallb p l = true -> dropWhile p (l ++ x) = dropWhile p x.
Proof.
  induction l as [|c l IH]; simpl; [reflexivity|].
  intros H. apply andb_prop in H as [-> H]. now apply IH.
Qed.

(** A text is its trimmed text between two runs of white space. *)
Lemma trim_decompose (s : jsstring) :
  exists l r, s = l ++ trim s ++ r /\ spaces l /\ spaces r.
Proof.
  exists (takeWhile isWhiteSpace s),
    (rev (takeWhile isWhiteSpace (rev (trimStart s)))).
  split; [|split].
  - unfold trim, trimEnd.
    rewrite <- rev_app_distr, takeWhile_dropWhile, rev_involutive.
    unfold trimStart. now rewrite takeWhile_dropWhile.
  - apply takeWhile_all.
  - unfold spaces. rewrite forallb_rev. apply takeWhile_all.
Qed.

Lemma scanHere_space (c : char16) (x : jsstring) :
  isWhiteSpace c = true -> scanHere (c :: x) = None.
Proof.
  intros H. unfold scanHere. cbn [js stripPrefix]. unfold char16_eqb.
  destruct (N.eqb_spec (N_of_ascii "o") c) as [E|E]; [|reflexivity].
  subst c. discriminate H.
Qed.

Lemma exec_skip_spaces (l x : jsstring) :
  spaces l -> exec oklchRegex (l ++ x) = exec oklchRegex x.
Proof.
  unfold spaces. induction l as [|c l IH]; simpl app; [reflexivity|].
  intros H. simpl in H. apply andb_prop in H as [Hc Hl].
  rewrite exec_scan, (scanHere_space c _ Hc). now apply IH.
Qed.

Lemma exec_spaces (r : jsstring) : spaces r -> exec oklchRegex r = None.
Proof.
  intros H. rewrite <- (app_nil_r r), (exec_skip_spaces r [] H).
  reflexivity.
Qed.

(** A scan does not depend on white space appended to the text: a matched
    part ends with the closing parenthesis. *)
Lemma scanHere_trailing (u r : jsstring) :
  spaces r -> scanHere (u ++ r) = scanHere u.
Proof.
  intros Hr. destruct (scanHere u) as [m|] eqn:E.
  - apply scanHere_sound in E as (t & a & b & c & post & -> & Hs & ->).
    rewrite <- app_assoc. now apply scanHere_complete.
  - destruct (scanHere (u ++ r)) as [m|] eqn:E'; [|reflexivity].
    exfalso.
    apply scanHere_sound in E' as (t & a & b & c & post & Eq & Hs & _).
    destruct (shaped_ends _ _ _ _ Hs) as [v Hv].
    apply app_eq_app in Eq as [k [[Hu Hp]|[Ht Hp]]].
    + subst u. rewrite (scanHere_complete _ _ _ _ k Hs) in E. discriminate E.
    + (* the matched part would reach into the appended white space *)
      destruct k as [|k0 k].
      * rewrite app_nil_r in Ht. subst u.
        rewrite <- (app_nil_r t), (scanHere_complete _ _ _ _ [] Hs) in E.
        discriminate E.
      * destruct (exists_last (l := k0 :: k)) as (k' & z & Hk);
          [discriminate|].
        rewrite Hk in *.
        assert (z = 41%N).
        { rewrite Hv in Ht.
          change (111%N :: v ++ [41%N]) with ((111%N :: v) ++ [41%N]) in Ht.
          rewrite app_assoc in Ht. apply app_inj_tail in Ht. now destruct Ht. }
        subst z. subst r. unfold spaces in Hr.
        rewrite !forallb_app in Hr. simpl in Hr.
        rewrite andb_false_r in Hr. simpl in Hr. discriminate Hr.
Qed.

Lemma exec_trailing (u r : jsstring) :
  spaces r -> exec oklchRegex (u ++ r) = exec oklchRegex u.
Proof.
  intros Hr. induction u as [|d u IH].
  - simpl app. now rewrite (exec_spaces r Hr).
  - rewrite (exec_scan (d :: u)), (exec_scan ((d :: u) ++ r)).
    rewrite (scanHere_trailing (d :: u) r Hr).
    destruct (scanHere (d :: u)); [reflexivity | exact IH].
Qed.

(** Trimming never changes the outcome of the match. *)
Lemma match_trim (s : jsstring) :
  String_match (trim s) oklchRegex = String_match s oklchRegex.
Proof.
  destruct (trim_decompose s) as (l & r & E & Hl & Hr).
  unfold String_match. rewrite E at 2.
  now rewrite (exec_skip_spaces l _ Hl), (exec_trailing _ r Hr).
Qed.

(** The function is determined by the match array of the looked-up text. *)
Lemma adjust_by_match look look' name (p : argument) :
  String_match (look name) oklchRegex = String_match (look' name) oklchRegex ->
  adjustOklchLightness look name p = adjustOklchLightness look' name p.
Proof.
  intros H. unfold adjustOklchLightness.
  rewrite (match_trim (look name)), (match_trim (look' name)), H.
  reflexivity.
Qed.

(** X1.  The call to [trim] never changes the outcome of the match: the
    match array of the trimmed text is that of the text as looked up. *)
Theorem X1_trim_is_redundant :
  forall s : jsstring,
    String_match (trim s) oklchRegex = String_match s oklchRegex.
Proof. exact match_trim. Qed.

(** X2.  White space before and after the looked-up text does not change
    what the function returns or logs. *)
Theorem X2_surrounding_space :
  forall (look look' : jsstring -> jsstring) (name : jsstring) (p : jsvalue)
         (l r : jsstring),
    spaces l -> spaces r ->
    look name = l ++ look' name ++ r ->
    adjustOklchLightness look name p = adjustOklchLightness look' name p.
Proof.
  intros look look' name p l r Hl Hr E.
  apply adjust_by_match. unfold String_match.
  now rewrite E, (exec_skip_spaces l _ Hl), (exec_trailing _ r Hr).
Qed.

Lemma X2_surrounding_space_witness :
  adjustOklchLightness (fun _ => js "  oklch(0.5 0.1 30) ") (js "--c")
                       (JNumber (ofZ 10))
  = adjustOklchLightness (fun _ => js "oklch(0.5 0.1 30)") (js "--c")
                         (JNumber (ofZ 10)).
Proof.
  apply (X2_surrounding_space (fun _ => js "  oklch(0.5 0.1 30) ")
                              (fun _ => js "oklch(0.5 0.1 30)") (js "--c")
                              (JNumber (ofZ 10)) (js "  ") (js " "));
    reflexivity.
Defined.

(** No attempt succeeds at a character other than [o]. *)
Lemma scanHere_not_o (c : char16) (x : jsstring) :
  (c =? 111)%N = false -> scanHere (c :: x) = None.
Proof.
  intros H. unfold scanHere. cbn [js stripPrefix]. unfold char16_eqb.
  change (N_of_ascii "o") with 111%N. rewrite N.eqb_sym, H. reflexivity.
Qed.

Lemma exec_skip_not_o (pre x : jsstring) :
  forallb (fun c => negb (c =? 111)%N) pre = true ->
  exec oklchRegex (pre ++ x) = exec oklchRegex x.
Proof.
  induction pre as [|c pre IH]; simpl app; [reflexivity|].
  intros H. simpl in H. apply andb_prop in H as [Hc Hp].
  apply negb_true_iff in Hc.
  rewrite exec_scan, (scanHere_not_o c _ Hc). now apply IH.
Qed.

(** X3.  The first match wins: when the looked-up text has a part of the
    shape [oklch( a b c )] with no letter [o] before it, the three numbers
    are read from that part, whatever follows it (further [oklch(...)]
    values included). *)
Theorem X3_first_match_wins :
  forall (look : jsstring -> jsstring) (name : jsstring) (p : jsvalue)
         (pre t post a b c : jsstring),
    look name = pre ++ t ++ post ->
    forallb (fun ch => negb (ch =? 111)%N) pre = true ->
    shaped t a b c ->
    adjustOklchLightness look name p =
    (Normal (Some (formatOklch
                     (adjustLightness (parseFloat (JString a)) (parseFloat p))
                     (parseFloat (JString b)) (parseFloat (JString c)))), []).
Proof.
  intros look name p pre t post a b c E Hpre Hs.
  apply adjust_match with (t := t).
  rewrite match_trim. unfold String_match.
  rewrite E, (exec_skip_not_o pre _ Hpre). now apply exec_here.
Qed.

Lemma shaped_example :
  shaped (js "oklch(0.7 0.15 250)") (js "0.7") (js "0.15") (js "250").
Proof.
  exists [], (js " "), (js " "), [].
  repeat split; try reflexivity; discriminate.
Qed.

Lemma X3_first_match_wins_witness :
  adjustOklchLightness
    (fun _ => js "linear-gradient(oklch(0.7 0.15 250), oklch(0.2 0.1 30))")
    (js "--c") (JNumber (ofZ 10))
  = (Normal (Some (formatOklch
                     (adjustLightness (parseFloat (JString (js "0.7")))
                                      (parseFloat (JNumber (ofZ 10))))
                     (parseFloat (JString (js "0.15")))
                     (parseFloat (JString (js "250"))))), []).
Proof.
  apply (X3_first_match_wins
           (fun _ => js "linear-gradient(oklch(0.7 0.15 250), oklch(0.2 0.1 30))")
           (js "--c") (JNumber (ofZ 10))
           (js "linear-gradient(") (js "oklch(0.7 0.15 250)")
           (js ", oklch(0.2 0.1 30))")).
  - reflexivity.
  - reflexivity.
  - exact shaped_example.
Defined.

(** ** Required separators; the console *)

(** A shaped text has a white space character. *)
Lemma shaped_has_space (t a b c : jsstring) :
  shaped t a b c -> forallb (fun ch => negb (isWhiteSpace ch)) t = false.
Proof.
  intros (w0 & w1 & w2 & w3 & -> & _ & [H1 N1] & _).
  unfold oklchText. repeat rewrite forallb_app.
  destruct w1 as [|x w1]; [contradiction|].
  unfold spaces in H1. simpl in H1. apply andb_prop in H1 as [H1 _].
  simpl forallb at 4. rewrite H1. simpl negb.
  repeat rewrite andb_false_r. repeat rewrite andb_false_l.
  repeat rewrite andb_false_r. reflexivity.
Qed.

(** X4.  The separators are required: a looked-up text without any white
    space character, such as [oklch(0.7,0.15,250)], gives [null] and the
    diagnostic. *)
Theorem X4_separators_required :
  forall (look : jsstring -> jsstring) (name : jsstring) (p : jsvalue),
    forallb (fun ch => negb (isWhiteSpace ch)) (look name) = true ->
    adjustOklchLightness look name p = (Normal None, [diagnostic name]).
Proof.
  intros look name p H. apply adjust_null. rewrite match_trim.
  unfold String_match. apply exec_none_iff.
  intros (pre & t & post & a & b & c & E & Hs).
  rewrite E in H. repeat rewrite forallb_app in H.
  apply andb_prop in H as [_ H]. apply andb_prop in H as [H _].
  rewrite (shaped_has_space _ _ _ _ Hs) in H. discriminate.
Qed.

Lemma X4_separators_required_witness :
  adjustOklchLightness (fun _ => js "oklch(0.7,0.15,250)") (js "--c")
                       (JNumber (ofZ 10))
  = (Normal None, [diagnostic (js "--c")]).
Proof.
  apply (X4_separators_required (fun _ => js "oklch(0.7,0.15,250)")).
  reflexivity.
Defined.

Lemma diagnostic_inj (n1 n2 : jsstring) :
  diagnostic n1 = diagnostic n2 -> n1 = n2.
Proof.
  unfold diagnostic. intros H.
  apply app_inv_head in H. apply app_inv_head in H.
  rewrite !app_assoc in H. apply app_inv_tail in H.
  now apply app_inv_tail in H.
Qed.

(** X5.  The console tells the two outcomes apart: the function logs one
    line, the diagnostic with the variable name, exactly when it returns
    [null], and nothing when it returns a text; the name can be read back
    from the line (different names give different lines). *)
Theorem X5_console :
  forall (look : jsstring -> jsstring) (name : jsstring) (p : jsvalue),
    (adjustOklchLightness look name p = (Normal None, [diagnostic name]) \/
     exists out,
       adjustOklchLightness look name p = (Normal (Some out), [])) /\
    (forall name', diagnostic name = diagnostic name' -> name = name').
Proof.
  intros look name p. split; [|intros name'; apply diagnostic_inj].
  destruct (String_match (trim (look name)) oklchRegex) as [m|] eqn:E.
  - right. destruct (match_array _ _ E) as (t & a & b & c & -> & _).
    rewrite (adjust_match look name p t a b c E). now eexists.
  - left. now apply adjust_null.
Qed.

(** ** Numbers with a unit or with a second point *)

Lemma forallb_app_r {A} (p : A -> bool) (a b : list A) :
  forallb p (a ++ b) = true -> forallb p b = true.
Proof. rewrite forallb_app. intros H. now apply andb_prop in H. Qed.

Lemma stops_weaken (p q : char16 -> bool) (s : jsstring) :
  (forall c, p c = false -> q c = false) -> stops p s -> stops q s.
Proof. intros H. destruct s; simpl; auto. Qed.

Lemma continuesNumber_fraction (c : char16) :
  continuesNumber c = false -> continuesFraction c = false.
Proof.
  unfold continuesNumber, continuesFraction, isDigitOrDot.
  destruct (isDigit c), (c =? 46)%N, (c =? 101)%N, (c =? 69)%N; simpl; auto.
Qed.

Lemma continuesFraction_digit (c : char16) :
  continuesFraction c = false -> isDigit c = false.
Proof. unfold continuesFraction. now destruct (isDigit c). Qed.

Lemma exponentPart_stops (rest : jsstring) :
  stops continuesFraction rest -> exponentPart rest = 0.
Proof.
  destruct rest as [|c r]; [reflexivity|]. simpl. unfold continuesFraction.
  intros H. apply orb_false_elim in H as [H H69].
  apply orb_false_elim in H as [_ H101]. now rewrite H101, H69.
Qed.

(** What follows the digits after the point is not read, unless it can
    continue them. *)
Lemma parseUnsigned_point (sign : bool) (ip fp rest : jsstring) :
  digits ip -> digits fp -> stops continuesFraction rest ->
  parseUnsigned sign (ip ++ js "." ++ fp ++ rest)
  = parseUnsigned sign (ip ++ js "." ++ fp).
Proof.
  intros Hip Hfp Hr.
  assert (Sd : stops isDigit rest)
    by (revert Hr; apply stops_weaken, continuesFraction_digit).
  unfold parseUnsigned.
  rewrite !(takeWhile_app _ ip), !(dropWhile_app _ ip)
    by (assumption || reflexivity).
  cbn [js app]. change (N_of_ascii "." =? 46)%N with true. cbn iota.
  rewrite (takeWhile_app _ fp rest Hfp Sd), (dropWhile_app _ fp rest Hfp Sd).
  rewrite (takeWhile_id _ fp Hfp), (dropWhile_id _ fp Hfp).
  rewrite (exponentPart_stops rest Hr). reflexivity.
Qed.

(** What follows the digits of an integer is not read, unless it can
    continue them. *)
Lemma parseUnsigned_integer (sign : bool) (ip rest : jsstring) :
  digits ip -> stops continuesNumber rest ->
  parseUnsigned sign (ip ++ rest) = parseUnsigned sign ip.
Proof.
  intros Hip Hr.
  assert (Sf : stops continuesFraction rest)
    by (revert Hr; apply stops_weaken, continuesNumber_fraction).
  assert (Sd : stops isDigit rest)
    by (revert Sf; apply stops_weaken, continuesFraction_digit).
  unfold parseUnsigned.
  rewrite (takeWhile_app _ ip rest Hip Sd), (dropWhile_app _ ip rest Hip Sd).
  rewrite (takeWhile_id _ ip Hip), (dropWhile_id _ ip Hip).
  destruct rest as [|c r]; [reflexivity|].
  assert (E : (c =? 46)%N = false).
  { simpl in Hr. unfold continuesNumber, isDigitOrDot in Hr.
    destruct (c =? 46)%N; [|reflexivity].
    now rewrite orb_true_r in Hr. }
  rewrite E. now rewrite (exponentPart_stops (c :: r) Sf).
Qed.

Lemma parseUnsigned_decimal (sign : bool) (d rest : jsstring) (x : number) :
  decimalNumber d x -> stops continuesNumber rest ->
  parseUnsigned sign (d ++ rest) = parseUnsigned sign d.
Proof.
  intros [ip Hne Hip | ip fp Hne Hip Hfp] Hr.
  - now apply parseUnsigned_integer.
  - repeat rewrite <- app_assoc. apply parseUnsigned_point; auto.
    revert Hr. apply stops_weaken, continuesNumber_fraction.
Qed.

(** [parseFloat] on an optional sign and what follows, when that starts
    with a digit or a point. *)
Lemma parseFloat_signed (ws sg u : jsstring) (c : char16) :
  spaces ws -> signText sg -> isDigitOrDot c = true ->
  parseFloat (JString (ws ++ sg ++ c :: u))
  = parseUnsigned (match sg with [] => false | s :: _ => (s =? 45)%N end)
                  (c :: u).
Proof.
  intros Hw Hs Hc.
  assert (Bc := number_bounds c Hc).
  assert (Wc := number_not_space c Hc).
  assert (I : stripPrefix (js "Infinity") (c :: u) = None).
  { cbn [js stripPrefix]. unfold char16_eqb.
    destruct (N.eqb_spec (N_of_ascii "I") c) as [E|E]; [simpl in E; lia|].
    reflexivity. }
  unfold parseFloat, ToString, parseFloat_string, trimStart.
  destruct Hs as [-> | [-> | ->]].
  - change ([] ++ c :: u) with (c :: u).
    rewrite (dropWhile_app _ ws (c :: u) Hw Wc).
    destruct (N.eqb_spec c 43); [lia|].
    destruct (N.eqb_spec c 45); [lia|].
    now rewrite I.
  - rewrite (dropWhile_app _ ws (js "+" ++ c :: u) Hw eq_refl).
    change (js "+" ++ c :: u) with (43%N :: c :: u).
    cbv beta iota. rewrite N.eqb_refl.
    now rewrite I.
  - rewrite (dropWhile_app _ ws (js "-" ++ c :: u) Hw eq_refl).
    change (js "-" ++ c :: u) with (45%N :: c :: u).
    cbv beta iota. destruct (N.eqb_spec 45 43) as [E|_]; [discriminate E|].
    rewrite N.eqb_refl. now rewrite I.
Qed.

(** A unit after a number is not read: [parseFloat] gives the number. *)
Lemma parseFloat_suffix (ws sg d rest : jsstring) (x : number) :
  spaces ws -> signText sg -> decimalNumber d x ->
  stops continuesNumber rest ->
  parseFloat (JString (ws ++ sg ++ d ++ rest))
  = parseFloat (JString (ws ++ sg ++ d)).
Proof.
  intros Hw Hs Hd Hr.
  destruct (decimalNumber_run d x Hd) as [Hne Hrun].
  destruct d as [|c u] eqn:Ed; [contradiction|].
  assert (Hc : isDigitOrDot c = true)
    by (simpl in Hrun; now apply andb_prop in Hrun as [Hc _]).
  change ((c :: u) ++ rest) with (c :: u ++ rest).
  rewrite !(parseFloat_signed ws sg _ c Hw Hs Hc).
  change (c :: u ++ rest) with ((c :: u) ++ rest).
  rewrite <- Ed in *. now apply parseUnsigned_decimal with (x := x).
Qed.

(** The function depends on the percentage through [parseFloat] only. *)
Lemma adjust_by_percentage look name (p p' : jsvalue) :
  parseFloat p = parseFloat p' ->
  adjustOklchLightness look name p = adjustOklchLightness look name p'.
Proof.
  intros H.
  destruct (String_match (trim (look name)) oklchRegex) as [m|] eqn:E.
  - destruct (match_array _ _ E) as (t & a & b & c & -> & _).
    now rewrite (adjust_match _ _ p _ _ _ _ E),
      (adjust_match _ _ p' _ _ _ _ E), H.
  - now rewrite (adjust_null _ _ p E), (adjust_null _ _ p' E).
Qed.

(** X6.  A percentage given as a string may carry a unit: what follows
    the number (and cannot continue it), such as the [%] of ["-20%"], is
    ignored. *)
Theorem X6_percentage_unit :
  forall (look : jsstring -> jsstring) (name ws sg d rest : jsstring)
         (x : number),
    spaces ws -> signText sg -> decimalNumber d x ->
    stops continuesNumber rest ->
    adjustOklchLightness look name (JString (ws ++ sg ++ d ++ rest))
    = adjustOklchLightness look name (JString (ws ++ sg ++ d)).
Proof.
  intros look name ws sg d rest x Hw Hs Hd Hr.
  apply adjust_by_percentage. now apply parseFloat_suffix with (x := x).
Qed.

Lemma X6_percentage_unit_witness :
  adjustOklchLightness (fun _ => js "oklch(0.5 0.1 30)") (js "--c")
                       (JString (js "-20%"))
  = adjustOklchLightness (fun _ => js "oklch(0.5 0.1 30)") (js "--c")
                         (JString (js "-20")).
Proof.
  apply (X6_percentage_unit (fun _ => js "oklch(0.5 0.1 30)") (js "--c")
                            [] (js "-") (js "20") (js "%")
                            (ofDecimal false (digitsValue (js "20")) 0)).
  - reflexivity.
  - right. right. reflexivity.
  - apply decimal_integer; [discriminate | reflexivity].
  - reflexivity.
Defined.

(** X7.  A lightness run with more than one point is read up to its
    second point: when the first capture is digits, a point, digits and a
    rest that does not start with a digit, the result is computed from the
    part before the rest; and when there is no digit in that part the
    lightness is printed as [NaN]. *)
Theorem X7_second_point :
  forall (look : jsstring -> jsstring) (name : jsstring) (p : jsvalue)
         (t ip fp rest b c : jsstring),
    String_match (trim (look name)) oklchRegex
    = Some [t; ip ++ js "." ++ fp ++ rest; b; c] ->
    digits ip -> digits fp -> stops isDigit rest ->
    adjustOklchLightness look name p =
    (Normal (Some (formatOklch
                     (adjustLightness (parseFloat (JString (ip ++ js "." ++ fp)))
                                      (parseFloat p))
                     (parseFloat (JString b)) (parseFloat (JString c)))), [])
    /\
    (ip ++ fp = [] ->
     adjustOklchLightness look name p =
     (Normal (Some (js "oklch(" ++ js "NaN" ++ js " "
                       ++ fixed4 (parseFloat (JString b)) ++ js " "
                       ++ fixed4 (parseFloat (JString c)) ++ js ")")), [])).
Proof.
  intros look name p t ip fp rest b c E Hip Hfp Hr.
  destruct (match_array _ _ E) as (t' & a' & b' & c' & Em & Ha & _).
  inversion Em. subst t' a' b' c'. clear Em.
  assert (Hrest : forallb isDigitOrDot rest = true).
  { destruct Ha as [_ Ha].
    apply (forallb_app_r _ ip) in Ha. apply (forallb_app_r _ (js ".")) in Ha.
    now apply (forallb_app_r _ fp) in Ha. }
  assert (Sf : stops continuesFraction rest).
  { destruct rest as [|r0 rest]; [exact I|]. simpl in *.
    apply andb_prop in Hrest as [H0 _]. apply number_bounds in H0.
    unfold continuesFraction. rewrite Hr.
    destruct (N.eqb_spec r0 101); [lia|].
    destruct (N.eqb_spec r0 69); [lia|]. reflexivity. }
  assert (Hb : numberRun (ip ++ js "." ++ fp)).
  { split; [destruct ip; discriminate|].
    rewrite !forallb_app, (digits_number ip Hip), (digits_number fp Hfp).
    reflexivity. }
  assert (P : parseFloat (JString (ip ++ js "." ++ fp ++ rest))
              = parseFloat (JString (ip ++ js "." ++ fp))).
  { rewrite (parseFloat_run (ip ++ js "." ++ fp ++ rest) Ha),
      (parseFloat_run (ip ++ js "." ++ fp) Hb).
    now apply parseUnsigned_point. }
  rewrite (adjust_match _ _ p _ _ _ _ E), P.
  split; [reflexivity|].
  intros Hnil. apply app_eq_nil in Hnil as [-> ->]. reflexivity.
Qed.

Lemma X7_second_point_witness :
  adjustOklchLightness (fun _ => js "oklch(0.5.9 0.1 30)") (js "--c")
                       (JNumber (ofZ 10)) =
  (Normal (Some (formatOklch
                   (adjustLightness (parseFloat (JString (js "0" ++ js "." ++ js "5")))
                                    (parseFloat (JNumber (ofZ 10))))
                   (parseFloat (JString (js "0.1")))
                   (parseFloat (JString (js "30"))))), []).
Proof.
  apply (X7_second_point (fun _ => js "oklch(0.5.9 0.1 30)") (js "--c")
                          (JNumber (ofZ 10)) (js "oklch(0.5.9 0.1 30)")
                          (js "0") (js "5") (js ".9") (js "0.1") (js "30"));
    reflexivity.
Defined.

(** ** Reading back printed digits *)

Lemma digitsValue_acc (u : Decimal.uint) (acc : positive) :
  fold_left (fun a c => 10 * a + (Z.of_N c - 48)) (uintDigits u) (Zpos acc)
  = Zpos (Pos.of_uint_acc u acc).
Proof.
  revert acc. induction u; intros acc;
    cbn [uintDigits fold_left Pos.of_uint_acc];
    [reflexivity | rewrite <- IHu; f_equal; lia ..].
Qed.

Lemma digitsValue_uint (u : Decimal.uint) :
  digitsValue (uintDigits u) = Z.of_N (Pos.of_uint u).
Proof.
  unfold digitsValue.
  induction u; cbn [uintDigits fold_left Pos.of_uint];
    [reflexivity | exact IHu | apply (digitsValue_acc u) ..].
Qed.

(** The digits printed for a natural number denote it. *)
Lemma digitsValue_decimalDigits (n : Z) :
  0 <= n -> digitsValue (decimalDigits n) = n.
Proof.
  intros H. unfold decimalDigits. rewrite digitsValue_uint.
  destruct n as [|p|p]; [reflexivity| |lia].
  cbn [Z.to_N N.to_uint]. now rewrite DecimalPos.Unsigned.of_to.
Qed.

Lemma digitsValue_zeros (k : Z) (s : jsstring) :
  digitsValue (zeros k ++ s) = digitsValue s.
Proof.
  unfold digitsValue, zeros. rewrite fold_left_app.
  f_equal. induction (Z.to_nat k) as [|j IH]; [reflexivity|exact IH].
Qed.

(** The text printed with four decimals: digits, a point and four digits
    that together denote the integer. *)
Lemma fixedDigits_split (n : Z) :
  0 <= n ->
  exists ip fp,
    fixedDigits n 4 = ip ++ js "." ++ fp /\
    digits ip /\ digits fp /\ ip <> [] /\
    List.length fp = 4%nat /\ digitsValue (ip ++ fp) = n.
Proof.
  intros Hn. unfold fixedDigits. change (4 =? 0) with false. cbn iota.
  set (m := decimalDigits n).
  assert (Hm : forallb isDigit m = true) by apply decimalDigits_digits.
  assert (Nm : m <> []) by apply decimalDigits_nonnil.
  assert (Vm : digitsValue m = n) by now apply digitsValue_decimalDigits.
  assert (Lm : (1 <= List.length m)%nat)
    by (destruct m; [contradiction | simpl; lia]).
  assert (G : forall (m' : jsstring) (j : nat),
             forallb isDigit m' = true -> digitsValue m' = n ->
             (1 <= j)%nat -> (List.length m' = j + 4)%nat ->
             exists ip fp,
               firstn j m' ++ js "." ++ skipn j m' = ip ++ js "." ++ fp /\
               digits ip /\ digits fp /\ ip <> [] /\
               List.length fp = 4%nat /\ digitsValue (ip ++ fp) = n).
  { intros m' j Hd Hv Hj Hl. exists (firstn j m'), (skipn j m').
    split; [reflexivity|].
    split; [now apply forallb_firstn|]. split; [now apply forallb_skipn|].
    split.
    - intros E. apply (f_equal (@List.length _)) in E.
      rewrite length_firstn in E. simpl in E. lia.
    - split; [rewrite length_skipn; lia|]. now rewrite firstn_skipn. }
  destruct (Z.leb_spec (Z.of_nat (List.length m)) 4) as [S|B].
  - apply G; try lia.
    + now rewrite forallb_app, zeros_digits.
    + now rewrite digitsValue_zeros.
    + rewrite length_app, zeros_length. lia.
  - apply G; try lia; assumption.
Qed.

Lemma fixedDigits_decimal (n : Z) :
  0 <= n -> decimalNumber (fixedDigits n 4) (ofDecimal false n (-4)).
Proof.
  intros Hn.
  destruct (fixedDigits_split n Hn) as (ip & fp & -> & Hip & Hfp & Ne & L4 & V).
  rewrite <- V.
  replace (-4) with (- Z.of_nat (List.length fp)) by (rewrite L4; reflexivity).
  apply decimal_point; auto.
  destruct ip; [contradiction | discriminate].
Qed.

(** ** Printing a decimal that was read *)

Lemma fixed4_ofDecimal (n : Z) :
  0 <= n <= 10 ^ 14 ->
  fixed4 (ofDecimal false n (-4)) = fixedDigits n 4.
Proof.
  intros [H0 Hn]. destruct n as [|p|p]; [reflexivity| |lia].
  destruct (ofDecimal_fixedInteger p Hn) as (m3 & e3 & -> & He & Lo & Hi).
  assert (PD : 2 ^ 16 <= 2 ^ (- e3)) by (apply Z.pow_le_mono_r; lia).
  change (2 ^ 16) with 65536 in PD.
  change (10 ^ 14) with 100000000000000 in Hn.
  unfold fixed4, fixedText, fixedInteger.
  rewrite (Z.max_l (- e3)), (Z.max_r e3) by lia.
  change (2 ^ 0) with 1. change (10 ^ 4) with 10000.
  change (10 ^ 21) with 1000000000000000000000.
  set (D := 2 ^ (- e3)) in *.
  destruct (Z.leb_spec (1000000000000000000000 * D) (Zpos m3 * 1)) as [B|B];
    [nia|].
  cbn [app]. f_equal. symmetry.
  apply Z.div_unique with (r := 2 * (Zpos m3 * 1) * 10000 + D - 2 * D * Zpos p);
    lia.
Qed.

Lemma ofDecimal_le_one (n : Z) :
  0 <= n <= 10000 ->
  isFinite (ofDecimal false n (-4)) = true /\
  notNegative (ofDecimal false n (-4)) /\
  SFleb (ofDecimal false n (-4)) one = true.
Proof.
  intros [H0 Hn]. destruct n as [|p|p]; [|  |lia].
  - repeat split. now right.
  - destruct (Z.eq_dec (Zpos p) 10000) as [E|N].
    + inversion E. vm_compute. repeat split. now right.
    + assert (V := ofDecimal_valid false (Zpos p) (-4)).
      destruct (ofDecimal_fixedInteger p ltac:(simpl; lia))
        as (m3 & e3 & E & He & Lo & Hi).
      rewrite E in *. split; [reflexivity|]. split; [now right|].
      rewrite one_eq.
      apply leb_value; [exact V | reflexivity|].
      assert (PD : 0 < 2 ^ (- e3)) by (apply pow2_pos; lia).
      assert (M : Zpos m3 < 2 ^ (- e3)) by nia.
      destruct (Z_le_gt_dec e3 (-52)) as [S|B].
      * rewrite Z.min_l, Z.sub_diag, Z.pow_0_r by lia.
        replace (- e3) with (52 + (-52 - e3)) in M by lia.
        rewrite pow2_split in M by lia.
        change (2 ^ 52) with 4503599627370496 in M. lia.
      * rewrite Z.min_r, Z.sub_diag, Z.pow_0_r by lia.
        assert (S : 2 ^ 52 = 2 ^ (- e3) * 2 ^ (e3 - -52)).
        { rewrite <- pow2_split by lia. f_equal. lia. }
        change (2 ^ 52) with 4503599627370496 in S.
        assert (0 < 2 ^ (e3 - -52)) by (apply pow2_pos; lia).
        nia.
Qed.

Lemma tenBillion_eq :
  ofZ (10 ^ 10) = S754_finite false 5242880000000000 (-19).
Proof. reflexivity. Qed.

(** A valid value below [10^10] prints in fixed notation, as an integer of
    at most [10^14] ten-thousandths. *)
Lemma below_fixedInteger (x : number) :
  valid_binary prec emax x = true -> notNegative x ->
  ltb x (ofZ (10 ^ 10)) = true ->
  exists n, 0 <= n <= 10 ^ 14 /\ fixed4 x = fixedDigits n 4.
Proof.
  intros V S H. rewrite tenBillion_eq in H.
  destruct x as [s|s| |s m e]; try discriminate.
  - exists 0. split; [lia | reflexivity].
  - destruct s; [destruct S as [S|S]; discriminate | discriminate].
  - destruct S as [S|S]; [discriminate|]. inversion S. subst s.
    assert (L : SFleb (S754_finite false m e)
                      (S754_finite false 5242880000000000 (-19)) = true).
    { apply ltb_finite in H. apply leb_finite. lia. }
    assert (VB : valid_binary prec emax
                   (S754_finite false 5242880000000000 (-19)) = true)
      by reflexivity.
    apply (leb_value _ _ _ _ V VB) in L.
    set (N := Zpos m * 2 ^ Z.max e 0). set (D := 2 ^ Z.max (- e) 0).
    assert (PD : 0 < D) by (apply pow2_pos; lia).
    assert (B : N <= 10000000000 * D).
    { unfold N, D. destruct (Z_le_gt_dec 0 e) as [P|Ng].
      - rewrite (Z.max_l e), (Z.max_r (- e)) by lia.
        rewrite Z.min_r in L by lia.
        replace (-19 - -19) with 0 in L by lia.
        replace (e - -19) with (e + 19) in L by lia.
        rewrite pow2_split in L by lia.
        change (2 ^ 19) with 524288 in L. change (2 ^ 0) with 1 in *.
        assert (0 < 2 ^ e) by (apply pow2_pos; lia). nia.
      - rewrite (Z.max_r e), (Z.max_l (- e)) by lia. change (2 ^ 0) with 1.
        destruct (Z_le_gt_dec e (-19)) as [S1|S1].
        + rewrite Z.min_l, Z.sub_diag, Z.pow_0_r in L by lia.
          assert (Sp : 2 ^ (- e) = 2 ^ 19 * 2 ^ (-19 - e)).
          { rewrite <- pow2_split by lia. f_equal. lia. }
          change (2 ^ 19) with 524288 in Sp. lia.
        + rewrite Z.min_r in L by lia.
          replace (-19 - -19) with 0 in L by lia. change (2 ^ 0) with 1 in L.
          assert (Sp : 2 ^ 19 = 2 ^ (e - -19) * 2 ^ (- e)).
          { rewrite <- pow2_split by lia. f_equal. lia. }
          change (2 ^ 19) with 524288 in Sp.
          assert (0 < 2 ^ (- e)) by (apply pow2_pos; lia).
          assert (0 < 2 ^ (e - -19)) by (apply pow2_pos; lia).
          nia. }
    assert (PN : 0 < N).
    { unfold N. assert (0 < 2 ^ Z.max e 0) by (apply pow2_pos; lia). nia. }
    exists (fixedInteger m e 4). fold N D in |- *.
    unfold fixed4, fixedText, fixedInteger. fold N D.
    change (10 ^ 21) with 1000000000000000000000.
    change (10 ^ 14) with 100000000000000. change (10 ^ 4) with 10000.
    destruct (Z.leb_spec (1000000000000000000000 * D) N) as [Bg|Sm]; [nia|].
    split; [|reflexivity]. split.
    + apply Z.div_pos; lia.
    + assert (P : 0 < 2 * D) by lia.
      assert (U : 2 * N * 10000 + D < 2 * D * (100000000000000 + 1)) by lia.
      assert (Q := Z.div_lt_upper_bound _ _ _ P U). lia.
Qed.

(** The printed text of a four-decimal number is a run of digits and
    points. *)
Lemma fixedDigits_run (n : Z) : numberRun (fixedDigits n 4).
Proof.
  assert (F := fixedDigits_isFixed4 n). split.
  - intros E. rewrite E in F. discriminate.
  - now apply isFixed4_chars.
Qed.

Lemma shaped_output (l c h : jsstring) :
  numberRun l -> numberRun c -> numberRun h ->
  shaped (js "oklch(" ++ l ++ js " " ++ c ++ js " " ++ h ++ js ")") l c h.
Proof.
  intros Hl Hc Hh. exists [], (js " "), (js " "), [].
  repeat split; try reflexivity; try discriminate;
    try apply Hl; try apply Hc; try apply Hh.
Qed.

(** The function on a text it printed itself. *)
Lemma adjust_output (name : jsstring) (p : jsvalue) (l c h : jsstring) :
  numberRun l -> numberRun c -> numberRun h ->
  adjustOklchLightness
    (fun _ => js "oklch(" ++ l ++ js " " ++ c ++ js " " ++ h ++ js ")") name p
  = (Normal (Some (formatOklch
                     (adjustLightness (parseFloat (JString l)) (parseFloat p))
                     (parseFloat (JString c)) (parseFloat (JString h)))), []).
Proof.
  intros Hl Hc Hh.
  apply adjust_match
    with (t := js "oklch(" ++ l ++ js " " ++ c ++ js " " ++ h ++ js ")").
  rewrite match_trim. unfold String_match.
  rewrite <- (app_nil_r (js "oklch(" ++ l ++ js " " ++ c ++ js " " ++ h ++ js ")"))
    at 1.
  apply exec_here. now apply shaped_output.
Qed.

(** Printing and reading back: a text of four-decimal numbers, with a
    lightness of at most 1, is returned as it is at percentage 0. *)
Lemma adjust_fixed_point (name : jsstring) (p : jsvalue) (nl nc nh : Z) :
  0 <= nl <= 10000 -> 0 <= nc <= 10 ^ 14 -> 0 <= nh <= 10 ^ 14 ->
  isZero (parseFloat p) = true ->
  let out := js "oklch(" ++ fixedDigits nl 4 ++ js " " ++ fixedDigits nc 4
                ++ js " " ++ fixedDigits nh 4 ++ js ")" in
  adjustOklchLightness (fun _ => out) name p = (Normal (Some out), []).
Proof.
  intros Hl Hc Hh Hp out. unfold out.
  rewrite adjust_output by apply fixedDigits_run.
  rewrite (parseFloat_decimal _ _ (fixedDigits_decimal nl ltac:(lia))).
  rewrite (parseFloat_decimal _ _ (fixedDigits_decimal nc ltac:(lia))).
  rewrite (parseFloat_decimal _ _ (fixedDigits_decimal nh ltac:(lia))).
  destruct (ofDecimal_le_one nl Hl) as (F & S & L1).
  rewrite (adjustLightness_zero _ _ Hp F S L1).
  unfold formatOklch.
  rewrite !fixed4_ofDecimal by (change (10 ^ 14) with 100000000000000 in *; lia).
  reflexivity.
Qed.

(** ** The ends of the range and the returned text *)

Lemma notNegative_finite_zero (s : bool) :
  notNegative (S754_zero s) -> s = false.
Proof. intros [H|H]; [discriminate | now inversion H]. Qed.

(** X8.  Full darkening: when the text matches, the parsed lightness is
    finite and the percentage is at least 100 (finite when the lightness is
    zero), the lightness component of the result is [0.0000]. *)
Theorem X8_full_darkening :
  forall (look : jsstring -> jsstring) (name : jsstring) (p : jsvalue)
         (m : list jsstring),
    String_match (trim (look name)) oklchRegex = Some m ->
    isFinite (parseFloat (item m 1)) = true ->
    SFleb hundred (parseFloat p) = true ->
    (isZero (parseFloat (item m 1)) = true -> isFinite (parseFloat p) = true) ->
    adjustLightness (parseFloat (item m 1)) (parseFloat p) = zero /\
    adjustOklchLightness look name p =
    (Normal (Some (js "oklch(" ++ js "0.0000" ++ js " "
                      ++ fixed4 (parseFloat (item m 2)) ++ js " "
                      ++ fixed4 (parseFloat (item m 3)) ++ js ")")), []).
Proof.
  intros look name p m E HF Hp Hz.
  destruct (match_array _ _ E) as (t & a & b & c & -> & Ha & _).
  cbn [item nth_error] in *.
  assert (A : adjustLightness (parseFloat (JString a)) (parseFloat p) = zero).
  { apply adjustLightness_floor; auto using parseFloat_valid.
    now apply parseFloat_run_sign. }
  split; [exact A|].
  rewrite (adjust_match _ _ p _ _ _ _ E), A. reflexivity.
Qed.

Lemma X8_full_darkening_witness :
  adjustLightness (parseFloat (item (map js ["oklch(0.9 0.2 10)"; "0.9"; "0.2"; "10"]%string) 1))
                  (parseFloat (JString (js "100"))) = zero /\
  adjustOklchLightness (fun _ => js "oklch(0.9 0.2 10)") (js "--c")
                       (JString (js "100")) =
  (Normal (Some (js "oklch(" ++ js "0.0000" ++ js " "
                    ++ fixed4 (parseFloat (item (map js ["oklch(0.9 0.2 10)"; "0.9"; "0.2"; "10"]%string) 2))
                    ++ js " "
                    ++ fixed4 (parseFloat (item (map js ["oklch(0.9 0.2 10)"; "0.9"; "0.2"; "10"]%string) 3))
                    ++ js ")")), []).
Proof.
  apply (X8_full_darkening (fun _ => js "oklch(0.9 0.2 10)") (js "--c")
                           (JString (js "100"))
                           (map js ["oklch(0.9 0.2 10)"; "0.9"; "0.2"; "10"]%string)).
  - vm_compute. reflexivity.
  - vm_compute. reflexivity.
  - vm_compute. reflexivity.
  - intros _. vm_compute. reflexivity.
Defined.

(** X9.  No darkening above one: when the text matches, the parsed
    lightness is finite and at least 1 and the percentage is at most 0
    (minus infinity included), the lightness component of the result is
    [1.0000]. *)
Theorem X9_white_stays_white :
  forall (look : jsstring -> jsstring) (name : jsstring) (p : jsvalue)
         (m : list jsstring),
    String_match (trim (look name)) oklchRegex = Some m ->
    isFinite (parseFloat (item m 1)) = true ->
    SFleb one (parseFloat (item m 1)) = true ->
    SFleb (parseFloat p) zero = true ->
    adjustLightness (parseFloat (item m 1)) (parseFloat p) = one /\
    adjustOklchLightness look name p =
    (Normal (Some (js "oklch(" ++ js "1.0000" ++ js " "
                      ++ fixed4 (parseFloat (item m 2)) ++ js " "
                      ++ fixed4 (parseFloat (item m 3)) ++ js ")")), []).
Proof.
  intros look name p m E HF H1 Hp.
  destruct (match_array _ _ E) as (t & a & b & c & -> & Ha & _).
  cbn [item nth_error] in *.
  assert (A : adjustLightness (parseFloat (JString a)) (parseFloat p) = one).
  { apply adjustLightness_white;
      auto using parseFloat_valid, parseFloat_wellFormed. }
  split; [exact A|].
  rewrite (adjust_match _ _ p _ _ _ _ E), A. reflexivity.
Qed.

Lemma X9_white_stays_white_witness :
  adjustLightness (parseFloat (item (map js ["oklch(2 0.1 30)"; "2"; "0.1"; "30"]%string) 1))
                  (parseFloat (JNumber (ofZ (-50)))) = one /\
  adjustOklchLightness (fun _ => js "oklch(2 0.1 30)") (js "--c")
                       (JNumber (ofZ (-50))) =
  (Normal (Some (js "oklch(" ++ js "1.0000" ++ js " "
                    ++ fixed4 (parseFloat (item (map js ["oklch(2 0.1 30)"; "2"; "0.1"; "30"]%string) 2))
                    ++ js " "
                    ++ fixed4 (parseFloat (item (map js ["oklch(2 0.1 30)"; "2"; "0.1"; "30"]%string) 3))
                    ++ js ")")), []).
Proof.
  apply (X9_white_stays_white (fun _ => js "oklch(2 0.1 30)") (js "--c")
                              (JNumber (ofZ (-50)))
                              (map js ["oklch(2 0.1 30)"; "2"; "0.1"; "30"]%string)).
  - vm_compute. reflexivity.
  - vm_compute. reflexivity.
  - vm_compute. reflexivity.
  - vm_compute. reflexivity.
Defined.

(** X10.  Black stays black: when the text matches and the parsed
    lightness is zero, every finite percentage, negative ones included,
    gives the lightness component [0.0000]. *)
Theorem X10_black_stays_black :
  forall (look : jsstring -> jsstring) (name : jsstring) (p : jsvalue)
         (m : list jsstring),
    String_match (trim (look name)) oklchRegex = Some m ->
    isZero (parseFloat (item m 1)) = true ->
    isFinite (parseFloat p) = true ->
    adjustOklchLightness look name p =
    (Normal (Some (js "oklch(" ++ js "0.0000" ++ js " "
                      ++ fixed4 (parseFloat (item m 2)) ++ js " "
                      ++ fixed4 (parseFloat (item m 3)) ++ js ")")), []).
Proof.
  intros look name p m E Hz Hp.
  destruct (match_array _ _ E) as (t & a & b & c & -> & Ha & _).
  cbn [item nth_error] in *.
  rewrite (adjust_match _ _ p _ _ _ _ E).
  destruct (parseFloat (JString a)) as [s| | |]; try discriminate.
  rewrite (adjustLightness_black s _ Hp (parseFloat_wellFormed p)).
  reflexivity.
Qed.

Lemma X10_black_stays_black_witness :
  adjustOklchLightness (fun _ => js "oklch(0 0.1 30)") (js "--c")
                       (JNumber (ofZ (-20))) =
  (Normal (Some (js "oklch(" ++ js "0.0000" ++ js " "
                    ++ fixed4 (parseFloat (item (map js ["oklch(0 0.1 30)"; "0"; "0.1"; "30"]%string) 2))
                    ++ js " "
                    ++ fixed4 (parseFloat (item (map js ["oklch(0 0.1 30)"; "0"; "0.1"; "30"]%string) 3))
                    ++ js ")")), []).
Proof.
  apply (X10_black_stays_black (fun _ => js "oklch(0 0.1 30)") (js "--c")
                               (JNumber (ofZ (-20)))
                               (map js ["oklch(0 0.1 30)"; "0"; "0.1"; "30"]%string)).
  - vm_compute. reflexivity.
  - vm_compute. reflexivity.
  - vm_compute. reflexivity.
Defined.

(** X11.  The result is a fixed point at percentage 0: when the text
    matches, the adjusted lightness is not NaN and the parsed chroma and
    hue are below [10^10], the returned text, looked up again with a
    percentage of zero, is returned unchanged. *)
Theorem X11_output_fixed_point :
  forall (look : jsstring -> jsstring) (name : jsstring) (p : jsvalue)
         (m : list jsstring),
    String_match (trim (look name)) oklchRegex = Some m ->
    isNaN (adjustLightness (parseFloat (item m 1)) (parseFloat p)) = false ->
    ltb (parseFloat (item m 2)) (ofZ (10 ^ 10)) = true ->
    ltb (parseFloat (item m 3)) (ofZ (10 ^ 10)) = true ->
    exists out : jsstring,
      adjustOklchLightness look name p = (Normal (Some out), []) /\
      forall (name' : jsstring) (p' : jsvalue),
        isZero (parseFloat p') = true ->
        adjustOklchLightness (fun _ => out) name' p' = (Normal (Some out), []).
Proof.
  intros look name p m E HN HC HH.
  destruct (match_array _ _ E) as (t & a & b & c & -> & Ha & Hb & Hc).
  cbn [item nth_error] in *.
  rewrite (adjust_match _ _ p _ _ _ _ E).
  eexists. split; [reflexivity|].
  intros name' p' Hp'. unfold formatOklch.
  rewrite adjustLightness_clamp in *.
  set (x := sub _ _) in *.
  assert (N : isNaN x = false) by now apply clamp_nan.
  assert (W : wellFormed x)
    by (apply sub_wellFormed; auto using parseFloat_wellFormed, mul_wellFormed).
  destruct (clamp_prints x N W) as (nl & Hl & ->).
  destruct (below_fixedInteger (parseFloat (JString b)))
    as (nc & Hnc & ->);
    [apply parseFloat_valid | now apply parseFloat_run_sign | exact HC |].
  destruct (below_fixedInteger (parseFloat (JString c)))
    as (nh & Hnh & ->);
    [apply parseFloat_valid | now apply parseFloat_run_sign | exact HH |].
  now apply adjust_fixed_point.
Qed.

Lemma X11_output_fixed_point_witness :
  exists out : jsstring,
    adjustOklchLightness (fun _ => js "oklch(0.7 0.15 250)") (js "--c")
                         (JNumber (ofZ 10)) = (Normal (Some out), []) /\
    forall (name' : jsstring) (p' : jsvalue),
      isZero (parseFloat p') = true ->
      adjustOklchLightness (fun _ => out) name' p' = (Normal (Some out), []).
Proof.
  apply (X11_output_fixed_point (fun _ => js "oklch(0.7 0.15 250)") (js "--c")
                               (JNumber (ofZ 10))
                               (map js ["oklch(0.7 0.15 250)"; "0.7"; "0.15"; "250"]%string)).
  - vm_compute. reflexivity.
  - vm_compute. reflexivity.
  - vm_compute. reflexivity.
  - vm_compute. reflexivity.
Defined.

(** The characters of a printed number are not the letter [o]. *)
Lemma number_not_o (s : jsstring) :
  forallb isDigitOrDot s = true ->
  forallb (fun ch => negb (ch =? 111)%N) s = true.
Proof.
  apply forallb_weaken. intros ch H. apply number_bounds in H.
  destruct (N.eqb_spec ch 111); [lia | reflexivity].
Qed.

(** X12.  Chaining: when the text matches and the parsed chroma and hue are
    finite and below [10^21], the returned text is accepted again, with any
    percentage, if the adjusted lightness is a number; if it is NaN the
    returned text is rejected with [null] and the diagnostic. *)
Theorem X12_chaining :
  forall (look : jsstring -> jsstring) (name : jsstring) (p : jsvalue)
         (m : list jsstring),
    String_match (trim (look name)) oklchRegex = Some m ->
    fixedRange (parseFloat (item m 2)) = true ->
    fixedRange (parseFloat (item m 3)) = true ->
    exists out : jsstring,
      adjustOklchLightness look name p = (Normal (Some out), []) /\
      forall (name' : jsstring) (p' : jsvalue),
        (isNaN (adjustLightness (parseFloat (item m 1)) (parseFloat p)) = false ->
         exists out',
           adjustOklchLightness (fun _ => out) name' p'
           = (Normal (Some out'), [])) /\
        (isNaN (adjustLightness (parseFloat (item m 1)) (parseFloat p)) = true ->
         adjustOklchLightness (fun _ => out) name' p'
         = (Normal None, [diagnostic name'])).
Proof.
  intros look name p m E HC HH.
  destruct (match_array _ _ E) as (t & a & b & c & -> & Ha & Hb & Hc).
  cbn [item nth_error] in *.
  rewrite (adjust_match _ _ p _ _ _ _ E).
  eexists. split; [reflexivity|].
  assert (Fc : isFixed4 (fixed4 (parseFloat (JString b))) = true).
  { apply fixed4_isFixed4; [exact HC|].
    destruct (parseFloat_run_sign b Hb) as [S|S]; [|exact S].
    destruct (parseFloat (JString b)); discriminate. }
  assert (Fh : isFixed4 (fixed4 (parseFloat (JString c))) = true).
  { apply fixed4_isFixed4; [exact HH|].
    destruct (parseFloat_run_sign c Hc) as [S|S]; [|exact S].
    destruct (parseFloat (JString c)); discriminate. }
  assert (Rc : numberRun (fixed4 (parseFloat (JString b)))).
  { split; [intros Z; rewrite Z in Fc; discriminate | now apply isFixed4_chars]. }
  assert (Rh : numberRun (fixed4 (parseFloat (JString c)))).
  { split; [intros Z; rewrite Z in Fh; discriminate | now apply isFixed4_chars]. }
  intros name' p'. unfold formatOklch. split.
  - intros HN. rewrite adjustLightness_clamp in *.
    set (x := sub _ _) in *.
    assert (N : isNaN x = false) by now apply clamp_nan.
    assert (W : wellFormed x)
      by (apply sub_wellFormed; auto using parseFloat_wellFormed, mul_wellFormed).
    destruct (clamp_prints x N W) as (nl & Hl & ->).
    rewrite adjust_output by (auto using fixedDigits_run). now eexists.
  - intros HN.
    destruct (adjustLightness _ _); try discriminate.
    apply adjust_null. rewrite match_trim. unfold String_match.
    change (fixed4 S754_nan) with (js "NaN").
    set (rest := fixed4 (parseFloat (JString b)) ++ js " "
                   ++ fixed4 (parseFloat (JString c)) ++ js ")").
    change (js "oklch(" ++ js "NaN" ++ js " " ++ rest)
      with (111%N :: js "klch(NaN " ++ rest).
    rewrite exec_scan.
    replace (scanHere (111%N :: js "klch(NaN " ++ rest)) with (@None (list jsstring))
      by reflexivity.
    rewrite <- (app_nil_r (js "klch(NaN " ++ rest)).
    rewrite exec_skip_not_o; [reflexivity|].
    unfold rest. rewrite !forallb_app.
    rewrite (number_not_o _ (proj2 Rc)), (number_not_o _ (proj2 Rh)).
    reflexivity.
Qed.

Lemma X12_chaining_witness :
  exists out : jsstring,
    adjustOklchLightness (fun _ => js "oklch(0 0.1 30)") (js "--c")
                         (JNumber (S754_infinity false))
    = (Normal (Some out), []) /\
    forall (name' : jsstring) (p' : jsvalue),
      (isNaN (adjustLightness
                (parseFloat (item (map js ["oklch(0 0.1 30)"; "0"; "0.1"; "30"]%string) 1))
                (parseFloat (JNumber (S754_infinity false)))) = false ->
       exists out',
         adjustOklchLightness (fun _ => out) name' p'
         = (Normal (Some out'), [])) /\
      (isNaN (adjustLightness
                (parseFloat (item (map js ["oklch(0 0.1 30)"; "0"; "0.1"; "30"]%string) 1))
                (parseFloat (JNumber (S754_infinity false)))) = true ->
       adjustOklchLightness (fun _ => out) name' p'
       = (Normal None, [diagnostic name'])).
Proof.
  apply (X12_chaining (fun _ => js "oklch(0 0.1 30)") (js "--c")
                      (JNumber (S754_infinity false))
                      (map js ["oklch(0 0.1 30)"; "0"; "0.1"; "30"]%string)).
  - vm_compute. reflexivity.
  - vm_compute. reflexivity.
  - vm_compute. reflexivity.
Defined.

(** ** The nominal range *)

(** A percentage below 100 gives a fraction below 1: zero, or a finite
    value with an exponent of at most -53. *)
Lemma div_hundred_lt_one (mp : positive) (ep : Z) :
  valid_binary prec emax (S754_finite false mp ep) = true ->
  ltb (S754_finite false mp ep) hundred = true ->
  div (S754_finite false mp ep) hundred = S754_zero false \/
  exists mf ef,
    div (S754_finite false mp ep) hundred = S754_finite false mf ef /\
    ef <= -53.
Proof.
  intros V H.
  destruct (valid_wellFormed _ V) as [Dp [E1 E2]].
  rewrite hundred_eq in *. apply ltb_finite in H.
  assert (B := Zdigits2_bounds (Zpos mp) ltac:(lia)).
  assert (Pd := Zdigits2_pos (Zpos mp) ltac:(lia)).
  assert (M53 : Zpos mp < 2 ^ 53).
  { assert (2 ^ Zdigits2 (Zpos mp) <= 2 ^ 53) by (apply Z.pow_le_mono_r; lia).
    lia. }
  change (2 ^ 53) with 9007199254740992 in M53.
  destruct (div_spec false false mp 7036874417766400 ep (-46))
    as (q & e' & l & -> & Ee & Eq & Hq & Pre).
  cbn [xorb].
  change (Zdigits2 (Zpos 7036874417766400)) with 53 in Ee.
  assert (He' : e' <= -53) by (unfold fexp64 in Ee; lia).
  assert (Hs : 0 <= ep - -46 - e') by (unfold fexp64 in Ee; lia).
  set (g := -53 - e').
  assert (Pg : 0 < 2 ^ g) by (apply pow2_pos; unfold g; lia).
  destruct (binary_round_aux_upper false q e' l 9007199254740991 (-53))
    as (m3 & e3 & -> & H3 & Ord); try lia.
  { reflexivity. }
  { fold g. rewrite Eq. apply Z.div_lt_upper_bound; [lia|].
    destruct H as [H|[-> H]].
    - assert (ep - -46 - e' <= 52 + g) by (unfold g; lia).
      assert (P2 : 2 ^ (ep - -46 - e') <= 2 ^ (52 + g))
        by (apply Z.pow_le_mono_r; lia).
      rewrite pow2_split in P2 by (unfold g; lia).
      change (2 ^ 52) with 4503599627370496 in P2.
      assert (0 < 2 ^ (ep - -46 - e')) by (apply pow2_pos; lia).
      nia.
    - replace (-46 - -46 - e') with (53 + g) by (unfold g; lia).
      rewrite pow2_split by (unfold g; lia).
      change (2 ^ 53) with 9007199254740992. nia. }
  destruct m3 as [|p3|p3]; [now left | right | lia].
  exists p3, e3. simpl. destruct (Z.leb_spec e3 971); [|lia].
  split; [reflexivity | lia].
Qed.

(** A valid positive value times a fraction below 1 is not above the
    value. *)
Lemma mul_le (mL mf : positive) (eL ef : Z) :
  valid_binary prec emax (S754_finite false mL eL) = true ->
  valid_binary prec emax (S754_finite false mf ef) = true ->
  ef <= -53 ->
  mul (S754_finite false mL eL) (S754_finite false mf ef) = S754_zero false \/
  exists my ey,
    mul (S754_finite false mL eL) (S754_finite false mf ef)
    = S754_finite false my ey /\
    SFleb (S754_finite false my ey) (S754_finite false mL eL) = true.
Proof.
  intros VL Vf He.
  destruct (valid_wellFormed _ VL) as [DL [L1 L2]].
  destruct (valid_wellFormed _ Vf) as [Df _].
  assert (M53 : Zpos mf < 2 ^ 53).
  { assert (B := Zdigits2_bounds (Zpos mf) ltac:(lia)).
    assert (2 ^ Zdigits2 (Zpos mf) <= 2 ^ 53) by (apply Z.pow_le_mono_r; lia).
    lia. }
  assert (P : 2 ^ 53 <= 2 ^ (- ef)) by (apply Z.pow_le_mono_r; lia).
  change (mul (S754_finite false mL eL) (S754_finite false mf ef))
    with (binary_round_aux prec emax false (Zpos (mL * mf)) (eL + ef) loc_Exact).
  destruct (binary_round_aux_upper false (Zpos (mL * mf)) (eL + ef) loc_Exact
                                   (Zpos mL) eL)
    as (m3 & e3 & -> & H3 & Ord); try lia.
  { replace (eL - (eL + ef)) with (- ef) by lia.
    rewrite Pos2Z.inj_mul. apply Z.mul_lt_mono_pos_l; lia. }
  destruct m3 as [|p3|p3]; [now left | right | lia].
  exists p3, e3. simpl. destruct (Z.leb_spec e3 971); [|lia].
  split; [reflexivity|]. apply leb_finite. lia.
Qed.

(** Subtracting a valid value that is not above: zero or a positive value
    that is not above either. *)
Lemma sub_le_positive (mL my : positive) (eL ey : Z) :
  valid_binary prec emax (S754_finite false mL eL) = true ->
  valid_binary prec emax (S754_finite false my ey) = true ->
  SFleb (S754_finite false my ey) (S754_finite false mL eL) = true ->
  let x := sub (S754_finite false mL eL) (S754_finite false my ey) in
  x = zero \/
  exists mx ex, x = S754_finite false mx ex /\
                SFleb x (S754_finite false mL eL) = true.
Proof.
  intros VL Vy H x.
  destruct (sub_positive_le mL my eL ey (valid_wellFormed _ VL)) as [N Le].
  fold x in N, Le.
  assert (S : x = zero \/ signOf x = None \/ signOf x = Some false).
  { apply (leb_value _ _ _ _ Vy VL) in H.
    unfold x, sub, SFsub. cbn [cond_Zopp].
    set (ez := Z.min eL ey) in *.
    replace (Z.min ey eL) with ez in H by (unfold ez; lia).
    destruct (shl_align_spec mL eL ez) as [_ AL].
    destruct (shl_align_spec my ey ez) as [_ Ay].
    replace (Z.min eL ez) with ez in AL by (unfold ez; lia).
    replace (Z.min ey ez) with ez in Ay by (unfold ez; lia).
    rewrite AL, Ay.
    set (M := Zpos mL * 2 ^ (eL - ez) - Zpos my * 2 ^ (ey - ez)).
    assert (HM : 0 <= M) by (unfold M; lia).
    unfold binary_normalize. destruct M as [|mm|mm] eqn:EM; [now left| |lia].
    right.
    destruct (binary_round_spec false mm ez) as (mz & ez' & -> & _).
    apply binary_round_aux_sign. }
  destruct S as [S|S]; [now left|].
  destruct x as [s|s| |s mx ex]; try discriminate.
  - destruct S as [S|S]; [discriminate|]. inversion S. now left.
  - destruct S as [S|S]; [discriminate|]. inversion S. subst s. discriminate.
  - destruct S as [S|S]; [discriminate|]. inversion S. subst s.
    right. now exists mx, ex.
Qed.

(** The clamp leaves a value between zero and one as it is. *)
Lemma clamp_inactive (x : number) :
  x = zero \/ (exists m e, x = S754_finite false m e) ->
  SFleb x one = true -> clamp x = x.
Proof.
  intros [-> | (m & e & ->)] H1; [reflexivity|].
  rewrite clamp_eq by reflexivity. rewrite one_eq in *.
  destruct (ltb (S754_finite false m e)
                (S754_finite false 4503599627370496 (-52))) eqn:E;
    [reflexivity|].
  apply leb_finite in H1.
  destruct H1 as [H1|[-> H1]].
  - assert (T : ltb (S754_finite false m e)
                    (S754_finite false 4503599627370496 (-52)) = true)
      by (apply ltb_finite; lia).
    congruence.
  - destruct (Z_lt_le_dec (Zpos m) 4503599627370496) as [B|B].
    + assert (T : ltb (S754_finite false m (-52))
                      (S754_finite false 4503599627370496 (-52)) = true)
        by (apply ltb_finite; lia).
      congruence.
    + f_equal. lia.
Qed.

(** In the nominal range the clamp does nothing. *)
Lemma adjustLightness_nominal (L pv : number) :
  valid_binary prec emax L = true -> valid_binary prec emax pv = true ->
  isFinite L = true -> notNegative L -> SFleb L one = true ->
  SFleb zero pv = true -> ltb pv hundred = true ->
  adjustLightness L pv = sub L (mul L (div pv hundred)) /\
  SFleb zero (adjustLightness L pv) = true /\
  SFleb (adjustLightness L pv) L = true.
Proof.
  intros VL Vp HF HS H1 H0 H100.
  rewrite adjustLightness_clamp.
  set (x := sub L (mul L (div pv hundred))).
  assert (X : (x = zero \/ exists m e, x = S754_finite false m e) /\
              SFleb x L = true).
  { unfold x. clear x.
    destruct L as [s|s| |s mL eL]; try discriminate.
    - apply notNegative_finite_zero in HS. subst s.
      destruct pv as [sp|sp| |sp mp ep]; try discriminate.
      + split; [left; now destruct sp | now destruct sp].
      + destruct sp; discriminate.
      + destruct sp; [discriminate|].
        destruct (div_hundred_lt_one mp ep Vp H100) as [-> | (mf & ef & -> & _)];
          split; try (now left); reflexivity.
    - destruct HS as [HS|HS]; [discriminate|]. inversion HS. subst s.
      assert (LL := leb_refl_finite mL eL).
      destruct pv as [sp|sp| |sp mp ep]; try discriminate.
      + split; [right; exists mL, eL; now destruct sp | now destruct sp].
      + destruct sp; discriminate.
      + destruct sp; [discriminate|].
        destruct (div_hundred_lt_one mp ep Vp H100) as [-> | (mf & ef & Ef & He)].
        * split; [right; now exists mL, eL | exact LL].
        * assert (Vf : valid_binary prec emax (S754_finite false mf ef) = true)
            by (rewrite <- Ef; apply div_valid).
          rewrite Ef.
          assert (Vy := mul_valid _ _ VL Vf).
          destruct (mul_le mL mf eL ef VL Vf He) as [-> | (my & ey & Ey & Le)].
          -- split; [right; now exists mL, eL | exact LL].
          -- rewrite Ey in *.
             destruct (sub_le_positive mL my eL ey VL Vy Le)
               as [-> | (mx & ex & -> & Lx)].
             ++ split; [now left | reflexivity].
             ++ split; [right; now exists mx, ex | exact Lx]. }
  destruct X as [F Le].
  assert (L1 : SFleb x one = true).
  { destruct F as [-> | (m & e & E)]; [reflexivity|]. rewrite E in *.
    destruct L as [s|s| |s mL eL]; try discriminate;
      destruct s; try discriminate.
    rewrite one_eq in *. apply leb_finite in Le, H1. apply leb_finite. lia. }
  rewrite (clamp_inactive x F L1).
  split; [reflexivity|]. split; [|exact Le].
  destruct F as [-> | (m & e & ->)]; reflexivity.
Qed.

(** X13.  In the nominal range the clamp does nothing: when the text
    matches, the parsed lightness is finite and at most 1 and the
    percentage is at least 0 and below 100, the printed lightness is the
    number [L - L * (p / 100)] itself, which lies between 0 and the parsed
    lightness. *)
Theorem X13_nominal_range :
  forall (look : jsstring -> jsstring) (name : jsstring) (p : jsvalue)
         (m : list jsstring),
    String_match (trim (look name)) oklchRegex = Some m ->
    isFinite (parseFloat (item m 1)) = true ->
    SFleb (parseFloat (item m 1)) one = true ->
    SFleb zero (parseFloat p) = true ->
    ltb (parseFloat p) hundred = true ->
    let L := parseFloat (item m 1) in
    let x := sub L (mul L (div (parseFloat p) hundred)) in
    adjustOklchLightness look name p =
    (Normal (Some (formatOklch x (parseFloat (item m 2))
                               (parseFloat (item m 3)))), []) /\
    SFleb zero x = true /\ SFleb x L = true.
Proof.
  intros look name p m E HF H1 H0 H100 L x.
  destruct (match_array _ _ E) as (t & a & b & c & -> & Ha & _).
  cbn [item nth_error] in *.
  destruct (adjustLightness_nominal L (parseFloat p)
              (parseFloat_valid _) (parseFloat_valid _) HF
              (parseFloat_run_sign a Ha) H1 H0 H100)
    as (A & B0 & B1).
  fold x in A. rewrite A in B0, B1.
  rewrite (adjust_match _ _ p _ _ _ _ E). fold L. rewrite A. auto.
Qed.

Lemma X13_nominal_range_witness :
  let L := parseFloat (item (map js ["oklch(0.7 0.15 250)"; "0.7"; "0.15"; "250"]%string) 1) in
  let x := sub L (mul L (div (parseFloat (JNumber (ofZ 10))) hundred)) in
  adjustOklchLightness (fun _ => js "oklch(0.7 0.15 250)") (js "--c")
                       (JNumber (ofZ 10)) =
  (Normal (Some (formatOklch x
                   (parseFloat (item (map js ["oklch(0.7 0.15 250)"; "0.7"; "0.15"; "250"]%string) 2))
                   (parseFloat (item (map js ["oklch(0.7 0.15 250)"; "0.7"; "0.15"; "250"]%string) 3)))), []) /\
  SFleb zero x = true /\ SFleb x L = true.
Proof.
  apply (X13_nominal_range (fun _ => js "oklch(0.7 0.15 250)") (js "--c")
                           (JNumber (ofZ 10))
                           (map js ["oklch(0.7 0.15 250)"; "0.7"; "0.15"; "250"]%string)).
  - vm_compute. reflexivity.
  - vm_compute. reflexivity.
  - vm_compute. reflexivity.
  - vm_compute. reflexivity.
  - vm_compute. reflexivity.
Defined.

(** ** Texts that are rejected *)

Lemma exec_no_o (s : jsstring) :
  forallb (fun ch => negb (ch =? 111)%N) s = true ->
  exec oklchRegex s = None.
Proof.
  intros H. rewrite <- (app_nil_r s). now rewrite exec_skip_not_o.
Qed.

(** X14.  The expression is case-sensitive: a looked-up text without the
    lower-case letter [o], such as [OKLCH(0.7 0.15 250)], [rgb(255,0,0)] or
    the empty text of an undefined property, gives [null] and the
    diagnostic. *)
Theorem X14_case_sensitive :
  forall (look : jsstring -> jsstring) (name : jsstring) (p : jsvalue),
    forallb (fun ch => negb (ch =? 111)%N) (look name) = true ->
    adjustOklchLightness look name p = (Normal None, [diagnostic name]).
Proof.
  intros look name p H. apply adjust_null. rewrite match_trim.
  now apply exec_no_o.
Qed.

Lemma X14_case_sensitive_witness :
  adjustOklchLightness (fun _ => js "OKLCH(0.7 0.15 250)") (js "--c")
                       (JNumber (ofZ 10))
  = (Normal None, [diagnostic (js "--c")]).
Proof.
  apply (X14_case_sensitive (fun _ => js "OKLCH(0.7 0.15 250)")).
  reflexivity.
Defined.

(** The attempt at the start fails when, in place of a white space or of
    the closing parenthesis, another character follows. *)
Lemma scanHere_strict (pre rest : jsstring) (x : char16) :
  bodyStart pre ->
  isWhiteSpace x = false -> isDigitOrDot x = false -> (x =? 41)%N = false ->
  scanHere (js "oklch(" ++ pre ++ x :: rest) = None.
Proof.
  intros Hpre Xs Xn Xp.
  assert (Sx : stops isWhiteSpace (x :: rest)) by exact Xs.
  assert (Nx : stops isDigitOrDot (x :: rest)) by exact Xn.
  assert (T0 : takeWhile isDigitOrDot (x :: rest) = [])
    by (simpl; now rewrite Xn).
  assert (T1 : takeWhile isWhiteSpace (x :: rest) = [])
    by (simpl; now rewrite Xs).
  unfold scanHere.
  destruct Hpre as [w0 H0 | w0 a H0 Ha | w0 a w1 b H0 Ha H1 N1 Hb
                    | w0 a w1 b w2 c w3 H0 Ha H1 N1 Hb H2 N2 Hc H3];
    repeat rewrite <- app_assoc; rewrite stripPrefix_app.
  - rewrite (dropWhile_app _ w0) by assumption.
    now rewrite T0.
  - assert (Pa := proj2 Ha).
    rewrite (dropWhile_app _ w0) by (auto using stops_number_run).
    rewrite (takeWhile_app _ a), (dropWhile_app _ a) by assumption.
    rewrite T1. destruct a; reflexivity.
  - assert (Pa := proj2 Ha). assert (Pb := proj2 Hb).
    rewrite (dropWhile_app _ w0) by (auto using stops_number_run).
    rewrite (takeWhile_app _ a), (dropWhile_app _ a)
      by (auto using stops_spaces).
    rewrite (takeWhile_app _ w1), (dropWhile_app _ w1)
      by (auto using stops_number_run).
    rewrite (takeWhile_app _ b), (dropWhile_app _ b) by assumption.
    rewrite T1.
    destruct a; [reflexivity|]. destruct w1; [reflexivity|].
    destruct b; reflexivity.
  - assert (Pa := proj2 Ha). assert (Pb := proj2 Hb). assert (Pc := proj2 Hc).
    rewrite (dropWhile_app _ w0) by (auto using stops_number_run).
    rewrite (takeWhile_app _ a), (dropWhile_app _ a)
      by (auto using stops_spaces).
    rewrite (takeWhile_app _ w1), (dropWhile_app _ w1)
      by (auto using stops_number_run).
    rewrite (takeWhile_app _ b), (dropWhile_app _ b)
      by (auto using stops_spaces).
    rewrite (takeWhile_app _ w2), (dropWhile_app _ w2)
      by (auto using stops_number_run).
    assert (Hstop : stops isDigitOrDot (w3 ++ x :: rest)).
    { destruct w3 as [|d w3]; [exact Xn|].
      unfold spaces in H3. simpl in *. apply andb_prop in H3 as [H3 _].
      now apply space_not_number. }
    rewrite (takeWhile_app _ c), (dropWhile_app _ c) by assumption.
    rewrite (dropWhile_app _ w3) by assumption.
    assert (P : stripPrefix (js ")") (x :: rest) = None).
    { cbn [js stripPrefix]. unfold char16_eqb.
      change (N_of_ascii ")") with 41%N. now rewrite N.eqb_sym, Xp. }
    rewrite P.
    destruct a; [reflexivity|]. destruct w1; [reflexivity|].
    destruct b; [reflexivity|]. destruct w2; [reflexivity|].
    destruct c; reflexivity.
Qed.

Lemma spaces_not_o (w : jsstring) :
  spaces w -> forallb (fun ch => negb (ch =? 111)%N) w = true.
Proof.
  apply forallb_weaken. intros ch H.
  destruct (N.eqb_spec ch 111) as [->|]; [discriminate | reflexivity].
Qed.

Lemma bodyStart_not_o (pre : jsstring) :
  bodyStart pre -> forallb (fun ch => negb (ch =? 111)%N) pre = true.
Proof.
  intros [w0 H0 | w0 a H0 Ha | w0 a w1 b H0 Ha H1 N1 Hb
          | w0 a w1 b w2 c w3 H0 Ha H1 N1 Hb H2 N2 Hc H3];
    rewrite ?forallb_app;
    rewrite ?(spaces_not_o w0 H0), ?(spaces_not_o w1 H1),
      ?(spaces_not_o w2 H2), ?(spaces_not_o w3 H3),
      ?(number_not_o a (proj2 Ha)), ?(number_not_o b (proj2 Hb)),
      ?(number_not_o c (proj2 Hc)); reflexivity.
Qed.

(** X15.  The syntax is strict: when the looked-up text is [oklch(]
    followed by the start of a well-formed body and then, in place of a
    separating white space or of the closing parenthesis, a character that
    is neither white space, digit, point nor [)] (a sign, a comma, a [%],
    a unit, the [/] of an alpha value), and no letter [o] follows, the
    function gives [null] and the diagnostic. *)
Theorem X15_strict_syntax :
  forall (look : jsstring -> jsstring) (name : jsstring) (p : jsvalue)
         (pre rest : jsstring) (x : char16),
    bodyStart pre ->
    isWhiteSpace x = false -> isDigitOrDot x = false ->
    (x =? 41)%N = false ->
    forallb (fun ch => negb (ch =? 111)%N) (x :: rest) = true ->
    look name = js "oklch(" ++ pre ++ x :: rest ->
    adjustOklchLightness look name p = (Normal None, [diagnostic name]).
Proof.
  intros look name p pre rest x Hpre Xs Xn Xp Ho E.
  apply adjust_null. rewrite match_trim. unfold String_match. rewrite E.
  assert (No : forallb (fun ch => negb (ch =? 111)%N)
                       (js "klch(" ++ pre ++ x :: rest) = true).
  { rewrite !forallb_app, Ho, (bodyStart_not_o pre Hpre). reflexivity. }
  rewrite exec_scan, (scanHere_strict pre rest x Hpre Xs Xn Xp).
  change (js "oklch(" ++ pre ++ x :: rest)
    with (111%N :: js "klch(" ++ pre ++ x :: rest).
  cbv beta iota. now apply exec_no_o.
Qed.

Lemma X15_strict_syntax_witness :
  adjustOklchLightness (fun _ => js "oklch(70% 0.15 250)") (js "--c")
                       (JNumber (ofZ 10))
  = (Normal None, [diagnostic (js "--c")]).
Proof.
  apply (X15_strict_syntax (fun _ => js "oklch(70% 0.15 250)") (js "--c")
                           (JNumber (ofZ 10)) (js "70") (js " 0.15 250)")
                           37%N).
  - apply (start_lightness [] (js "70")); [reflexivity|].
    split; [discriminate | reflexivity].
  - reflexivity.
  - reflexivity.
  - reflexivity.
  - reflexivity.
  - reflexivity.
Defined.
